(** * dataspine: record construction, contract validation and batch invariants

    A shallow embedding of
      - [dataspine/schemas/market_data.py] and [dataspine/schemas/trade_data.py]
        (the pydantic models [MarketData] and [TradeData] with their field
        validators),
      - [dataspine/validation/contracts.py] ([ContractValidator]),
      - [dataspine/validation/invariants.py] (the five batch invariants),
    followed by the properties of these functions.

    Python values are dynamically typed, so the embedding works over a
    universe [value] of the values the code handles and an exception monad
    [res]: an operation applied to a value of the wrong type raises, as it
    does in Python.

    Modelling conventions.
      - [str] is ASCII text ([string]); case mapping and whitespace are the
        ASCII ones.
      - [Decimal] is a sign, an integer coefficient and an exponent, or an
        infinity, or a quiet NaN.  Arithmetic runs in the default context,
        where ordering a NaN raises [InvalidOperation].  Signaling NaNs,
        which can be neither hashed nor tested for equality, are not part
        of the universe.
      - [datetime] is the tuple of its calendar fields with an optional
        [tzinfo]; two datetimes attached to one tzinfo object are ordered
        by their wall-clock readings, aware datetimes otherwise by the
        instants they denote; the clock ([datetime.now(UTC)]) is an
        argument, in microseconds.
      - Records are instances with an attribute dictionary; batches hold
        records (no [None] entries).
      - Log records are not modelled; the lists the functions accumulate for
        them are.
      - Violation messages are kept structured (contract tag and reason)
        instead of being rendered to text. *)

From Stdlib Require Import ZArith NArith Ascii String List Lia Sorted.
From stdpp Require Import base gmap strings list fin_maps.

Local Open Scope Z_scope.

(** ** The Python values the code handles *)

Module Py.

(** [decimal.Decimal]: [Decimal.as_tuple()] is [(sign, digits, exponent)];
    the digits are kept as the integer they spell.  A [NaN] is a quiet NaN
    with its sign and payload; [ident] is the identity of the object: a NaN
    is equal to no value, and the containers that test identity before
    [==] find it equal to itself only. *)
Inductive Decimal :=
| Finite (sign : bool) (coefficient : N) (exponent : Z)
| Infinity (sign : bool)
| NaN (sign : bool) (payload : N) (ident : N).

(** The third component of [as_tuple()]: an [int], or the letter ['F'] for
    an infinity, ['n'] for a quiet NaN. *)
Inductive dec_exponent :=
| ExpInt (e : Z)
| ExpF
| ExpN.

Definition as_tuple (d : Decimal) : bool * N * dec_exponent :=
  match d with
  | Finite s c e => (s, c, ExpInt e)
  | Infinity s => (s, 0%N, ExpF)
  | NaN s p _ => (s, p, ExpN)
  end.

(** A tzinfo object attached to a datetime.  A [datetime.timezone] has a
    fixed offset ([timezone.utc] is [timezone 0]).  Any other tzinfo
    instance (a [ZoneInfo], say) is known by its identity and by what its
    [utcoffset()] returns for the datetime it is attached to, possibly
    [None]: a zone with daylight saving time gives different offsets to
    different datetimes.  Offsets are [timedelta]s in microseconds. *)
Inductive tz :=
| timezone (offset : Z)
| tzobject (ident : N) (offset : option Z).

(** [datetime.datetime].  [tzinfo = None] is a naive datetime. *)
Record datetime := mkdatetime {
  year : Z;
  month : Z;
  day : Z;
  hour : Z;
  minute : Z;
  second : Z;
  microsecond : Z;
  tzinfo : option tz
}.

Definition utcoffset (t : datetime) : option Z :=
  match tzinfo t with
  | Some (timezone off) => Some off
  | Some (tzobject _ off) => off
  | None => None
  end.

(** [t.tzinfo is u.tzinfo] for two attached objects.  Two [timezone]
    objects need not be told apart: one object has one offset, and
    datetimes of equal offsets are ordered by their wall-clock readings
    whether or not they share the object. *)
Definition same_tzobject (t u : datetime) : bool :=
  match tzinfo t, tzinfo u with
  | Some (tzobject i _), Some (tzobject j _) => (i =? j)%N
  | _, _ => false
  end.

(** The proleptic Gregorian ordinal of a date, as in CPython's [_ymd2ord]. *)
Definition is_leap (y : Z) : bool :=
  (y mod 4 =? 0) && (negb (y mod 100 =? 0) || (y mod 400 =? 0)).

Definition days_before_year (y : Z) : Z :=
  let y' := y - 1 in y' * 365 + y' / 4 - y' / 100 + y' / 400.

Definition days_before_month (y m : Z) : Z :=
  nth (Z.to_nat m) [0; 0; 31; 59; 90; 120; 151; 181; 212; 243; 273; 304; 334] 0
  + (if (2 <? m) && is_leap y then 1 else 0).

Definition ymd2ord (y m d : Z) : Z :=
  days_before_year y + days_before_month y m + d.

(** Microseconds of the wall-clock reading since the start of day 0. *)
Definition wall_us (t : datetime) : Z :=
  (((ymd2ord (year t) (month t) (day t) * 24 + hour t) * 60 + minute t) * 60
   + second t) * 1000000 + microsecond t.

(** The instant an aware datetime denotes. *)
Definition utc_us (t : datetime) (off : Z) : Z := wall_us t - off.

Definition timedelta_minutes (m : Z) : Z := m * 60 * 1000000.

(** The values the records carry. *)
Inductive value :=
| VNone
| VBool (b : bool)
| VInt (z : Z)
| VStr (s : string)
| VDecimal (d : Decimal)
| VDatetime (t : datetime).

#[export] Instance Decimal_eq_dec : EqDecision Decimal.
Proof. solve_decision. Defined.

#[export] Instance tz_eq_dec : EqDecision tz.
Proof. solve_decision. Defined.

#[export] Instance datetime_eq_dec : EqDecision datetime.
Proof. solve_decision. Defined.

#[export] Instance value_eq_dec : EqDecision value.
Proof. solve_decision. Defined.

Inductive type_name :=
| NoneType | bool_t | int_t | str_t | Decimal_t | datetime_t.

#[export] Instance type_name_eq_dec : EqDecision type_name.
Proof. solve_decision. Defined.

Definition type_of (v : value) : type_name :=
  match v with
  | VNone => NoneType
  | VBool _ => bool_t
  | VInt _ => int_t
  | VStr _ => str_t
  | VDecimal _ => Decimal_t
  | VDatetime _ => datetime_t
  end.

(** Contract identifiers: the prefix of every message. *)
Inductive contract :=
| REQUIRED_FIELDS
| PRICE_VALIDITY
| QUANTITY_VALIDITY
| TIMESTAMP_VALIDITY
| SYMBOL_FORMAT
| TRADE_SPECIFIC
| VOLUME_VALIDITY.

(** What a message says after its prefix. *)
Inductive reason :=
| MissingRequiredField (field : string)
| CannotBeEmpty (field : string)
| MustBeDecimalType (field : string) (got : type_name)
| NotADecimalNumber (field : string) (got : value)
| MustBePositive (field : string) (got : value)
| TooManyDecimalPlaces (field : string) (places : Z)
| MustBeTimezoneAware
| MustBeUTC (offset : option Z)
| TooFarInFuture (got : datetime)
| BeforeMinYear (got : Z)
| SymbolLength (got : nat)
| SymbolNotUppercase (got : string)
| SymbolBadCharacters (got : string)
| BadSide (got : value)
| NegativeVolume (got : Z).

Record message := Msg { tag : contract; text : reason }.

#[export] Instance contract_eq_dec : EqDecision contract.
Proof. solve_decision. Defined.

#[export] Instance reason_eq_dec : EqDecision reason.
Proof. solve_decision. Defined.

#[export] Instance message_eq_dec : EqDecision message.
Proof. solve_decision. Defined.

(** [decimal.InvalidOperation] is an [ArithmeticError], not a
    [ValueError]. *)
Inductive exn :=
| AttributeError
| TypeError
| IndexError
| InvalidOperation
| ValueError (m : message).

Inductive res (A : Type) :=
| Ok (a : A)
| Raise (e : exn).
Arguments Ok {A} a.
Arguments Raise {A} e.

#[export] Instance res_ret : MRet res := fun A a => Ok a.
#[export] Instance res_bind : MBind res := fun A B f m =>
  match m with
  | Ok a => f a
  | Raise e => Raise e
  end.

Definition is_Ok {A} (m : res A) : bool :=
  match m with Ok _ => true | Raise _ => false end.

(** *** [str] *)

Definition chars (s : string) : list ascii := list_ascii_of_string s.

Definition between (lo hi : N) (c : ascii) : bool :=
  let n := N_of_ascii c in ((lo <=? n) && (n <=? hi))%N.

Definition upper_char (c : ascii) : ascii :=
  if between 97 122 c then ascii_of_N (N_of_ascii c - 32) else c.

(** [s.upper()] *)
Definition upper (s : string) : string :=
  string_of_list_ascii (map upper_char (chars s)).

(** [c.isspace()] on ASCII: tab, LF, VT, FF, CR, FS, GS, RS, US, space. *)
Definition isspace (c : ascii) : bool :=
  between 9 13 c || between 28 32 c.

Fixpoint lstrip_chars (l : list ascii) : list ascii :=
  match l with
  | [] => []
  | c :: l' => if isspace c then lstrip_chars l' else l
  end.

(** [s.strip()] *)
Definition strip (s : string) : string :=
  string_of_list_ascii
    (rev (lstrip_chars (rev (lstrip_chars (chars s))))).

Definition str_len (s : string) : nat := String.length s.

(** The character class [[A-Z0-9.]]. *)
Definition symbol_char (c : ascii) : bool :=
  between 65 90 c || between 48 57 c || between 46 46 c.

(** [[A-Z0-9.]{1,10}] against a whole list of characters. *)
Definition class_1_10 (l : list ascii) : bool :=
  (1 <=? length l)%nat && (length l <=? 10)%nat && forallb symbol_char l.

Definition newline : ascii := ascii_of_N 10.

(** [re.compile(r"^[A-Z0-9.]{1,10}$").match(s) is not None].  Without
    [re.MULTILINE], [$] matches at the end of the string and also just
    before a newline that is the last character. *)
Definition SYMBOL_PATTERN_match (s : string) : bool :=
  let l := chars s in
  class_1_10 l
  || match rev l with
     | c :: body => bool_decide (c = newline) && class_1_10 (rev body)
     | [] => false
     end.

(** *** Truth value, equality and ordering *)

(** [bool(v)], as [not v] uses it. *)
Definition truthy (v : value) : bool :=
  match v with
  | VNone => false
  | VBool b => b
  | VInt z => negb (z =? 0)
  | VStr s => negb (bool_decide (s = EmptyString))
  | VDecimal (Finite _ c _) => negb (c =? 0)%N
  | VDecimal (Infinity _) => true
  | VDecimal (NaN _ _ _) => true
  | VDatetime _ => true
  end.

(** [==] and [hash] agree on the built-in types: [True == 1 ==
    Decimal("1.0")], two aware datetimes are equal when they denote the same
    instant, an aware and a naive one never are, a NaN is the same key only
    as the very same object.  [hkey v] is the canonical representative of
    the class of [v]; two values are the same key of a [dict], the same
    member of a [set] or [tuple] and the same field value of two instances
    exactly when their keys coincide, and a [dict] or [set] is a finite map
    on keys. *)
Inductive hkey :=
| KNone
| KStr (s : string)
| KNum (sign : bool) (coefficient : N) (exponent : Z)
| KInf (sign : bool)
| KNaN (ident : N)
| KAware (instant : Z)
| KNaive (wall : Z).

#[export] Instance hkey_eq_dec : EqDecision hkey.
Proof. solve_decision. Defined.

#[export] Instance hkey_countable : Countable hkey.
Proof.
  refine (inj_countable'
    (λ k, match k with
          | KNone => inl ()
          | KStr s => inr (inl s)
          | KNum s c e => inr (inr (inl (s, c, e)))
          | KInf s => inr (inr (inr (inl s)))
          | KAware z => inr (inr (inr (inr (inl z))))
          | KNaive z => inr (inr (inr (inr (inr (inl z)))))
          | KNaN i => inr (inr (inr (inr (inr (inr i)))))
          end)
    (λ x, match x with
          | inl () => KNone
          | inr (inl s) => KStr s
          | inr (inr (inl (s, c, e))) => KNum s c e
          | inr (inr (inr (inl s))) => KInf s
          | inr (inr (inr (inr (inl z)))) => KAware z
          | inr (inr (inr (inr (inr (inl z))))) => KNaive z
          | inr (inr (inr (inr (inr (inr i))))) => KNaN i
          end) _).
  by intros [].
Defined.

(** Drop the trailing zeros of a non-zero coefficient. *)
Fixpoint strip_zeros (fuel : nat) (c : N) (e : Z) : N * Z :=
  match fuel with
  | O => (c, e)
  | S fuel' =>
      if (c mod 10 =? 0)%N then strip_zeros fuel' (c / 10)%N (e + 1) else (c, e)
  end.

Definition num_key (s : bool) (c : N) (e : Z) : hkey :=
  if (c =? 0)%N then KNum false 0 0
  else let '(c', e') := strip_zeros (N.to_nat (N.size c)) c e in KNum s c' e'.

Definition int_key (z : Z) : hkey := num_key (z <? 0) (Z.abs_N z) 0.

Definition hkey_of (v : value) : hkey :=
  match v with
  | VNone => KNone
  | VBool b => int_key (if b then 1 else 0)
  | VInt z => int_key z
  | VStr s => KStr s
  | VDecimal (Finite s c e) => num_key s c e
  | VDecimal (Infinity s) => KInf s
  | VDecimal (NaN _ _ i) => KNaN i
  | VDatetime t =>
      match utcoffset t with
      | Some off => KAware (utc_us t off)
      | None => KNaive (wall_us t)
      end
  end.

(** [a == b] *)
Definition py_eq (a b : value) : Prop := hkey_of a = hkey_of b.

(** Numbers as extended values for ordering; a NaN is none. *)
Inductive number :=
| NFin (sign : bool) (c : N) (e : Z)
| NInf (sign : bool).

Definition as_number (v : value) : option number :=
  match v with
  | VBool b => Some (NFin false (if b then 1 else 0)%N 0)
  | VInt z => Some (NFin (z <? 0) (Z.abs_N z) 0)
  | VDecimal (Finite s c e) => Some (NFin s c e)
  | VDecimal (Infinity s) => Some (NInf s)
  | _ => None
  end.

(** [bool], [int] and [Decimal]: the types ordered against each other. *)
Definition is_numeric (v : value) : bool :=
  match v with
  | VBool _ | VInt _ | VDecimal _ => true
  | _ => false
  end.

(** [v] is a [Decimal] and [v.is_nan()]. *)
Definition is_nan (v : value) : bool :=
  match v with
  | VDecimal (NaN _ _ _) => true
  | _ => false
  end.

Definition scaled (s : bool) (c : N) (e m : Z) : Z :=
  (if s then -1 else 1) * Z.of_N c * 10 ^ (e - m).

Definition number_compare (a b : number) : comparison :=
  match a, b with
  | NFin s1 c1 e1, NFin s2 c2 e2 =>
      let m := Z.min e1 e2 in scaled s1 c1 e1 m ?= scaled s2 c2 e2 m
  | NInf s1, NInf s2 =>
      match s1, s2 with
      | true, false => Lt
      | false, true => Gt
      | _, _ => Eq
      end
  | NInf s, NFin _ _ _ => if s then Lt else Gt
  | NFin _ _ _, NInf s => if s then Gt else Lt
  end.

(** The three-way comparison behind [<], [<=], [>], [>=]:
    [InvalidOperation] when a NaN is ordered against a number, [TypeError]
    when the operands are not ordered against each other.  Two datetimes
    attached to the same tzinfo object, or with the same offset, are
    ordered by their wall-clock readings (which for equal offsets is the
    order of their instants); with different offsets, by their instants. *)
Definition py_compare (a b : value) : res comparison :=
  match as_number a, as_number b with
  | Some x, Some y => Ok (number_compare x y)
  | _, _ =>
      match a, b with
      | VStr s, VStr t => Ok (String.compare s t)
      | VDatetime t, VDatetime u =>
          if same_tzobject t u then Ok (wall_us t ?= wall_us u)
          else
            match utcoffset t, utcoffset u with
            | Some o1, Some o2 => Ok (utc_us t o1 ?= utc_us u o2)
            | None, None => Ok (wall_us t ?= wall_us u)
            | _, _ => Raise TypeError
            end
      | _, _ =>
          if is_numeric a && is_numeric b then Raise InvalidOperation
          else Raise TypeError
      end
  end.

(** [d <= 0] for a [Decimal] against the integer zero. *)
Definition Decimal_le_0 (d : Decimal) : res bool :=
  match d with
  | Finite s c _ => Ok (s || (c =? 0)%N)
  | Infinity s => Ok s
  | NaN _ _ _ => Raise InvalidOperation
  end.

Definition is_Gt (c : comparison) : bool :=
  match c with Gt => true | _ => false end.

(** [a > b] *)
Definition py_gt (a b : value) : res bool :=
  c ← py_compare a b; Ok (is_Gt c).

(** [a <= b] *)
Definition py_le (a b : value) : res bool :=
  c ← py_compare a b; Ok (negb (is_Gt c)).

(** *** Objects *)

(** An instance: its class and its attribute dictionary ([__dict__]). *)
Record pyobj := Obj { ob_type : string; ob_dict : gmap string value }.

(** [getattr(o, name)]: [AttributeError] when the attribute is not set. *)
Definition getattr (o : pyobj) (name : string) : res value :=
  match ob_dict o !! name with
  | Some v => Ok v
  | None => Raise AttributeError
  end.

(** [getattr(o, name, None)] *)
Definition getattr_or_None (o : pyobj) (name : string) : value :=
  default VNone (ob_dict o !! name).

Definition is_None (v : value) : bool :=
  match v with VNone => true | _ => false end.

(** [o1 == o2] on model instances: same class, same fields, equal values. *)
Definition obj_key (o : pyobj) : string * gmap string hkey :=
  (ob_type o, hkey_of <$> ob_dict o).

End Py.

Import Py.

(** ** pydantic: strict models with field validators

    What [BaseModel.__init__] does for the two models, both declared with
    [strict=True]: the fields are validated in declaration order; for each
    one the [mode="before"] validator runs on the raw input, then the strict
    check of the annotated type, then the plain ([mode="after"]) validator.
    A [ValueError] raised by a validator becomes the error of that field and
    validation goes on with the next field; any other exception propagates
    at once.  The errors of all fields make up the [ValidationError]. *)

Module Pydantic.

Inductive field_error :=
| Missing
| WrongType (expected : type_name)
| NotFinite
| NotInLiteral
| ValueErr (m : message).

Record error_detail := ErrorDetail { loc : string; err : field_error }.

Inductive field_outcome :=
| FValue (v : value)
| FError (e : field_error)
| FRaise (e : exn).

Record field := Field {
  name : string;
  before : value -> res value;
  core : value -> option field_error;
  after : value -> res value
}.

Definition no_validator (v : value) : res value := Ok v.

Definition run_validator (f : value -> res value) (v : value) : field_outcome :=
  match f v with
  | Ok v' => FValue v'
  | Raise (ValueError m) => FError (ValueErr m)
  | Raise e => FRaise e
  end.

Definition validate_field (fld : field) (raw : gmap string value) : field_outcome :=
  match raw !! name fld with
  | None => FError Missing
  | Some v =>
      match run_validator (before fld) v with
      | FValue v1 =>
          match core fld v1 with
          | Some e => FError e
          | None => run_validator (after fld) v1
          end
      | o => o
      end
  end.

Inductive outcome :=
| Constructed (o : pyobj)
| ValidationError (errors : list error_detail)
| Propagated (e : exn).

Fixpoint validate_fields (cls : string) (flds : list field) (raw : gmap string value)
    (values : gmap string value) (errors : list error_detail) : outcome :=
  match flds with
  | [] =>
      match errors with
      | [] => Constructed (Obj cls values)
      | _ => ValidationError errors
      end
  | fld :: rest =>
      match validate_field fld raw with
      | FValue v => validate_fields cls rest raw (<[name fld := v]> values) errors
      | FError e =>
          validate_fields cls rest raw values (errors ++ [ErrorDetail (name fld) e])
      | FRaise e => Propagated e
      end
  end.

(** The constructor call [cls(symbol=..., price=..., ...)] on keyword
    arguments [raw]. *)
Definition model_new (cls : string) (flds : list field) (raw : gmap string value) : outcome :=
  validate_fields cls flds raw ∅ [].

(** Strict checks of the annotated types. *)
Definition strict_str (v : value) : option field_error :=
  match v with VStr _ => None | _ => Some (WrongType str_t) end.

Definition strict_int (v : value) : option field_error :=
  match v with VInt _ => None | _ => Some (WrongType int_t) end.

Definition strict_datetime (v : value) : option field_error :=
  match v with VDatetime _ => None | _ => Some (WrongType datetime_t) end.

Definition strict_Decimal (v : value) : option field_error :=
  match v with
  | VDecimal (Finite _ _ _) => None
  | VDecimal (Infinity _) => Some NotFinite
  | VDecimal (NaN _ _ _) => Some NotFinite
  | _ => Some (WrongType Decimal_t)
  end.

Definition strict_Literal (choices : list string) (v : value) : option field_error :=
  match v with
  | VStr s => if bool_decide (s ∈ choices) then None else Some NotInLiteral
  | _ => Some NotInLiteral
  end.

(** The errors a [ValidationError] carries for one field. *)
Definition errors_at (field_name : string) (errors : list error_detail) : list field_error :=
  err <$> filter (λ d, loc d = field_name) errors.

End Pydantic.

Import Pydantic.

(** ** Checks shared by the field validators

    The two schema modules spell the same checks out once per field; the
    parts that are textually identical are written once here. *)

Module Checks.

(** [not v or not v.strip()] *)
Definition is_blank (v : value) : res bool :=
  if negb (truthy v) then Ok true
  else match v with
       | VStr s => Ok (negb (truthy (VStr (strip s))))
       | _ => Raise AttributeError
       end.

(** [len(v)] *)
Definition py_len (v : value) : res nat :=
  match v with
  | VStr s => Ok (str_len s)
  | _ => Raise TypeError
  end.

(** [v.upper()] *)
Definition py_upper (v : value) : res string :=
  match v with
  | VStr s => Ok (upper s)
  | _ => Raise AttributeError
  end.

(** [SYMBOL_PATTERN.match(v)] *)
Definition py_match (v : value) : res bool :=
  match v with
  | VStr s => Ok (SYMBOL_PATTERN_match s)
  | _ => Raise TypeError
  end.

(** [v != v.upper()] *)
Definition differs_from_upper (v : value) : res bool :=
  u ← py_upper v; Ok (negb (bool_decide (hkey_of v = KStr u))).

(** [len(v) < 1 or len(v) > 10] *)
Definition bad_length (v : value) : res bool :=
  n ← py_len v; Ok ((n <? 1)%nat || (10 <? n)%nat).

(** [t > instant] for an [instant] of [datetime.now(UTC)], which is
    attached to [timezone.utc]: by the instants, as [t] either has another
    tzinfo object or the offset zero as well; [TypeError] when [t] has no
    offset of its own. *)
Definition later_than (t : datetime) (instant : Z) : res bool :=
  match utcoffset t with
  | Some off => Ok (instant <? utc_us t off)
  | None => Raise TypeError
  end.

(** [utc_offset is None or utc_offset != timedelta(0)] *)
Definition not_utc (off : option Z) : bool :=
  match off with
  | None => true
  | Some d => negb (d =? 0)
  end.

(** [Decimal(str(v))] for a [v] that is not a [Decimal]: an [int] spells
    itself, a [str] is parsed by the [decimal] module ([Decimal_of_string],
    [None] for [InvalidOperation]), the other values do not spell a number. *)
Definition Decimal_of_str (Decimal_of_string : string -> option Decimal) (v : value)
    : option Decimal :=
  match v with
  | VInt z => Some (Finite (z <? 0) (Z.abs_N z) 0)
  | VStr s => Decimal_of_string s
  | _ => None
  end.

End Checks.

Import Checks.

(** ** [schemas/market_data.py] *)

Module MarketData.

Definition MAX_DECIMAL_PLACES : Z := 4.
Definition MAX_FUTURE_MINUTES : Z := 5.
Definition MIN_VALID_YEAR : Z := 2000.

Definition validate_symbol (v : value) : res value :=
  if negb (truthy v) then
    Raise (ValueError (Msg SYMBOL_FORMAT (CannotBeEmpty "symbol")))
  else
    ne ← differs_from_upper v;
    if (ne : bool) then
      Raise (ValueError (Msg SYMBOL_FORMAT
        (SymbolNotUppercase (match v with VStr s => s | _ => EmptyString end))))
    else
      bad ← bad_length v;
      if (bad : bool) then
        n ← py_len v;
        Raise (ValueError (Msg SYMBOL_FORMAT (SymbolLength n)))
      else
        m ← py_match v;
        if negb m then
          Raise (ValueError (Msg SYMBOL_FORMAT
            (SymbolBadCharacters (match v with VStr s => s | _ => EmptyString end))))
        else Ok v.

(** The body shared by [validate_price] here and by [validate_price] and
    [validate_quantity] of [TradeData]: they differ in the field name and in
    the tag of the messages only. *)
Definition validate_decimal (contract_tag : contract) (field_name : string)
    (Decimal_of_string : string -> option Decimal) (v : value) : res value :=
  d ← match v with
      | VDecimal d => Ok d
      | _ =>
          match Decimal_of_str Decimal_of_string v with
          | Some d => Ok d
          | None => Raise (ValueError (Msg contract_tag (NotADecimalNumber field_name v)))
          end
      end;
  nonpos ← Decimal_le_0 d;
  if (nonpos : bool) then
    Raise (ValueError (Msg contract_tag (MustBePositive field_name (VDecimal d))))
  else
    match as_tuple d with
    | (_, _, ExpInt exponent) =>
        if (exponent <? 0) && (MAX_DECIMAL_PLACES <? Z.abs exponent) then
          Raise (ValueError (Msg contract_tag
            (TooManyDecimalPlaces field_name (Z.abs exponent))))
        else Ok (VDecimal d)
    | (_, _, _) => Raise TypeError
    end.

Definition validate_price := validate_decimal PRICE_VALIDITY "price".

Definition validate_timestamp (now_utc : Z) (v : value) : res value :=
  match v with
  | VDatetime t =>
      match tzinfo t with
      | None => Raise (ValueError (Msg TIMESTAMP_VALIDITY MustBeTimezoneAware))
      | Some _ =>
          let utc_offset := utcoffset t in
          if not_utc utc_offset then
            Raise (ValueError (Msg TIMESTAMP_VALIDITY (MustBeUTC utc_offset)))
          else
            let max_future := now_utc + timedelta_minutes MAX_FUTURE_MINUTES in
            late ← later_than t max_future;
            if (late : bool) then
              Raise (ValueError (Msg TIMESTAMP_VALIDITY (TooFarInFuture t)))
            else if year t <? MIN_VALID_YEAR then
              Raise (ValueError (Msg TIMESTAMP_VALIDITY (BeforeMinYear (year t))))
            else Ok v
      end
  | _ => Raise AttributeError
  end.

Definition validate_volume (v : value) : res value :=
  c ← py_compare v (VInt 0);
  match c with
  | Lt => Raise (ValueError (Msg VOLUME_VALIDITY
            (NegativeVolume (match v with VInt z => z | _ => 0 end))))
  | _ => Ok v
  end.

Definition validate_source (v : value) : res value :=
  b ← is_blank v;
  if (b : bool) then Raise (ValueError (Msg REQUIRED_FIELDS (CannotBeEmpty "source")))
  else Ok v.

(** The fields, in declaration order. *)
Definition fields (Decimal_of_string : string -> option Decimal) (now_utc : Z)
    : list field :=
  [ Field "symbol" no_validator strict_str validate_symbol;
    Field "price" (validate_price Decimal_of_string) strict_Decimal no_validator;
    Field "timestamp" no_validator strict_datetime (validate_timestamp now_utc);
    Field "volume" no_validator strict_int validate_volume;
    Field "source" no_validator strict_str validate_source ].

(** [MarketData(symbol=..., price=..., timestamp=..., volume=..., source=...)] *)
Definition new (Decimal_of_string : string -> option Decimal) (now_utc : Z)
    (raw : gmap string value) : outcome :=
  model_new "MarketData" (fields Decimal_of_string now_utc) raw.

End MarketData.

(** ** [schemas/trade_data.py] *)

Module TradeData.

Definition MAX_DECIMAL_PLACES : Z := 4.
Definition MAX_FUTURE_MINUTES : Z := 5.
Definition MIN_VALID_YEAR : Z := 2000.
Definition VALID_SIDES : list value := [VStr "BUY"; VStr "SELL"].

(** [v in VALID_SIDES] *)
Definition in_VALID_SIDES (v : value) : bool :=
  existsb (λ s, bool_decide (hkey_of v = hkey_of s)) VALID_SIDES.

Definition validate_nonempty (field_name : string) (v : value) : res value :=
  b ← is_blank v;
  if (b : bool) then Raise (ValueError (Msg REQUIRED_FIELDS (CannotBeEmpty field_name)))
  else Ok v.

Definition validate_trade_id := validate_nonempty "trade_id".
Definition validate_client_id := validate_nonempty "client_id".
Definition validate_venue := validate_nonempty "venue".

(** Line for line the validator of [MarketData]. *)
Definition validate_symbol := MarketData.validate_symbol.

Definition validate_side (v : value) : res value :=
  if negb (in_VALID_SIDES v) then Raise (ValueError (Msg TRADE_SPECIFIC (BadSide v)))
  else Ok v.

Definition validate_quantity := MarketData.validate_decimal QUANTITY_VALIDITY "quantity".
Definition validate_price := MarketData.validate_decimal PRICE_VALIDITY "price".

(** Line for line the validator of [MarketData]. *)
Definition validate_timestamp := MarketData.validate_timestamp.

Definition fields (Decimal_of_string : string -> option Decimal) (now_utc : Z)
    : list field :=
  [ Field "trade_id" no_validator strict_str validate_trade_id;
    Field "client_id" no_validator strict_str validate_client_id;
    Field "symbol" no_validator strict_str validate_symbol;
    Field "side" validate_side (strict_Literal ["BUY"; "SELL"]%string) no_validator;
    Field "quantity" (validate_quantity Decimal_of_string) strict_Decimal no_validator;
    Field "price" (validate_price Decimal_of_string) strict_Decimal no_validator;
    Field "timestamp" no_validator strict_datetime (validate_timestamp now_utc);
    Field "venue" no_validator strict_str validate_venue ].

(** [TradeData(trade_id=..., ..., venue=...)] *)
Definition new (Decimal_of_string : string -> option Decimal) (now_utc : Z)
    (raw : gmap string value) : outcome :=
  model_new "TradeData" (fields Decimal_of_string now_utc) raw.

End TradeData.

(** ** [validation/contracts.py] *)

Module ContractValidator.

Definition MAX_DECIMAL_PLACES : Z := 4.
Definition MAX_FUTURE_MINUTES : Z := 5.
Definition MIN_VALID_YEAR : Z := 2000.
Definition VALID_SIDES : list value := [VStr "BUY"; VStr "SELL"].

Definition in_VALID_SIDES (v : value) : bool :=
  existsb (λ s, bool_decide (hkey_of v = hkey_of s)) VALID_SIDES.

(** The loop of [_check_required_fields_market] and
    [_check_required_fields_trade] over their list of field names. *)
Definition check_required (required_fields : list string) (data : pyobj) : list message :=
  foldl (λ errors field,
           if is_None (getattr_or_None data field)
           then errors ++ [Msg REQUIRED_FIELDS (MissingRequiredField field)]
           else errors)
        [] required_fields.

Definition _check_required_fields_market (data : pyobj) : list message :=
  check_required ["symbol"; "price"; "timestamp"; "volume"; "source"]%string data.

Definition _check_required_fields_trade (data : pyobj) : list message :=
  check_required
    ["trade_id"; "client_id"; "symbol"; "side"; "quantity"; "price"; "timestamp";
     "venue"]%string data.

Definition _check_price_validity (v : value) (field_name : string)
    : res (list message) :=
  match v with
  | VDecimal d =>
      nonpos ← Decimal_le_0 d;
      let errors :=
        if (nonpos : bool) then [Msg PRICE_VALIDITY (MustBePositive field_name v)]
        else [] in
      match as_tuple d with
      | (_, _, ExpInt exponent) =>
          if exponent <? 0 then
            let decimal_places := Z.abs exponent in
            if MAX_DECIMAL_PLACES <? decimal_places then
              Ok (errors
                  ++ [Msg PRICE_VALIDITY (TooManyDecimalPlaces field_name decimal_places)])
            else Ok errors
          else Ok errors
      | (_, _, _) => Ok errors
      end
  | _ => Ok [Msg PRICE_VALIDITY (MustBeDecimalType field_name (type_of v))]
  end.

Definition _check_timestamp_validity (now_utc : Z) (ts : value) : res (list message) :=
  match ts with
  | VDatetime t =>
      match tzinfo t with
      | None => Ok [Msg TIMESTAMP_VALIDITY MustBeTimezoneAware]
      | Some _ =>
          let utc_offset := utcoffset t in
          let errors :=
            if not_utc utc_offset then [Msg TIMESTAMP_VALIDITY (MustBeUTC utc_offset)]
            else [] in
          let max_future := now_utc + timedelta_minutes MAX_FUTURE_MINUTES in
          late ← later_than t max_future;
          let errors :=
            if (late : bool) then errors ++ [Msg TIMESTAMP_VALIDITY (TooFarInFuture t)]
            else errors in
          let errors :=
            if year t <? MIN_VALID_YEAR
            then errors ++ [Msg TIMESTAMP_VALIDITY (BeforeMinYear (year t))]
            else errors in
          Ok errors
      end
  | _ => Raise AttributeError
  end.

Definition _check_symbol_format (symbol : value) : res (list message) :=
  if negb (truthy symbol) then Ok [Msg SYMBOL_FORMAT (CannotBeEmpty "symbol")]
  else
    bad ← bad_length symbol;
    n ← py_len symbol;
    let errors := if (bad : bool) then [Msg SYMBOL_FORMAT (SymbolLength n)] else [] in
    ne ← differs_from_upper symbol;
    let got := match symbol with VStr s => s | _ => EmptyString end in
    let errors :=
      if (ne : bool) then errors ++ [Msg SYMBOL_FORMAT (SymbolNotUppercase got)]
      else errors in
    m ← py_match symbol;
    let errors :=
      if negb m then errors ++ [Msg SYMBOL_FORMAT (SymbolBadCharacters got)]
      else errors in
    Ok errors.

Definition _check_trade_specific_rules (data : pyobj) : res (list message) :=
  side ← getattr data "side";
  let errors :=
    if negb (in_VALID_SIDES side) then [Msg TRADE_SPECIFIC (BadSide side)] else [] in
  quantity ← getattr data "quantity";
  nonpos ← py_le quantity (VInt 0);
  let errors :=
    if (nonpos : bool)
    then errors ++ [Msg TRADE_SPECIFIC (MustBePositive "quantity" quantity)]
    else errors in
  trade_id ← getattr data "trade_id";
  blank_id ← is_blank trade_id;
  let errors :=
    if (blank_id : bool) then errors ++ [Msg TRADE_SPECIFIC (CannotBeEmpty "trade_id")]
    else errors in
  venue ← getattr data "venue";
  blank_venue ← is_blank venue;
  let errors :=
    if (blank_venue : bool) then errors ++ [Msg TRADE_SPECIFIC (CannotBeEmpty "venue")]
    else errors in
  Ok errors.

(** The attribute reads of the [logger.warning] call of a failed
    validation: they raise like any other read. *)
Fixpoint log_fields (data : pyobj) (names : list string) : res unit :=
  match names with
  | [] => Ok ()
  | n :: rest => _ ← getattr data n; log_fields data rest
  end.

Definition validate_market_data (now_utc : Z) (data : pyobj) : res (bool * list message) :=
  let errors := _check_required_fields_market data in
  price ← getattr data "price";
  price_errors ← _check_price_validity price "price";
  let errors := errors ++ price_errors in
  timestamp ← getattr data "timestamp";
  ts_errors ← _check_timestamp_validity now_utc timestamp;
  let errors := errors ++ ts_errors in
  symbol ← getattr data "symbol";
  sym_errors ← _check_symbol_format symbol;
  let errors := errors ++ sym_errors in
  let is_valid := (length errors =? 0)%nat in
  _ ← (if is_valid then Ok () else log_fields data ["symbol"; "source"]%string);
  Ok (is_valid, errors).

Definition validate_trade_data (now_utc : Z) (data : pyobj) : res (bool * list message) :=
  let errors := _check_required_fields_trade data in
  price ← getattr data "price";
  price_errors ← _check_price_validity price "price";
  let errors := errors ++ price_errors in
  quantity ← getattr data "quantity";
  quantity_errors ← _check_price_validity quantity "quantity";
  let errors := errors ++ quantity_errors in
  timestamp ← getattr data "timestamp";
  ts_errors ← _check_timestamp_validity now_utc timestamp;
  let errors := errors ++ ts_errors in
  symbol ← getattr data "symbol";
  sym_errors ← _check_symbol_format symbol;
  let errors := errors ++ sym_errors in
  trade_errors ← _check_trade_specific_rules data;
  let errors := errors ++ trade_errors in
  let is_valid := (length errors =? 0)%nat in
  _ ← (if is_valid then Ok ()
       else log_fields data ["trade_id"; "client_id"; "symbol"]%string);
  Ok (is_valid, errors).

End ContractValidator.

(** ** [validation/invariants.py] *)

Module Invariants.

(** [enumerate(l)] *)
Definition enumerate {A} (l : list A) : list (nat * A) := zip (seq 0 (length l)) l.

(** [item1 != item2] *)
Definition py_ne (item1 item2 : pyobj) : bool :=
  negb (bool_decide (obj_key item1 = obj_key item2)).

(** The indices the comparison loop of [check_idempotency] collects. *)
Definition idempotency_differences (batch1 batch2 : list pyobj) : list nat :=
  foldl (λ differences '(i, (item1, item2)),
           if py_ne item1 item2 then differences ++ [i] else differences)
        [] (enumerate (zip batch1 batch2)).

Definition check_idempotency (batch1 batch2 : list pyobj) : bool :=
  if negb (length batch1 =? length batch2)%nat then false
  else
    match idempotency_differences batch1 batch2 with
    | _ :: _ => false
    | [] => true
    end.

(** The entries of the [violations] list of [check_monotonic_timestamps]. *)
Inductive ordering_violation :=
| MissingTimestamp (index : nat) (current_has_ts next_has_ts : bool)
| TimestampDecreased (index : nat) (current_timestamp next_timestamp : value).

Definition violation_index (v : ordering_violation) : nat :=
  match v with
  | MissingTimestamp i _ _ => i
  | TimestampDecreased i _ _ => i
  end.

(** [batch[i]] *)
Definition item {A} (batch : list A) (i : nat) : res A :=
  match batch !! i with
  | Some x => Ok x
  | None => Raise IndexError
  end.

(** The loop [for i in range(len(batch) - 1)] over the remaining indices. *)
Fixpoint monotonic_loop (batch : list pyobj) (indices : list nat)
    (violations : list ordering_violation) : res (list ordering_violation) :=
  match indices with
  | [] => Ok violations
  | i :: rest =>
      current ← item batch i;
      next_item ← item batch (i + 1);
      let current_ts := getattr_or_None current "timestamp" in
      let next_ts := getattr_or_None next_item "timestamp" in
      if is_None current_ts || is_None next_ts then
        monotonic_loop batch rest
          (violations ++
             [MissingTimestamp i (negb (is_None current_ts)) (negb (is_None next_ts))])
      else
        decreased ← py_gt current_ts next_ts;
        if (decreased : bool) then
          monotonic_loop batch rest
            (violations ++ [TimestampDecreased i current_ts next_ts])
        else monotonic_loop batch rest violations
  end.

Definition monotonic_violations (batch : list pyobj) : res (list ordering_violation) :=
  monotonic_loop batch (seq 0 (length batch - 1)) [].

Definition check_monotonic_timestamps (batch : list pyobj) : res bool :=
  if (length batch <=? 1)%nat then Ok true
  else
    violations ← monotonic_violations batch;
    match violations with
    | _ :: _ => Ok false
    | [] => Ok true
    end.

(** The entries of the [duplicates] list of [check_uniqueness]. *)
Record duplicate := Duplicate {
  dup_key : string;
  dup_key_value : value;
  dup_scope_key : option string;
  dup_scope_value : option value;
  dup_indices : list nat
}.

Definition global_scope : value := VStr "__global__".

(** [if scope_key:] holds for a name that is given and not empty. *)
Definition scope_of (scope_key : option string) (record : pyobj) : value :=
  match scope_key with
  | Some name =>
      if truthy (VStr name) then getattr_or_None record name else global_scope
  | None => global_scope
  end.

(** One iteration of the loop of [check_uniqueness].  [seen] is the
    [defaultdict] of [defaultdict]s: scope, then key value, then indices. *)
Definition uniqueness_step (key : string) (scope_key : option string)
    (state : gmap hkey (gmap hkey (list nat)) * list duplicate)
    (entry : nat * pyobj) : gmap hkey (gmap hkey (list nat)) * list duplicate :=
  let '(seen, duplicates) := state in
  let '(i, record) := entry in
  let key_value := getattr_or_None record key in
  if is_None key_value then state
  else
    let scope_value := scope_of scope_key record in
    let in_scope := default ∅ (seen !! hkey_of scope_value) in
    let duplicates :=
      match in_scope !! hkey_of key_value with
      | Some indices =>
          duplicates ++
            [Duplicate key key_value scope_key
               (if bool_decide (hkey_of scope_value = hkey_of global_scope)
                then None else Some scope_value)
               (indices ++ [i])]
      | None => duplicates
      end in
    let indices := default [] (in_scope !! hkey_of key_value) in
    (<[hkey_of scope_value := <[hkey_of key_value := indices ++ [i]]> in_scope]> seen,
     duplicates).

Definition uniqueness_loop (key : string) (scope_key : option string)
    (records : list pyobj) : gmap hkey (gmap hkey (list nat)) * list duplicate :=
  foldl (uniqueness_step key scope_key) (∅, []) (enumerate records).

Definition check_uniqueness (records : list pyobj) (key : string)
    (scope_key : option string) : bool :=
  match records with
  | [] => true
  | _ =>
      match snd (uniqueness_loop key scope_key records) with
      | _ :: _ => false
      | [] => true
      end
  end.

(** [symbol in known_symbols] for a set of strings. *)
Definition in_symbols (symbol : value) (known_symbols : gset string) : bool :=
  match hkey_of symbol with
  | KStr s => bool_decide (s ∈ known_symbols)
  | _ => false
  end.

(** The [unknown_symbols] dictionary the loop of
    [check_referential_integrity] builds. *)
Definition unknown_symbols (trades : list pyobj) (known_symbols : gset string)
    : gmap hkey (list nat) :=
  foldl (λ unknown '(i, trade),
           let symbol := getattr_or_None trade "symbol" in
           if is_None symbol then unknown
           else if negb (in_symbols symbol known_symbols) then
             <[hkey_of symbol := default [] (unknown !! hkey_of symbol) ++ [i]]> unknown
           else unknown)
        ∅ (enumerate trades).

Definition check_referential_integrity (trades : list pyobj)
    (known_symbols : gset string) (strict : bool) : bool :=
  match trades with
  | [] => true
  | _ =>
      if negb (bool_decide (unknown_symbols trades known_symbols = ∅)) then
        if strict then false else true
      else true
  end.

(** [check_completeness] is the one invariant that looks at the entries
    themselves: here a batch may hold [None] in place of a record. *)
Definition null_indices (batch : list (option pyobj)) : list nat :=
  foldl (λ null_indices '(i, item),
           match item with
           | None => null_indices ++ [i]
           | Some _ => null_indices
           end)
        [] (enumerate batch).

Definition check_completeness (batch : list (option pyobj)) : bool :=
  match batch with
  | [] => false
  | _ =>
      match null_indices batch with
      | _ :: _ => false
      | [] => true
      end
  end.

End Invariants.

(** ** [config.py] *)

Module Config.

(** What [load_config] ends in: the configuration dictionary, [sys.exit(1)]
    after printing the missing variables, or the [ValueError] of [int]. *)
Inductive load_result :=
| Loaded (config : gmap string value)
| Exit (code : Z) (missing_vars : list string)
| IntValueError.

Definition required_vars : list string :=
  ["DB_HOST"; "DB_PORT"; "DB_NAME"; "DB_USER"; "DB_PASS"]%string.

(** [os.getenv(var)] *)
Definition getenv (environ : gmap string string) (var : string) : value :=
  match environ !! var with
  | Some s => VStr s
  | None => VNone
  end.

(** [os.getenv(var, default)] *)
Definition getenv_default (environ : gmap string string) (var fallback : string)
    : string :=
  default fallback (environ !! var).

(** [load_config()], on the environment as [load_dotenv()] leaves it and
    with the builtin [int] on strings as [int_of_string] ([None] for
    [ValueError]). *)
Definition load_config (int_of_string : string -> option Z)
    (environ : gmap string string) : load_result :=
  let missing_vars :=
    filter (λ var, truthy (getenv environ var) = false) required_vars in
  match missing_vars with
  | _ :: _ => Exit 1 missing_vars
  | [] =>
      match int_of_string (getenv_default environ "DB_PORT" "5432") with
      | None => IntValueError
      | Some port =>
          Loaded
            (<["db_host" := getenv environ "DB_HOST"]>
            (<["db_port" := VInt port]>
            (<["db_name" := getenv environ "DB_NAME"]>
            (<["db_user" := getenv environ "DB_USER"]>
            (<["db_pass" := getenv environ "DB_PASS"]>
            (<["log_level" := VStr (getenv_default environ "LOG_LEVEL" "INFO")]>
            (<["app_env" := VStr (getenv_default environ "APP_ENV" "development")]>
               ∅)))))))
      end
  end.

End Config.

Import Invariants.

(** ** Vocabulary of the properties *)

(** Deep value equality of two records: what [==] decides. *)
Definition py_equal (x y : pyobj) : Prop := obj_key x = obj_key y.

(** The value of the attribute [name], when it is set and not [None]. *)
Definition present (record : pyobj) (name : string) : Prop :=
  getattr_or_None record name ≠ VNone.

(** A trade refers to an unknown symbol: it has a symbol and the symbol is
    not a member of the set. *)
Definition unknown_symbol (known_symbols : gset string) (trade : pyobj) : Prop :=
  present trade "symbol" ∧
  ∀ s, getattr_or_None trade "symbol" = VStr s → s ∉ known_symbols.

(** The pairs (scope, key value) of the records that have the key field,
    in batch order: the universe [check_uniqueness] ranges over. *)
Definition scoped_keys (key : string) (scope_key : option string)
    (records : list pyobj) : list (hkey * hkey) :=
  (λ r, (hkey_of (scope_of scope_key r), hkey_of (getattr_or_None r key)))
    <$> filter (λ r, present r key) records.

(** The pairs the [seen] dictionary of [check_uniqueness] holds. *)
Definition seen_pair (seen : gmap hkey (gmap hkey (list nat))) (p : hkey * hkey) : Prop :=
  ∃ in_scope, seen !! p.1 = Some in_scope ∧ is_Some (in_scope !! p.2).

Definition timestamp_of (record : pyobj) : value :=
  getattr_or_None record "timestamp".

(** The adjacent pair [(i, i+1)] of a batch is in order: both records have
    a timestamp and the first is [<=] the second. *)
Definition in_order (batch : list pyobj) (i : nat) : Prop :=
  ∃ current next_item,
    batch !! i = Some current ∧ batch !! (i + 1)%nat = Some next_item
    ∧ present current "timestamp" ∧ present next_item "timestamp"
    ∧ py_le (timestamp_of current) (timestamp_of next_item) = Ok true.

(** The timestamps of adjacent records can be ordered against each other
    (as those of aware datetimes can): [>] does not raise on them. *)
Definition comparable (batch : list pyobj) : Prop :=
  ∀ i current next_item,
    batch !! i = Some current → batch !! (i + 1)%nat = Some next_item →
    present current "timestamp" → present next_item "timestamp" →
    is_Ok (py_compare (timestamp_of current) (timestamp_of next_item)) = true.

(** The error entry one field contributes to a [ValidationError]. *)
Definition field_errors (raw : gmap string value) (fld : field) : list error_detail :=
  match validate_field fld raw with
  | FError e => [ErrorDetail (name fld) e]
  | _ => []
  end.

(** The attribute dictionary built from validated fields. *)
Definition store (values : gmap string value) (validated : list (field * value))
    : gmap string value :=
  foldl (λ m fv, <[name fv.1 := fv.2]> m) values validated.

(** The sub-checks of the symbol format. *)
Inductive symbol_rule :=
| RuleNonEmpty
| RuleLength
| RuleUppercase
| RuleCharacters.

#[export] Instance symbol_rule_eq_dec : EqDecision symbol_rule.
Proof. solve_decision. Defined.

(** A symbol breaks a rule. *)
Definition violates (rule : symbol_rule) (s : string) : bool :=
  match rule with
  | RuleNonEmpty => bool_decide (s = EmptyString)
  | RuleLength => (str_len s <? 1)%nat || (10 <? str_len s)%nat
  | RuleUppercase => negb (bool_decide (s = upper s))
  | RuleCharacters => negb (SYMBOL_PATTERN_match s)
  end.

(** The rule a symbol message is about. *)
Definition rule_of (e : field_error) : option symbol_rule :=
  match e with
  | ValueErr (Msg SYMBOL_FORMAT (CannotBeEmpty _)) => Some RuleNonEmpty
  | ValueErr (Msg SYMBOL_FORMAT (SymbolLength _)) => Some RuleLength
  | ValueErr (Msg SYMBOL_FORMAT (SymbolNotUppercase _)) => Some RuleUppercase
  | ValueErr (Msg SYMBOL_FORMAT (SymbolBadCharacters _)) => Some RuleCharacters
  | _ => None
  end.

(** The symbol rules a [ValidationError] reports. *)
Definition reported_rules (errors : list error_detail) : list symbol_rule :=
  omap rule_of (errors_at "symbol" errors).

(** Construction rejects the record and names every rule the symbol breaks. *)
Definition reports_every_failing_rule (result : outcome) (s : string) : Prop :=
  ∃ errors, result = ValidationError errors
            ∧ ∀ rule, violates rule s = true → rule ∈ reported_rules errors.

(** The first rule a symbol breaks, in the order the validator tests them. *)
Definition first_violated (s : string) : option symbol_rule :=
  if violates RuleNonEmpty s then Some RuleNonEmpty
  else if violates RuleUppercase s then Some RuleUppercase
  else if violates RuleLength s then Some RuleLength
  else if violates RuleCharacters s then Some RuleCharacters
  else None.

(** The digits after the decimal point of a [Decimal] as it is written. *)
Definition fractional_digits (d : Decimal) : Z :=
  match d with
  | Finite _ _ e => Z.max 0 (- e)
  | Infinity _ => 0
  | NaN _ _ _ => 0
  end.

(** Some message of the list carries the contract tag. *)
Definition has_tag (c : contract) (errors : list message) : Prop :=
  ∃ m, m ∈ errors ∧ tag m = c.

(** A timestamp the validator can compare with the clock: a naive
    datetime (reported before any comparison) or one whose tzinfo gives an
    offset. *)
Definition comparable_datetime (t : datetime) : Prop :=
  tzinfo t = None ∨ is_Some (utcoffset t).

(** Records whose fields are set and hold values of the declared types,
    whether or not they satisfy the contracts. *)
Definition well_typed_market (data : pyobj) : Prop :=
  (∃ s, ob_dict data !! "symbol"%string = Some (VStr s))
  ∧ (∃ d, ob_dict data !! "price"%string = Some (VDecimal d))
  ∧ (∃ t, ob_dict data !! "timestamp"%string = Some (VDatetime t) ∧ comparable_datetime t)
  ∧ (∃ z, ob_dict data !! "volume"%string = Some (VInt z))
  ∧ (∃ s, ob_dict data !! "source"%string = Some (VStr s)).

Definition well_typed_trade (data : pyobj) : Prop :=
  (∃ s, ob_dict data !! "trade_id"%string = Some (VStr s))
  ∧ (∃ s, ob_dict data !! "client_id"%string = Some (VStr s))
  ∧ (∃ s, ob_dict data !! "symbol"%string = Some (VStr s))
  ∧ (∃ s, ob_dict data !! "side"%string = Some (VStr s))
  ∧ (∃ d, ob_dict data !! "quantity"%string = Some (VDecimal d))
  ∧ (∃ d, ob_dict data !! "price"%string = Some (VDecimal d))
  ∧ (∃ t, ob_dict data !! "timestamp"%string = Some (VDatetime t) ∧ comparable_datetime t)
  ∧ (∃ s, ob_dict data !! "venue"%string = Some (VStr s)).

(** The attribute [name] of the record holds a NaN. *)
Definition nan_at (data : pyobj) (name : string) : bool :=
  is_nan (getattr_or_None data name).

(** ** Sample data *)

Module Sample.

Definition utc (y m d hh mm ss : Z) : datetime :=
  mkdatetime y m d hh mm ss 0 (Some (timezone 0)).

Definition naive (y m d hh mm ss : Z) : datetime :=
  mkdatetime y m d hh mm ss 0 None.

(** The clock reads 2025-01-15 14:31:00 UTC. *)
Definition now : Z := wall_us (utc 2025 1 15 14 31 0).

Definition t0 : datetime := utc 2025 1 15 14 30 0.

(** A [decimal] parser that accepts nothing: the samples pass [Decimal]s. *)
Definition no_parse : string -> option Decimal := λ _, None.

(** [Decimal("175.4300")] and [Decimal("100.0000")] *)
Definition d175_43 : Decimal := Finite false 1754300 (-4).
Definition d100 : Decimal := Finite false 1000000 (-4).

Definition market_raw : gmap string value :=
  <["symbol" := VStr "AAPL"]> (<["price" := VDecimal d175_43]>
  (<["timestamp" := VDatetime t0]> (<["volume" := VInt 2500000]>
  (<["source" := VStr "iex_cloud"]> ∅)))).

Definition trade_raw : gmap string value :=
  <["trade_id" := VStr "TRD-001"]> (<["client_id" := VStr "C1"]>
  (<["symbol" := VStr "AAPL"]> (<["side" := VStr "BUY"]>
  (<["quantity" := VDecimal d100]> (<["price" := VDecimal d175_43]>
  (<["timestamp" := VDatetime t0]> (<["venue" := VStr "NASDAQ"]> ∅))))))).

Definition market (t : datetime) : pyobj :=
  Obj "MarketData" (<["timestamp" := VDatetime t]> market_raw).

(** Eleven lower-case letters: too long, not upper case, not in the
    character class. *)
Definition long_lower : string := "aaaaaaaaaaa".

(** [Decimal("1.00000")]: five fractional digits; [Decimal("-5")]. *)
Definition d1_five_places : Decimal := Finite false 100000 (-5).
Definition d_minus_5 : Decimal := Finite true 5 0.

(** Records assembled without construction-time checks. *)
Definition null_timestamp_market : pyobj :=
  Obj "MarketData" (<["timestamp" := VNone]> market_raw).

Definition null_timestamp_trade : pyobj :=
  Obj "TradeData" (<["timestamp" := VNone]> trade_raw).

Definition null_quantity_trade : pyobj :=
  Obj "TradeData" (<["quantity" := VNone]> trade_raw).

Definition negative_quantity_trade : pyobj :=
  Obj "TradeData" (<["quantity" := VDecimal d_minus_5]> trade_raw).


(** [Decimal("NaN")], and a trade of quantity -5 at that price. *)
Definition nan : Decimal := NaN false 0 0.


(** Timestamps [t0], [t0 + 10s], [t0 + 5s]. *)
Definition out_of_order : list pyobj :=
  [market t0; market (utc 2025 1 15 14 30 10); market (utc 2025 1 15 14 30 5)].

(** A trade in a symbol nobody quotes. *)
Definition zzzz_trade : pyobj :=
  Obj "TradeData" (<["symbol" := VStr "ZZZZ"]> trade_raw).

(** A record with no [trade_id]. *)
Definition anonymous : pyobj := Obj "TradeData" (<["client_id" := VStr "C1"]> ∅).

(** A trade as the uniqueness check sees it, and one that was assembled
    without its [client_id]. *)
Definition trade (trade_id client_id : string) : pyobj :=
  Obj "TradeData" (<["trade_id" := VStr trade_id]> (<["client_id" := VStr client_id]> ∅)).

Definition orphan_trade (trade_id : string) : pyobj :=
  Obj "TradeData" (<["trade_id" := VStr trade_id]> ∅).

End Sample.

(** ** Vocabulary of the further properties *)

#[export] Instance py_equal_dec : RelDecision py_equal.
Proof. intros x y. unfold py_equal. apply _. Defined.

(** The instant of a record's timestamp, when it is an aware datetime. *)
Definition instant_of (record : pyobj) : option Z :=
  match timestamp_of record with
  | VDatetime t => utc_us t <$> utcoffset t
  | _ => None
  end.

(** If the timestamps of the two records are attached to one tzinfo object,
    they have the same offset. *)
Definition one_offset_per_zone (current next_item : pyobj) : Prop :=
  ∀ t u, timestamp_of current = VDatetime t → timestamp_of next_item = VDatetime u →
         same_tzobject t u = true → utcoffset t = utcoffset u.

(** Two records, taken as neighbours, are in order. *)
Definition ordered_pair (current next_item : pyobj) : Prop :=
  present current "timestamp" ∧ present next_item "timestamp"
  ∧ py_le (timestamp_of current) (timestamp_of next_item) = Ok true.

(** The symbol rules a list of validator messages reports. *)
Definition validator_rules (errors : list message) : list symbol_rule :=
  omap (λ m, rule_of (ValueErr m)) errors.

(** A ticker: one to ten characters of [A-Z], [0-9] and the period. *)
Definition ticker (l : list ascii) : Prop := class_1_10 l = true.

(** Every character of the string is white space (true of the empty string). *)
Definition all_space (s : string) : bool := forallb isspace (chars s).

(** The contracts a value of each field satisfies once construction has
    accepted it. *)
Definition valid_symbol (s : string) : Prop := first_violated s = None.

Definition valid_decimal (d : Decimal) : Prop :=
  (∃ sg c e, d = Finite sg c e) ∧ Decimal_le_0 d = Ok false ∧ fractional_digits d ≤ 4.

Definition valid_timestamp (now_utc : Z) (t : datetime) : Prop :=
  utcoffset t = Some 0
  ∧ utc_us t 0 ≤ now_utc + timedelta_minutes 5
  ∧ 2000 ≤ year t.

Definition valid_text (s : string) : Prop := all_space s = false.

(** Every message of the list carries the contract tag. *)
Definition all_tagged (c : contract) (errors : list message) : Prop :=
  Forall (λ m, tag m = c) errors.

(** A value on which [not v or not v.strip()], [len(v)] after [not v], and
    the like do not raise: a falsy value or a string. *)
Definition falsy_or_str (v : value) : Prop :=
  truthy v = false ∨ ∃ s, v = VStr s.

(** The records on which [validate_market_data] returns. *)
Definition answerable_market (data : pyobj) : Prop :=
  (∃ v, ob_dict data !! "price"%string = Some v ∧ is_nan v = false)
  ∧ (∃ t, ob_dict data !! "timestamp"%string = Some (VDatetime t) ∧ comparable_datetime t)
  ∧ (∃ v, ob_dict data !! "symbol"%string = Some v ∧ falsy_or_str v)
  ∧ is_Some (ob_dict data !! "source"%string).

(** The records on which [validate_trade_data] returns. *)
Definition answerable_trade (data : pyobj) : Prop :=
  (∃ v, ob_dict data !! "price"%string = Some v ∧ is_nan v = false)
  ∧ (∃ v, ob_dict data !! "quantity"%string = Some v ∧ is_Some (as_number v))
  ∧ (∃ t, ob_dict data !! "timestamp"%string = Some (VDatetime t) ∧ comparable_datetime t)
  ∧ (∃ v, ob_dict data !! "symbol"%string = Some v ∧ falsy_or_str v)
  ∧ is_Some (ob_dict data !! "side"%string)
  ∧ (∃ v, ob_dict data !! "trade_id"%string = Some v ∧ falsy_or_str v)
  ∧ (∃ v, ob_dict data !! "venue"%string = Some v ∧ falsy_or_str v)
  ∧ is_Some (ob_dict data !! "client_id"%string).

(** The [Decimal] a raw price or quantity stands for before it is checked:
    itself, or [Decimal(str(v))]. *)
Definition as_Decimal (Decimal_of_string : string -> option Decimal) (v : value)
    : option Decimal :=
  match v with
  | VDecimal d => Some d
  | _ => Decimal_of_str Decimal_of_string v
  end.

(** [not os.getenv(var)]: the variable is unset or empty. *)
Definition unset_or_empty (environ : gmap string string) (var : string) : Prop :=
  environ !! var = None ∨ environ !! var = Some EmptyString.

#[export] Instance unset_or_empty_dec environ var : Decision (unset_or_empty environ var).
Proof. unfold unset_or_empty. apply _. Defined.

(** Whether the validation of one field ends in a field error. *)
#[export] Instance field_fails_dec raw f : Decision (∃ e, validate_field f raw = FError e).
Proof.
  destruct (validate_field f raw) as [v|e|x].
  - right. by intros [? [=]].
  - left. by eexists.
  - right. by intros [? [=]].
Defined.

(** ** Proof automation *)

(** Split a [Forall2] over an explicit list of fields into one fact per
    field. *)
Ltac invert_fields H :=
  repeat match type of H with
  | Forall2 _ (_ :: _) _ =>
      let v := fresh "v" in let vs := fresh "vs" in let Hv := fresh "Hv" in
      apply Forall2_cons_inv_l in H as (v & vs & Hv & H & ->)
  | Forall2 _ [] _ => apply Forall2_nil_inv_l in H as ->
  end.

(** * Properties *)

(** ** Idempotency *)

Lemma py_ne_false x y : py_ne x y = false ↔ py_equal x y.
Proof.
  unfold py_ne, py_equal. rewrite negb_false_iff. apply bool_decide_eq_true.
Qed.

Lemma py_equal_refl x : py_equal x x.
Proof. reflexivity. Qed.

Lemma differences_step (l : list (nat * (pyobj * pyobj))) (acc : list nat) :
  foldl (λ differences '(i, (item1, item2)),
           if py_ne item1 item2 then differences ++ [i] else differences) acc l = []
  ↔ acc = [] ∧ Forall (λ p, py_equal p.2.1 p.2.2) l.
Proof.
  revert acc. induction l as [|[i [a b]] l IH]; intros acc; simpl.
  - split; [intros ->; by split | by intros [-> _]].
  - rewrite IH, Forall_cons. simpl. destruct (py_ne a b) eqn:E.
    + split.
      * intros [H _]. by destruct acc.
      * intros [_ [H _]]. apply py_ne_false in H. congruence.
    + apply py_ne_false in E. tauto.
Qed.

Lemma Forall_enumerate {A} (P : A → Prop) (l : list A) (n : nat) :
  Forall (λ p, P p.2) (zip (seq n (length l)) l) ↔ Forall P l.
Proof.
  revert n. induction l as [|x l IH]; intros n; simpl.
  - split; constructor.
  - rewrite !Forall_cons, IH. reflexivity.
Qed.

Lemma Forall_zip_Forall2 {A B} (P : A → B → Prop) (l : list A) (k : list B) :
  length l = length k →
  Forall (λ p, P p.1 p.2) (zip l k) ↔ Forall2 P l k.
Proof.
  revert k. induction l as [|x l IH]; intros [|y k] Hlen; simpl in *; try discriminate.
  - split; constructor.
  - rewrite Forall_cons, Forall2_cons, IH by lia. reflexivity.
Qed.

Lemma idempotency_differences_nil batch1 batch2 :
  length batch1 = length batch2 →
  idempotency_differences batch1 batch2 = [] ↔ Forall2 py_equal batch1 batch2.
Proof.
  intros Hlen. unfold idempotency_differences, enumerate.
  rewrite differences_step.
  rewrite (Forall_enumerate (λ q, py_equal q.1 q.2)).
  rewrite Forall_zip_Forall2 by done. tauto.
Qed.

(** C7.  [check_idempotency] is true exactly when the batches have the same
    length and are equal element by element; it is true of a batch against
    itself and false of a one-element batch against the empty one. *)
Theorem check_idempotency_spec :
  (∀ batch1 batch2,
     check_idempotency batch1 batch2 = true
     ↔ length batch1 = length batch2
       ∧ ∀ i x y, batch1 !! i = Some x → batch2 !! i = Some y → py_equal x y)
  ∧ (∀ batch, check_idempotency batch batch = true)
  ∧ (∀ x, check_idempotency [x] [] = false).
Proof.
  assert (Hiff : ∀ batch1 batch2,
     check_idempotency batch1 batch2 = true ↔ Forall2 py_equal batch1 batch2).
  { intros batch1 batch2. unfold check_idempotency.
    destruct (length batch1 =? length batch2)%nat eqn:Hlen; simpl.
    - apply Nat.eqb_eq in Hlen.
      rewrite <- (idempotency_differences_nil _ _ Hlen).
      destruct (idempotency_differences batch1 batch2); split; congruence.
    - apply Nat.eqb_neq in Hlen. split; [discriminate|].
      intros H. apply Forall2_length in H. contradiction. }
  split; [|split].
  - intros batch1 batch2. rewrite Hiff. apply Forall2_same_length_lookup.
  - intros batch. apply Hiff. apply Forall2_same_length_lookup.
    split; [done|]. intros i x y Hx Hy. rewrite Hx in Hy.
    injection Hy as <-. apply py_equal_refl.
  - intros x. reflexivity.
Qed.

(** ** Referential integrity *)

Lemma num_key_not_str sg c e s : num_key sg c e ≠ KStr s.
Proof.
  unfold num_key. destruct (c =? 0)%N; [done|].
  by destruct (strip_zeros _ c e).
Qed.

Lemma hkey_of_KStr v s : hkey_of v = KStr s ↔ v = VStr s.
Proof.
  split; [|by intros ->].
  destruct v as [| b | z | s' | [sg c e | sg | sg pl i] | t]; simpl; try done.
  - intros H. by apply num_key_not_str in H.
  - intros H. by apply num_key_not_str in H.
  - by intros [= ->].
  - intros H. by apply num_key_not_str in H.
  - by destruct (utcoffset t).
Qed.

Lemma in_symbols_false known_symbols trade :
  present trade "symbol" →
  in_symbols (getattr_or_None trade "symbol") known_symbols = false
  ↔ unknown_symbol known_symbols trade.
Proof.
  intros Hp. unfold unknown_symbol, in_symbols.
  destruct (hkey_of (getattr_or_None trade "symbol")) as [| s | | | | |] eqn:E.
  2: { apply hkey_of_KStr in E. rewrite E, bool_decide_eq_false. split.
       - intros Hs. split; [done|]. by intros s' [= <-].
       - intros [_ Hs]. by apply Hs. }
  all: split; [intros _; split; [done|] | done].
  all: intros s Hs; apply hkey_of_KStr in Hs; congruence.
Qed.

Lemma is_None_false v : is_None v = false ↔ v ≠ VNone.
Proof. destruct v; simpl; split; congruence. Qed.

Lemma unknown_symbols_step known_symbols (l : list (nat * pyobj))
    (acc : gmap hkey (list nat)) :
  foldl (λ unknown '(i, trade),
           let symbol := getattr_or_None trade "symbol" in
           if is_None symbol then unknown
           else if negb (in_symbols symbol known_symbols) then
             <[hkey_of symbol := default [] (unknown !! hkey_of symbol) ++ [i]]> unknown
           else unknown) acc l ≠ ∅
  ↔ acc ≠ ∅ ∨ Exists (λ p, unknown_symbol known_symbols p.2) l.
Proof.
  revert acc. induction l as [|[i trade] l IH]; intros acc; simpl.
  - rewrite Exists_nil. tauto.
  - rewrite IH, Exists_cons. simpl.
    destruct (is_None (getattr_or_None trade "symbol")) eqn:En.
    + assert (¬ unknown_symbol known_symbols trade).
      { intros [Hp _]. apply is_None_false in Hp. congruence. }
      tauto.
    + apply is_None_false in En.
      destruct (in_symbols _ known_symbols) eqn:Ei; simpl.
      * assert (¬ unknown_symbol known_symbols trade).
        { intros Hu. apply in_symbols_false in Hu; [congruence | done]. }
        tauto.
      * apply in_symbols_false in Ei; [|done].
        pose proof (insert_non_empty acc
          (hkey_of (getattr_or_None trade "symbol"))
          (default [] (acc !! hkey_of (getattr_or_None trade "symbol")) ++ [i])).
        tauto.
Qed.

Lemma Exists_enumerate {A} (P : A → Prop) (l : list A) (n : nat) :
  Exists (λ p, P p.2) (zip (seq n (length l)) l) ↔ Exists P l.
Proof.
  revert n. induction l as [|x l IH]; intros n; simpl.
  - by rewrite !Exists_nil.
  - rewrite !Exists_cons, IH. reflexivity.
Qed.

Lemma unknown_symbols_nonempty trades known_symbols :
  unknown_symbols trades known_symbols ≠ ∅
  ↔ Exists (unknown_symbol known_symbols) trades.
Proof.
  unfold unknown_symbols, enumerate. rewrite unknown_symbols_step.
  rewrite (Exists_enumerate (unknown_symbol known_symbols)). tauto.
Qed.

Lemma Exists_lookup {A} (P : A → Prop) (l : list A) :
  Exists P l ↔ ∃ i x, l !! i = Some x ∧ P x.
Proof.
  rewrite Exists_exists. split.
  - intros (x & Hin & Hx). apply list_elem_of_lookup_1 in Hin as [i Hi]. eauto.
  - intros (i & x & Hi & Hx). exists x. split; [|done].
    by eapply list_elem_of_lookup_2.
Qed.

(** C4.  Without [strict] the check is true of every batch; with [strict]
    it is false exactly when some trade refers to a symbol outside
    [known_symbols]; the empty batch passes in both modes. *)
Theorem check_referential_integrity_spec (known_symbols : gset string) :
  (∀ trades, check_referential_integrity trades known_symbols false = true)
  ∧ (∀ trades,
       check_referential_integrity trades known_symbols true = false
       ↔ ∃ i trade, trades !! i = Some trade ∧ unknown_symbol known_symbols trade)
  ∧ (∀ strict, check_referential_integrity [] known_symbols strict = true).
Proof.
  split; [|split].
  - intros trades. unfold check_referential_integrity.
    destruct trades; [done|]. by case_match.
  - intros trades. rewrite <- Exists_lookup, <- unknown_symbols_nonempty.
    unfold check_referential_integrity.
    destruct trades as [|t trades]; [done|].
    generalize (t :: trades). intros l.
    destruct (bool_decide (unknown_symbols l known_symbols = ∅)) eqn:E; simpl.
    + apply bool_decide_eq_true in E. split; [discriminate | done].
    + apply bool_decide_eq_false in E. done.
  - done.
Qed.

(** ** Uniqueness *)

Lemma uniqueness_step_absent key scope_key seen duplicates i record :
  ¬ present record key →
  uniqueness_step key scope_key (seen, duplicates) (i, record) = (seen, duplicates).
Proof.
  intros Hp. unfold uniqueness_step.
  destruct (is_None (getattr_or_None record key)) eqn:E; [done|].
  apply is_None_false in E. contradiction.
Qed.

Lemma uniqueness_step_present key scope_key seen duplicates i record :
  present record key →
  let p := (hkey_of (scope_of scope_key record), hkey_of (getattr_or_None record key)) in
  ∃ seen' duplicates',
    uniqueness_step key scope_key (seen, duplicates) (i, record) = (seen', duplicates')
    ∧ (duplicates' = [] ↔ duplicates = [] ∧ ¬ seen_pair seen p)
    ∧ (∀ q, seen_pair seen' q ↔ q = p ∨ seen_pair seen q).
Proof.
  intros Hp p. unfold uniqueness_step.
  apply is_None_false in Hp. rewrite Hp.
  set (s := hkey_of (scope_of scope_key record)).
  set (k := hkey_of (getattr_or_None record key)).
  set (in_scope := default ∅ (seen !! s)).
  eexists _, _. split; [reflexivity|]. split.
  - assert (Hsp : seen_pair seen p ↔ is_Some (in_scope !! k)).
    { unfold seen_pair, in_scope. simpl. fold s k. destruct (seen !! s) as [m|]; simpl.
      - split; [by intros (m' & [= <-] & H) | intros H; by exists m].
      - rewrite lookup_empty. split; [by intros (m' & [=] & _) | by intros [? [=]]]. }
    rewrite Hsp. destruct (in_scope !! k) as [indices|].
    + split.
      * intros H. by apply app_nil in H as [_ [=]].
      * intros [_ H]. destruct H. by eexists.
    + split; [intros ->; split; [done | by intros [? [=]]] | by intros [-> _]].
  - intros [s' k']. unfold seen_pair. simpl. split.
    + intros (m & Hm & Hk). destruct (decide (s' = s)) as [->|Hs].
      * rewrite lookup_insert_eq in Hm. injection Hm as <-.
        destruct (decide (k' = k)) as [->|Hk']; [by left|].
        rewrite lookup_insert_ne in Hk by done. right.
        unfold in_scope in Hk. destruct (seen !! s) as [m|]; simpl in Hk.
        -- by exists m.
        -- rewrite lookup_empty in Hk. by destruct Hk.
      * rewrite lookup_insert_ne in Hm by done. right. by exists m.
    + intros [[= -> ->] | (m & Hm & Hk)].
      * eexists. rewrite lookup_insert_eq. split; [done|].
        rewrite lookup_insert_eq. by eexists.
      * destruct (decide (s' = s)) as [->|Hs].
        -- eexists. rewrite lookup_insert_eq. split; [done|].
           destruct (decide (k' = k)) as [->|Hk'].
           ++ rewrite lookup_insert_eq. by eexists.
           ++ rewrite lookup_insert_ne by done. unfold in_scope. by rewrite Hm.
        -- exists m. by rewrite lookup_insert_ne.
Qed.

Lemma scoped_keys_cons_absent key scope_key r records :
  ¬ present r key →
  scoped_keys key scope_key (r :: records) = scoped_keys key scope_key records.
Proof. intros H. unfold scoped_keys. by rewrite filter_cons_False. Qed.

Lemma scoped_keys_cons_present key scope_key r records :
  present r key →
  scoped_keys key scope_key (r :: records)
  = (hkey_of (scope_of scope_key r), hkey_of (getattr_or_None r key))
      :: scoped_keys key scope_key records.
Proof. intros H. unfold scoped_keys. by rewrite filter_cons_True. Qed.

Lemma uniqueness_fold key scope_key records n seen duplicates :
  (foldl (uniqueness_step key scope_key) (seen, duplicates)
         (zip (seq n (length records)) records)).2 = []
  ↔ duplicates = []
    ∧ NoDup (scoped_keys key scope_key records)
    ∧ ∀ p, p ∈ scoped_keys key scope_key records → ¬ seen_pair seen p.
Proof.
  revert n seen duplicates.
  induction records as [|r records IH]; intros n seen duplicates.
  - simpl. split; [intros ->; split_and!; [done | constructor | by intros p ?%elem_of_nil]
           | by intros [-> _]].
  - change (foldl (uniqueness_step key scope_key) (seen, duplicates)
              (zip (seq n (length (r :: records))) (r :: records)))
      with (foldl (uniqueness_step key scope_key)
              (uniqueness_step key scope_key (seen, duplicates) (n, r))
              (zip (seq (S n) (length records)) records)).
    destruct (decide (present r key)) as [Hp|Hp].
    + destruct (uniqueness_step_present key scope_key seen duplicates n r Hp)
        as (seen' & duplicates' & -> & Hd & Hs).
      rewrite IH, Hd, scoped_keys_cons_present, NoDup_cons by done.
      setoid_rewrite elem_of_cons. setoid_rewrite Hs.
      split.
      * intros ((-> & Hn) & Hnd & Hall). split_and!; try done.
        -- intros Hin. apply (Hall _ Hin). by left.
        -- intros q [-> | Hin]; [done|]. intros Hq. apply (Hall _ Hin). by right.
      * intros (-> & (Hn & Hnd) & Hall). split_and!; try done.
        -- apply Hall. by left.
        -- intros q Hin [-> | Hq]; [done|]. apply (Hall q); [by right | done].
    + rewrite uniqueness_step_absent, IH, scoped_keys_cons_absent by done.
      reflexivity.
Qed.

Lemma check_uniqueness_NoDup records key scope_key :
  check_uniqueness records key scope_key = true
  ↔ NoDup (scoped_keys key scope_key records).
Proof.
  assert (H : (uniqueness_loop key scope_key records).2 = []
              ↔ NoDup (scoped_keys key scope_key records)).
  { unfold uniqueness_loop, enumerate. rewrite uniqueness_fold.
    split; [tauto|]. intros H. split_and!; try done.
    intros p _ (m & Hm & _). by rewrite lookup_empty in Hm. }
  unfold check_uniqueness. destruct records as [|r records].
  - split; [intros _; constructor | done].
  - rewrite <- H. destruct (uniqueness_loop _ _ _).2; split; congruence.
Qed.

Lemma NoDup_fmap_filter_lookup {A B} (f : A → B) (P : A → Prop)
    `{∀ x, Decision (P x)} (l : list A) :
  NoDup (f <$> filter P l)
  ↔ ∀ i j x y, (i < j)%nat → l !! i = Some x → l !! j = Some y →
               P x → P y → f x ≠ f y.
Proof.
  induction l as [|a l IH].
  - split; [|intros _; constructor].
    intros _ i j x y _ Hi. by rewrite lookup_nil in Hi.
  - destruct (decide (P a)) as [Ha|Ha].
    + rewrite filter_cons_True, fmap_cons, NoDup_cons, IH by done. split.
      * intros [Hnin Hl] i j x y Hij Hi Hj Hx Hy.
        destruct j as [|j]; [lia|]. simpl in Hj. destruct i as [|i]; simpl in Hi.
        -- injection Hi as <-. intros Heq. apply Hnin. rewrite Heq.
           apply list_elem_of_fmap. exists y. split; [done|].
           apply list_elem_of_filter. split; [done|]. by eapply list_elem_of_lookup_2.
        -- apply (Hl i j); [lia | done..].
      * intros Hall. split.
        -- intros Hin. apply list_elem_of_fmap in Hin as (y & Heq & Hin).
           apply list_elem_of_filter in Hin as [Hy Hin].
           apply list_elem_of_lookup_1 in Hin as [j Hj].
           apply (Hall 0%nat (S j) a y); [lia | done..].
        -- intros i j x y Hij Hi Hj. apply (Hall (S i) (S j)); [lia | done..].
    + rewrite filter_cons_False, IH by done. split.
      * intros Hl i j x y Hij Hi Hj Hx Hy.
        destruct j as [|j]; [lia|]. simpl in Hj. destruct i as [|i]; simpl in Hi.
        -- injection Hi as <-. contradiction.
        -- apply (Hl i j); [lia | done..].
      * intros Hall i j x y Hij Hi Hj. apply (Hall (S i) (S j)); [lia | done..].
Qed.

Lemma num_key_not_None sg c e : num_key sg c e ≠ KNone.
Proof.
  unfold num_key. destruct (c =? 0)%N; [done|].
  by destruct (strip_zeros _ c e).
Qed.

Lemma hkey_of_KNone v : hkey_of v = KNone ↔ v = VNone.
Proof.
  split; [|by intros ->].
  destruct v as [| b | z | s' | [sg c e | sg | sg pl i] | t]; simpl; try done.
  - intros H. by apply num_key_not_None in H.
  - intros H. by apply num_key_not_None in H.
  - intros H. by apply num_key_not_None in H.
  - by destruct (utcoffset t).
Qed.

Lemma bool_eq_by_iff (b1 b2 : bool) (P : Prop) :
  (b1 = true ↔ P) → (b2 = true ↔ P) → b1 = b2.
Proof. destruct b1, b2; intros [H1 H2] [H3 H4]; auto; symmetry; auto. Qed.

Lemma check_uniqueness_pairs records key scope_key :
  check_uniqueness records key scope_key = true
  ↔ ∀ i j x y, (i < j)%nat → records !! i = Some x → records !! j = Some y →
      present x key → present y key →
      py_eq (scope_of scope_key x) (scope_of scope_key y) →
      ¬ py_eq (getattr_or_None x key) (getattr_or_None y key).
Proof.
  rewrite check_uniqueness_NoDup. unfold scoped_keys.
  rewrite NoDup_fmap_filter_lookup. unfold py_eq.
  split; intros Hall i j x y Hij Hi Hj Hx Hy.
  - intros Hs Hk. apply (Hall i j x y); try done. by rewrite Hs, Hk.
  - intros [= Hs Hk]. by apply (Hall i j x y).
Qed.

(** C6.  The records that have the key field are grouped by the value of
    the scope field (one global scope when no scope field is given) and the
    check is true exactly when no two of them in the same scope have equal
    key values; a record without the key field does not change the answer;
    the same trade id under two clients passes per client and fails
    globally. *)
Theorem check_uniqueness_spec :
  (∀ records key scope_key,
     check_uniqueness records key scope_key = true
     ↔ ∀ i j x y, (i < j)%nat → records !! i = Some x → records !! j = Some y →
         present x key → present y key →
         py_eq (scope_of scope_key x) (scope_of scope_key y) →
         ¬ py_eq (getattr_or_None x key) (getattr_or_None y key))
  ∧ (∀ record, scope_of None record = global_scope)
  ∧ (∀ before record after key scope_key,
       ¬ present record key →
       check_uniqueness (before ++ record :: after) key scope_key
       = check_uniqueness (before ++ after) key scope_key)
  ∧ (let trades := [Sample.trade "TRD-001" "C1"; Sample.trade "TRD-001" "C2"] in
     check_uniqueness trades "trade_id" (Some "client_id"%string) = true
     ∧ check_uniqueness trades "trade_id" None = false).
Proof.
  split_and!.
  - apply check_uniqueness_pairs.
  - done.
  - intros before record after key scope_key Hp.
    apply (bool_eq_by_iff _ _ (NoDup (scoped_keys key scope_key (before ++ after)))).
    + rewrite check_uniqueness_NoDup. unfold scoped_keys.
      by rewrite !filter_app, filter_cons_False.
    + apply check_uniqueness_NoDup.
  - split; vm_compute; reflexivity.
Qed.

(** C10.  With a scope field given, records that have the key field but
    lack the scope field all fall into the scope [None]: two of them with
    equal key values make the check false. *)
Theorem check_uniqueness_missing_scope (records : list pyobj) (key name : string)
    (i j : nat) (x y : pyobj) :
  name ≠ EmptyString →
  i ≠ j →
  records !! i = Some x →
  records !! j = Some y →
  present x key →
  py_eq (getattr_or_None x key) (getattr_or_None y key) →
  ob_dict x !! name = None →
  ob_dict y !! name = None →
  scope_of (Some name) x = VNone
  ∧ scope_of (Some name) y = VNone
  ∧ check_uniqueness records key (Some name) = false.
Proof.
  intros Hname Hij Hi Hj Hx Heq Hsx Hsy.
  assert (Hscope : ∀ r, ob_dict r !! name = None → scope_of (Some name) r = VNone).
  { intros r Hr. unfold scope_of, getattr_or_None. simpl.
    rewrite bool_decide_eq_false_2 by done. simpl. by rewrite Hr. }
  assert (Hy : present y key).
  { unfold present in *. intros Hn. apply Hx. apply hkey_of_KNone.
    unfold py_eq in Heq. rewrite Heq, Hn. done. }
  split_and!; [by apply Hscope | by apply Hscope |].
  apply not_true_is_false. intros Hc.
  rewrite check_uniqueness_pairs in Hc.
  assert (Hss : py_eq (scope_of (Some name) x) (scope_of (Some name) y)).
  { rewrite !Hscope by done. done. }
  destruct (Nat.lt_gt_cases i j) as [Hlt _]. destruct (Hlt Hij) as [Hlt'|Hlt'].
  - by apply (Hc i j x y).
  - by apply (Hc j i y x).
Qed.

Lemma check_uniqueness_missing_scope_witness :
  check_uniqueness [Sample.orphan_trade "TRD-001"; Sample.orphan_trade "TRD-001"]
    "trade_id" (Some "client_id"%string) = false.
Proof.
  refine (proj2 (proj2 (check_uniqueness_missing_scope
    [Sample.orphan_trade "TRD-001"; Sample.orphan_trade "TRD-001"]
    "trade_id" "client_id" 0 1
    (Sample.orphan_trade "TRD-001") (Sample.orphan_trade "TRD-001")
    _ _ _ _ _ _ _ _))); try done.
Defined.

(** ** Timestamp ordering *)

Lemma in_order_at batch i current next_item :
  batch !! i = Some current → batch !! (i + 1)%nat = Some next_item →
  in_order batch i
  ↔ present current "timestamp" ∧ present next_item "timestamp"
    ∧ py_le (timestamp_of current) (timestamp_of next_item) = Ok true.
Proof.
  intros Hi Hj. unfold in_order. split.
  - intros (c & n & Hc & Hn & H). rewrite Hi in Hc. rewrite Hj in Hn.
    injection Hc as <-. injection Hn as <-. exact H.
  - intros H. by exists current, next_item.
Qed.

Lemma monotonic_loop_spec batch :
  comparable batch →
  ∀ indices violations,
    Forall (λ i, (i + 1 < length batch)%nat) indices →
    ∃ more,
      monotonic_loop batch indices violations = Ok (violations ++ more)
      ∧ Forall (λ i, in_order batch i ∨ i ∈ violation_index <$> more) indices
      ∧ Forall (λ i, i ∈ indices ∧ ¬ in_order batch i) (violation_index <$> more).
Proof.
  intros Hcmp. induction indices as [|i rest IH]; intros violations Hb.
  - exists []. simpl. rewrite app_nil_r. split_and!; [done | constructor..].
  - apply Forall_cons in Hb as [Hi Hb].
    destruct (lookup_lt_is_Some_2 batch i) as [c Hc]; [lia|].
    destruct (lookup_lt_is_Some_2 batch (i + 1)) as [n Hn]; [lia|].
    pose proof (in_order_at batch i c n Hc Hn) as Hord.
    simpl. unfold item. rewrite Hc, Hn. simpl.
    fold (timestamp_of c) (timestamp_of n).
    assert (Hlift : ∀ v vs more,
      ¬ in_order batch i → violation_index v = i →
      monotonic_loop batch rest (vs ++ [v]) = Ok ((vs ++ [v]) ++ more) →
      Forall (λ i, in_order batch i ∨ i ∈ violation_index <$> more) rest →
      Forall (λ i, i ∈ rest ∧ ¬ in_order batch i) (violation_index <$> more) →
      ∃ more',
        monotonic_loop batch rest (vs ++ [v]) = Ok (vs ++ more')
        ∧ Forall (λ j, in_order batch j ∨ j ∈ violation_index <$> more') (i :: rest)
        ∧ Forall (λ j, j ∈ i :: rest ∧ ¬ in_order batch j) (violation_index <$> more')).
    { intros v vs more Hno Hv Hrun Hall Hviol. exists (v :: more). split_and!.
      - rewrite Hrun. f_equal. by rewrite <- app_assoc.
      - constructor.
        + right. rewrite fmap_cons, Hv. by left.
        + eapply Forall_impl; [exact Hall|]. intros j [?|?]; [by left|].
          right. rewrite fmap_cons. by right.
      - rewrite fmap_cons, Hv. constructor.
        + split; [by left | done].
        + eapply Forall_impl; [exact Hviol|]. intros j [? ?]. split; [by right | done]. }
    destruct (is_None (timestamp_of c) || is_None (timestamp_of n)) eqn:En.
    + destruct (IH (violations ++
          [MissingTimestamp i (negb (is_None (timestamp_of c)))
             (negb (is_None (timestamp_of n)))]) Hb) as (more & Hrun & Hall & Hviol).
      eapply Hlift; try done.
      rewrite Hord. intros (Hpc & Hpn & _). unfold present in *.
      apply is_None_false in Hpc, Hpn. unfold timestamp_of in En.
      rewrite Hpc, Hpn in En. discriminate.
    + apply orb_false_iff in En as [Ec En'].
      apply is_None_false in Ec, En'.
      specialize (Hcmp i c n Hc Hn Ec En').
      unfold py_gt. unfold py_le in Hord.
      destruct (py_compare (timestamp_of c) (timestamp_of n)) as [cmp|] eqn:Ecmp;
        [|discriminate]. simpl. simpl in Hord.
      destruct (is_Gt cmp) eqn:Eg.
      * destruct (IH (violations ++
            [TimestampDecreased i (timestamp_of c) (timestamp_of n)]) Hb)
          as (more & Hrun & Hall & Hviol).
        eapply Hlift; try done.
        rewrite Hord. by intros (_ & _ & [=]).
      * destruct (IH violations Hb) as (more & Hrun & Hall & Hviol).
        exists more. split_and!; [done | |].
        -- constructor; [left; by apply Hord | done].
        -- eapply Forall_impl; [exact Hviol|]. intros j [? ?].
           split; [by right | done].
Qed.

Lemma monotonic_violations_spec batch :
  comparable batch →
  ∃ violations,
    monotonic_violations batch = Ok violations
    ∧ (∀ i, i ∈ violation_index <$> violations
            ↔ (i + 1 < length batch)%nat ∧ ¬ in_order batch i)
    ∧ (violations = [] ↔ ∀ i, (i + 1 < length batch)%nat → in_order batch i).
Proof.
  intros Hcmp. unfold monotonic_violations.
  assert (Hb : Forall (λ i, (i + 1 < length batch)%nat) (seq 0 (length batch - 1))).
  { apply Forall_forall. intros i Hi. apply elem_of_seq in Hi. lia. }
  destruct (monotonic_loop_spec batch Hcmp _ [] Hb) as (more & Hrun & Hall & Hviol).
  exists more. rewrite Forall_forall in Hall, Hviol.
  assert (Hseq : ∀ i, i ∈ seq 0 (length batch - 1) ↔ (i + 1 < length batch)%nat).
  { intros i. rewrite elem_of_seq. lia. }
  split_and!; [done | |].
  - intros i. split.
    + intros Hi. destruct (Hviol i Hi) as [Hin Hno]. by apply Hseq in Hin.
    + intros [Hi Hno]. apply Hseq in Hi. by destruct (Hall i Hi).
  - split.
    + intros -> i Hi. apply Hseq in Hi. destruct (Hall i Hi) as [|Hin]; [done|].
      by apply elem_of_nil in Hin.
    + intros Hord. destruct more as [|v more]; [done|]. exfalso.
      destruct (Hviol (violation_index v)) as [Hin Hno]; [rewrite fmap_cons; by left|].
      apply Hno, Hord. by apply Hseq.
Qed.

(** C5.  The empty batch and every one-element batch pass.  On a batch
    whose adjacent timestamps can be ordered, the check answers, and answers
    true exactly when every adjacent pair is in order; the violations it
    collects are exactly the pairs that are not, so a missing timestamp is
    recorded at its index and the later pairs are still examined; a record
    without a timestamp in a batch of two or more makes the answer false. *)
Theorem check_monotonic_timestamps_spec :
  check_monotonic_timestamps [] = Ok true
  ∧ (∀ x, check_monotonic_timestamps [x] = Ok true)
  ∧ ∀ batch,
      comparable batch →
      ∃ violations answer,
        monotonic_violations batch = Ok violations
        ∧ check_monotonic_timestamps batch = Ok answer
        ∧ (answer = true ↔ ∀ i, (i + 1 < length batch)%nat → in_order batch i)
        ∧ (∀ i, i ∈ violation_index <$> violations
                ↔ (i + 1 < length batch)%nat ∧ ¬ in_order batch i)
        ∧ (∀ i record,
             (2 ≤ length batch)%nat → batch !! i = Some record →
             ¬ present record "timestamp" → answer = false).
Proof.
  split_and!; [done | done |].
  intros batch Hcmp.
  destruct (monotonic_violations_spec batch Hcmp) as (violations & Hrun & Hidx & Hnil).
  exists violations, (bool_decide (violations = [])).
  assert (Hans : bool_decide (violations = []) = true
                 ↔ ∀ i, (i + 1 < length batch)%nat → in_order batch i).
  { by rewrite bool_decide_eq_true. }
  split_and!; try done.
  - unfold check_monotonic_timestamps.
    destruct (length batch <=? 1)%nat eqn:Hlen.
    + apply Nat.leb_le in Hlen. f_equal. symmetry. apply Hans. intros i Hi. lia.
    + rewrite Hrun. simpl. by destruct violations.
  - intros i record Hlen Hi Hp. apply not_true_is_false. rewrite Hans. intros Hall.
    apply Hp. pose proof (lookup_lt_Some _ _ _ Hi) as Hlt.
    destruct (decide (i + 1 < length batch)%nat) as [Hin|Hlast].
    + destruct (Hall i Hin) as (c & n & Hc & _ & Hpc & _).
      rewrite Hi in Hc. by injection Hc as <-.
    + destruct i as [|i]; [lia|].
      destruct (Hall i) as (c & n & _ & Hn & _ & Hpn & _); [lia|].
      replace (i + 1)%nat with (S i) in Hn by lia.
      rewrite Hi in Hn. by injection Hn as <-.
Qed.

(** ** Model construction *)

Lemma validate_fields_Constructed cls flds raw values errors o :
  validate_fields cls flds raw values errors = Constructed o →
  errors = []
  ∧ ∃ vs, Forall2 (λ f v, validate_field f raw = FValue v) flds vs
          ∧ o = Obj cls (store values (zip flds vs)).
Proof.
  revert values errors. induction flds as [|f flds IH]; intros values errors; simpl.
  - destruct errors; [|discriminate]. intros [= <-]. split; [done|].
    exists []. split; [constructor | done].
  - destruct (validate_field f raw) as [v|e|e] eqn:Ef; [| |discriminate].
    + intros H. apply IH in H as (-> & vs & Hvs & ->). split; [done|].
      exists (v :: vs). split; [by constructor | done].
    + intros H. apply IH in H as (Hnil & _). by destruct errors.
Qed.

Lemma validate_fields_values cls flds raw values vs :
  Forall2 (λ f v, validate_field f raw = FValue v) flds vs →
  validate_fields cls flds raw values [] = Constructed (Obj cls (store values (zip flds vs))).
Proof.
  intros H. revert values. induction H as [|f v flds vs Hf _ IH]; intros values; simpl.
  - done.
  - rewrite Hf. apply IH.
Qed.

Lemma validate_fields_ValidationError cls flds raw values errors errs :
  validate_fields cls flds raw values errors = ValidationError errs →
  errs = errors ++ (flds ≫= field_errors raw).
Proof.
  revert values errors. induction flds as [|f flds IH]; intros values errors; simpl.
  - destruct errors; [discriminate|]. intros [= <-]. by rewrite app_nil_r.
  - unfold field_errors at 1.
    destruct (validate_field f raw) as [v|e|e] eqn:Ef; [| |discriminate].
    + intros H. by apply IH in H.
    + intros H. apply IH in H. by rewrite <- app_assoc in H.
Qed.

Lemma run_validator_FValue f v w :
  run_validator f v = FValue w ↔ f v = Ok w.
Proof.
  unfold run_validator. destruct (f v) as [w'|[]]; split; congruence.
Qed.

(** ** Field validators against the contract checks *)

Lemma validate_symbol_Ok v w :
  MarketData.validate_symbol v = Ok w →
  w = v ∧ (∃ s, v = VStr s) ∧ ContractValidator._check_symbol_format v = Ok [].
Proof.
  unfold MarketData.validate_symbol, ContractValidator._check_symbol_format.
  destruct (truthy v) eqn:Et; simpl; [|discriminate].
  destruct v as [| b | z | s | d | t]; try discriminate.
  unfold differs_from_upper, bad_length, py_len, py_upper, py_match. simpl.
  destruct (bool_decide (KStr s = KStr (upper s))); simpl; [|discriminate].
  destruct ((str_len s <? 1)%nat || (10 <? str_len s)%nat); simpl; [discriminate|].
  destruct (SYMBOL_PATTERN_match s); simpl; [|discriminate].
  intros [= <-]. eauto.
Qed.

Lemma validate_decimal_Ok tag field_name parse v w :
  MarketData.validate_decimal tag field_name parse v = Ok w →
  ∃ s c e, w = VDecimal (Finite s c e)
           ∧ Decimal_le_0 (Finite s c e) = Ok false
           ∧ (e <? 0) && (4 <? Z.abs e) = false.
Proof.
  unfold MarketData.validate_decimal.
  set (conv := match v with VDecimal d => Ok d | _ => _ end).
  destruct conv as [d|e]; [|discriminate]. simpl.
  destruct (Decimal_le_0 d) as [[]|] eqn:Hle; simpl; try discriminate.
  destruct d as [s c e|s|s pl i]; simpl; try discriminate.
  unfold MarketData.MAX_DECIMAL_PLACES.
  destruct ((e <? 0) && (4 <? Z.abs e)) eqn:He; [discriminate|].
  intros [= <-]. eauto 10.
Qed.

Lemma _check_price_validity_nil s c e field_name :
  Decimal_le_0 (Finite s c e) = Ok false →
  (e <? 0) && (4 <? Z.abs e) = false →
  ContractValidator._check_price_validity (VDecimal (Finite s c e)) field_name = Ok [].
Proof.
  intros Hle He. unfold ContractValidator._check_price_validity.
  rewrite Hle. simpl. unfold ContractValidator.MAX_DECIMAL_PLACES.
  destruct (e <? 0); [|done]. simpl in He. by rewrite He.
Qed.

Lemma validate_timestamp_Ok now1 now2 v w :
  now1 ≤ now2 →
  MarketData.validate_timestamp now1 v = Ok w →
  w = v ∧ (∃ t, v = VDatetime t)
  ∧ ContractValidator._check_timestamp_validity now2 v = Ok [].
Proof.
  intros Hnow. unfold MarketData.validate_timestamp, ContractValidator._check_timestamp_validity.
  destruct v as [| b | z | s | d | t]; try discriminate.
  destruct (tzinfo t) as [tz|] eqn:Etz; [|discriminate].
  unfold later_than.
  destruct (utcoffset t) as [off|] eqn:Eoff; simpl; [|discriminate].
  destruct (off =? 0) eqn:E0; simpl; [|discriminate].
  unfold MarketData.MAX_FUTURE_MINUTES, ContractValidator.MAX_FUTURE_MINUTES,
    MarketData.MIN_VALID_YEAR, ContractValidator.MIN_VALID_YEAR.
  destruct (now1 + timedelta_minutes 5 <? utc_us t off) eqn:Hl; [discriminate|].
  destruct (year t <? 2000) eqn:Hy; [discriminate|].
  intros [= <-]. split_and!; [done | eauto |].
  apply Z.ltb_ge in Hl.
  rewrite (proj2 (Z.ltb_ge _ _)) by lia. done.
Qed.

Lemma is_blank_false v : is_blank v = Ok false → ∃ s, v = VStr s.
Proof.
  unfold is_blank. destruct (truthy v); simpl; [|discriminate].
  destruct v; try discriminate. eauto.
Qed.

Lemma validate_source_Ok v w :
  MarketData.validate_source v = Ok w → w = v ∧ ∃ s, v = VStr s.
Proof.
  unfold MarketData.validate_source.
  destruct (is_blank v) as [[]|] eqn:E; simpl; try discriminate.
  intros [= <-]. split; [done|]. by apply is_blank_false.
Qed.

Lemma validate_nonempty_Ok field_name v w :
  TradeData.validate_nonempty field_name v = Ok w →
  w = v ∧ (∃ s, v = VStr s) ∧ is_blank v = Ok false.
Proof.
  unfold TradeData.validate_nonempty.
  destruct (is_blank v) as [[]|] eqn:E; simpl; try discriminate.
  intros [= <-]. split_and!; [done | by apply is_blank_false | done].
Qed.

Lemma field_plain n core after raw v :
  validate_field (Field n no_validator core after) raw = FValue v →
  ∃ v0, raw !! n = Some v0 ∧ core v0 = None ∧ after v0 = Ok v.
Proof.
  unfold validate_field. simpl. destruct (raw !! n) as [v0|]; [|discriminate].
  destruct (core v0) eqn:Ec; [discriminate|]. rewrite run_validator_FValue.
  intros H. by exists v0.
Qed.

Lemma field_before n before core raw v :
  validate_field (Field n before core no_validator) raw = FValue v →
  ∃ v0, raw !! n = Some v0 ∧ before v0 = Ok v ∧ core v = None.
Proof.
  unfold validate_field. simpl. destruct (raw !! n) as [v0|]; [|discriminate].
  destruct (run_validator before v0) as [v1| |] eqn:E; try discriminate.
  apply run_validator_FValue in E.
  destruct (core v1) eqn:Ec; [discriminate|]. unfold no_validator, run_validator.
  intros [= <-]. eauto.
Qed.

Lemma strict_int_None v : strict_int v = None → ∃ z, v = VInt z.
Proof. destruct v; try discriminate. eauto. Qed.

Lemma validate_volume_Ok v w : MarketData.validate_volume v = Ok w → w = v.
Proof.
  unfold MarketData.validate_volume. destruct (py_compare v (VInt 0)) as [[]|]; simpl;
    congruence.
Qed.

Lemma check_required_nil names data :
  Forall (present data) names → ContractValidator.check_required names data = [].
Proof.
  unfold ContractValidator.check_required. generalize (@nil message).
  intros acc H. revert acc. induction H as [|n names Hn _ IH]; intros acc; simpl; [done|].
  apply is_None_false in Hn. rewrite Hn. apply IH.
Qed.

Lemma present_lookup cls d n v : d !! n = Some v → v ≠ VNone → present (Obj cls d) n.
Proof. intros H Hv. unfold present, getattr_or_None. simpl. by rewrite H. Qed.

Lemma getattr_lookup cls d n v : d !! n = Some v → getattr (Obj cls d) n = Ok v.
Proof. intros H. unfold getattr. simpl. by rewrite H. Qed.

Lemma validate_market_data_valid now cls d symbol price timestamp volume source :
  d !! "symbol"%string = Some symbol → d !! "price"%string = Some price →
  d !! "timestamp"%string = Some timestamp → d !! "volume"%string = Some volume →
  d !! "source"%string = Some source →
  symbol ≠ VNone → price ≠ VNone → timestamp ≠ VNone → volume ≠ VNone → source ≠ VNone →
  ContractValidator._check_price_validity price "price" = Ok [] →
  ContractValidator._check_timestamp_validity now timestamp = Ok [] →
  ContractValidator._check_symbol_format symbol = Ok [] →
  ContractValidator.validate_market_data now (Obj cls d) = Ok (true, []).
Proof.
  intros Hs Hp Ht Hv Hsrc Ns Np Nt Nv Nsrc Cp Ct Cs.
  unfold ContractValidator.validate_market_data,
    ContractValidator._check_required_fields_market.
  rewrite check_required_nil.
  2: { repeat constructor; eapply present_lookup; eassumption. }
  rewrite (getattr_lookup _ _ _ _ Hp), (getattr_lookup _ _ _ _ Ht),
    (getattr_lookup _ _ _ _ Hs). simpl.
  rewrite Cp, Ct. simpl. rewrite Cs. simpl. done.
Qed.

Lemma market_roundtrip parse now1 now2 raw o :
  now1 ≤ now2 →
  MarketData.new parse now1 raw = Constructed o →
  ContractValidator.validate_market_data now2 o = Ok (true, []).
Proof.
  intros Hnow H. unfold MarketData.new, model_new in H.
  apply validate_fields_Constructed in H as (_ & vs & Hvs & ->).
  unfold MarketData.fields in Hvs. invert_fields Hvs.
  apply field_plain in Hv as (s0 & _ & _ & (-> & [s ->] & Hsym)%validate_symbol_Ok).
  apply field_before in Hv0 as (p0 & _ & (sg & c & e & -> & Hle & He)%validate_decimal_Ok & _).
  apply field_plain in Hv1 as (t0 & _ & _ & (-> & [t ->] & Hts)%(validate_timestamp_Ok now1 now2 _ _ Hnow)).
  apply field_plain in Hv2 as (z0 & _ & [z ->]%strict_int_None & ->%validate_volume_Ok).
  apply field_plain in Hv3 as (s1 & _ & _ & (-> & [src ->])%validate_source_Ok).
  eapply validate_market_data_valid; try done.
  by apply _check_price_validity_nil.
Qed.

Lemma py_le_Decimal_0 d : py_le (VDecimal d) (VInt 0) = Decimal_le_0 d.
Proof.
  unfold py_le, py_compare. destruct d as [s c e|s|s pl i]; simpl; [| |done].
  - f_equal. unfold scaled.
    assert (Hpow : 0 < 10 ^ (e - Z.min e 0)) by (apply Z.pow_pos_nonneg; lia).
    change (Z.of_N 0) with 0. rewrite Z.mul_0_r, Z.mul_0_l.
    destruct (N.eqb_spec c 0) as [->|Hc].
    + rewrite orb_true_r. change (Z.of_N 0) with 0.
      by rewrite Z.mul_0_r, Z.mul_0_l.
    + rewrite orb_false_r. assert (0 < Z.of_N c) by lia.
      destruct s.
      * assert (Hlt : -1 * Z.of_N c * 10 ^ (e - Z.min e 0) < 0) by nia.
        unfold Z.lt in Hlt. by rewrite Hlt.
      * assert (Hgt : 1 * Z.of_N c * 10 ^ (e - Z.min e 0) > 0) by nia.
        unfold Z.gt in Hgt. by rewrite Hgt.
  - by destruct s.
Qed.

Lemma validate_side_Ok v w :
  TradeData.validate_side v = Ok w → w = v ∧ ContractValidator.in_VALID_SIDES v = true.
Proof.
  unfold TradeData.validate_side.
  change (TradeData.in_VALID_SIDES v) with (ContractValidator.in_VALID_SIDES v).
  destruct (ContractValidator.in_VALID_SIDES v); simpl; [|discriminate].
  by intros [= <-].
Qed.

Lemma in_VALID_SIDES_not_None v : ContractValidator.in_VALID_SIDES v = true → v ≠ VNone.
Proof. by intros H ->. Qed.

Lemma _check_trade_specific_rules_nil cls d side sg c e trade_id venue :
  d !! "side"%string = Some side →
  d !! "quantity"%string = Some (VDecimal (Finite sg c e)) →
  d !! "trade_id"%string = Some trade_id →
  d !! "venue"%string = Some venue →
  ContractValidator.in_VALID_SIDES side = true →
  Decimal_le_0 (Finite sg c e) = Ok false →
  is_blank trade_id = Ok false →
  is_blank venue = Ok false →
  ContractValidator._check_trade_specific_rules (Obj cls d) = Ok [].
Proof.
  intros Hs Hq Ht Hv Cs Cq Ct Cv. unfold ContractValidator._check_trade_specific_rules.
  rewrite (getattr_lookup _ _ _ _ Hs), (getattr_lookup _ _ _ _ Hq),
    (getattr_lookup _ _ _ _ Ht), (getattr_lookup _ _ _ _ Hv).
  cbn [mbind res_bind]. rewrite Cs, py_le_Decimal_0, Cq, Ct, Cv. done.
Qed.

Lemma validate_trade_data_valid now cls d trade_id client_id symbol side quantity price
    timestamp venue :
  d !! "trade_id"%string = Some trade_id → d !! "client_id"%string = Some client_id →
  d !! "symbol"%string = Some symbol → d !! "side"%string = Some side →
  d !! "quantity"%string = Some quantity → d !! "price"%string = Some price →
  d !! "timestamp"%string = Some timestamp → d !! "venue"%string = Some venue →
  trade_id ≠ VNone → client_id ≠ VNone → symbol ≠ VNone → side ≠ VNone →
  quantity ≠ VNone → price ≠ VNone → timestamp ≠ VNone → venue ≠ VNone →
  ContractValidator._check_price_validity price "price" = Ok [] →
  ContractValidator._check_price_validity quantity "quantity" = Ok [] →
  ContractValidator._check_timestamp_validity now timestamp = Ok [] →
  ContractValidator._check_symbol_format symbol = Ok [] →
  ContractValidator._check_trade_specific_rules (Obj cls d) = Ok [] →
  ContractValidator.validate_trade_data now (Obj cls d) = Ok (true, []).
Proof.
  intros H1 H2 H3 H4 H5 H6 H7 H8 N1 N2 N3 N4 N5 N6 N7 N8 Cp Cq Ct Cs Cr.
  unfold ContractValidator.validate_trade_data,
    ContractValidator._check_required_fields_trade.
  rewrite check_required_nil.
  2: { repeat constructor; eapply present_lookup; eassumption. }
  rewrite (getattr_lookup _ _ _ _ H6), (getattr_lookup _ _ _ _ H5),
    (getattr_lookup _ _ _ _ H7), (getattr_lookup _ _ _ _ H3).
  cbn [mbind res_bind]. rewrite Cp, Cq, Ct. cbn [mbind res_bind].
  rewrite Cs. cbn [mbind res_bind]. rewrite Cr. done.
Qed.

Lemma trade_roundtrip parse now1 now2 raw o :
  now1 ≤ now2 →
  TradeData.new parse now1 raw = Constructed o →
  ContractValidator.validate_trade_data now2 o = Ok (true, []).
Proof.
  intros Hnow H. unfold TradeData.new, model_new in H.
  apply validate_fields_Constructed in H as (_ & vs & Hvs & ->).
  unfold TradeData.fields in Hvs. invert_fields Hvs.
  apply field_plain in Hv as (? & _ & _ & (-> & [tid ->] & Htid)%validate_nonempty_Ok).
  apply field_plain in Hv0 as (? & _ & _ & (-> & [cid ->] & Hcid)%validate_nonempty_Ok).
  apply field_plain in Hv1 as (? & _ & _ & (-> & [s ->] & Hsym)%validate_symbol_Ok).
  apply field_before in Hv2 as (? & _ & (-> & Hside)%validate_side_Ok & _).
  apply field_before in Hv3 as (? & _ & (qs & qc & qe & -> & Hqle & Hqe)%validate_decimal_Ok & _).
  apply field_before in Hv4 as (? & _ & (ps & pc & pe & -> & Hple & Hpe)%validate_decimal_Ok & _).
  apply field_plain in Hv5 as (? & _ & _ & (-> & [t ->] & Hts)%(validate_timestamp_Ok now1 now2 _ _ Hnow)).
  apply field_plain in Hv6 as (? & _ & _ & (-> & [ven ->] & Hven)%validate_nonempty_Ok).
  eapply validate_trade_data_valid; try done.
  - by apply in_VALID_SIDES_not_None.
  - by apply _check_price_validity_nil.
  - by apply _check_price_validity_nil.
  - by eapply _check_trade_specific_rules_nil.
Qed.

(** C2.  A record that construction accepts passes the contract validator
    with no violation, for market data and for trades, when the validator
    reads the clock no earlier than construction did. *)
Theorem construct_then_validate (Decimal_of_string : string → option Decimal)
    (now1 now2 : Z) (raw : gmap string value) :
  now1 ≤ now2 →
  (∀ o, MarketData.new Decimal_of_string now1 raw = Constructed o →
        ContractValidator.validate_market_data now2 o = Ok (true, []))
  ∧ (∀ o, TradeData.new Decimal_of_string now1 raw = Constructed o →
          ContractValidator.validate_trade_data now2 o = Ok (true, [])).
Proof.
  intros Hnow. split; intros o Ho.
  - by eapply market_roundtrip.
  - by eapply trade_roundtrip.
Qed.

Lemma construct_then_validate_witness :
  Sample.now ≤ Sample.now + 1
  ∧ MarketData.new Sample.no_parse Sample.now Sample.market_raw
    = Constructed (Obj "MarketData" Sample.market_raw)
  ∧ ContractValidator.validate_market_data (Sample.now + 1)
      (Obj "MarketData" Sample.market_raw) = Ok (true, [])
  ∧ TradeData.new Sample.no_parse Sample.now Sample.trade_raw
    = Constructed (Obj "TradeData" Sample.trade_raw)
  ∧ ContractValidator.validate_trade_data (Sample.now + 1)
      (Obj "TradeData" Sample.trade_raw) = Ok (true, []).
Proof.
  assert (Hnow : Sample.now ≤ Sample.now + 1) by lia.
  assert (Hm : MarketData.new Sample.no_parse Sample.now Sample.market_raw
               = Constructed (Obj "MarketData" Sample.market_raw))
    by (vm_compute; reflexivity).
  assert (Ht : TradeData.new Sample.no_parse Sample.now Sample.trade_raw
               = Constructed (Obj "TradeData" Sample.trade_raw))
    by (vm_compute; reflexivity).
  split_and!; [exact Hnow | exact Hm | | exact Ht |].
  - exact (proj1 (construct_then_validate Sample.no_parse Sample.now (Sample.now + 1)
                    Sample.market_raw Hnow) _ Hm).
  - exact (proj2 (construct_then_validate Sample.no_parse Sample.now (Sample.now + 1)
                    Sample.trade_raw Hnow) _ Ht).
Defined.

(** ** Symbol format at construction *)

Lemma validate_symbol_str s :
  MarketData.validate_symbol (VStr s)
  = match first_violated s with
    | None => Ok (VStr s)
    | Some RuleNonEmpty => Raise (ValueError (Msg SYMBOL_FORMAT (CannotBeEmpty "symbol")))
    | Some RuleUppercase => Raise (ValueError (Msg SYMBOL_FORMAT (SymbolNotUppercase s)))
    | Some RuleLength => Raise (ValueError (Msg SYMBOL_FORMAT (SymbolLength (str_len s))))
    | Some RuleCharacters => Raise (ValueError (Msg SYMBOL_FORMAT (SymbolBadCharacters s)))
    end.
Proof.
  unfold MarketData.validate_symbol, first_violated, violates, differs_from_upper,
    bad_length, py_match, py_len, py_upper. simpl.
  destruct (bool_decide (s = EmptyString)); simpl; [done|].
  rewrite (bool_decide_ext (KStr s = KStr (upper s)) (s = upper s))
    by (split; congruence).
  destruct (bool_decide (s = upper s)); simpl; [|done].
  destruct ((str_len s <? 1)%nat || (10 <? str_len s)%nat); simpl; [done|].
  by destruct (SYMBOL_PATTERN_match s).
Qed.

Lemma errors_at_app n e1 e2 : errors_at n (e1 ++ e2) = errors_at n e1 ++ errors_at n e2.
Proof. unfold errors_at. by rewrite filter_app, fmap_app. Qed.

Lemma errors_at_field_errors n raw f :
  errors_at n (field_errors raw f)
  = if decide (name f = n)
    then match validate_field f raw with FError e => [e] | _ => [] end
    else [].
Proof.
  unfold errors_at, field_errors.
  destruct (validate_field f raw); try by case_decide.
  case_decide.
  - by rewrite filter_cons_True.
  - by rewrite filter_cons_False.
Qed.

Lemma symbol_field_errors raw s :
  raw !! "symbol"%string = Some (VStr s) →
  validate_field (Field "symbol" no_validator strict_str MarketData.validate_symbol) raw
  = match MarketData.validate_symbol (VStr s) with
    | Ok v => FValue v
    | Raise (ValueError m) => FError (ValueErr m)
    | Raise e => FRaise e
    end.
Proof. intros H. unfold validate_field. simpl. by rewrite H. Qed.

Lemma reported_rules_symbol raw s flds errors :
  raw !! "symbol"%string = Some (VStr s) →
  errors_at "symbol" (flds ≫= field_errors raw)
  = errors_at "symbol"
      (field_errors raw (Field "symbol" no_validator strict_str MarketData.validate_symbol)) →
  errors = flds ≫= field_errors raw →
  reported_rules errors = option_list (first_violated s).
Proof.
  intros Hraw Hat ->. unfold reported_rules. rewrite Hat, errors_at_field_errors.
  simpl. rewrite (symbol_field_errors _ _ Hraw), validate_symbol_str.
  by destruct (first_violated s) as [[]|].
Qed.

Lemma market_errors_at_symbol parse now raw :
  errors_at "symbol" (MarketData.fields parse now ≫= field_errors raw)
  = errors_at "symbol"
      (field_errors raw (Field "symbol" no_validator strict_str MarketData.validate_symbol)).
Proof.
  unfold MarketData.fields. cbn [mbind list_bind].
  rewrite !errors_at_app, !errors_at_field_errors. simpl.
  apply app_nil_r.
Qed.

Lemma trade_errors_at_symbol parse now raw :
  errors_at "symbol" (TradeData.fields parse now ≫= field_errors raw)
  = errors_at "symbol"
      (field_errors raw (Field "symbol" no_validator strict_str MarketData.validate_symbol)).
Proof.
  unfold TradeData.fields. cbn [mbind list_bind].
  rewrite !errors_at_app, !errors_at_field_errors. simpl.
  apply app_nil_r.
Qed.

Lemma symbol_rejects cls flds1 flds2 raw s values errors o :
  raw !! "symbol"%string = Some (VStr s) →
  is_Some (first_violated s) →
  validate_fields cls
    (flds1 ++ Field "symbol" no_validator strict_str MarketData.validate_symbol :: flds2)
    raw values errors ≠ Constructed o.
Proof.
  intros Hraw [r Hr] H. apply validate_fields_Constructed in H as (_ & vs & Hvs & _).
  apply Forall2_app_inv_l in Hvs as (vs1 & vs2 & _ & Hvs & _).
  apply Forall2_cons_inv_l in Hvs as (v & vs3 & Hv & _ & _).
  rewrite (symbol_field_errors _ _ Hraw), validate_symbol_str, Hr in Hv.
  by destruct r.
Qed.

(** C3 (as the code has it).  For a symbol given as a string, a
    [ValidationError] carries for the symbol field the first rule the
    symbol breaks, in the order non-empty, upper case, length, character
    class, and no other; a symbol that breaks a rule is never accepted. *)
Theorem symbol_reports_first_failing_rule (Decimal_of_string : string → option Decimal)
    (now : Z) (raw : gmap string value) (s : string) :
  raw !! "symbol"%string = Some (VStr s) →
  (∀ errors, MarketData.new Decimal_of_string now raw = ValidationError errors →
             reported_rules errors = option_list (first_violated s))
  ∧ (∀ errors, TradeData.new Decimal_of_string now raw = ValidationError errors →
               reported_rules errors = option_list (first_violated s))
  ∧ (is_Some (first_violated s) →
     ∀ o, MarketData.new Decimal_of_string now raw ≠ Constructed o
          ∧ TradeData.new Decimal_of_string now raw ≠ Constructed o).
Proof.
  intros Hraw. split_and!.
  - intros errors H. apply validate_fields_ValidationError in H.
    eapply reported_rules_symbol; [done | apply market_errors_at_symbol | done].
  - intros errors H. apply validate_fields_ValidationError in H.
    eapply reported_rules_symbol; [done | apply trade_errors_at_symbol | done].
  - intros Hv o. split.
    + exact (symbol_rejects "MarketData" [] _ raw s ∅ [] o Hraw Hv).
    + exact (symbol_rejects "TradeData"
        [Field "trade_id" no_validator strict_str TradeData.validate_trade_id;
         Field "client_id" no_validator strict_str TradeData.validate_client_id]
        _ raw s ∅ [] o Hraw Hv).
Qed.

Lemma symbol_reports_first_failing_rule_witness :
  ∃ errors,
    MarketData.new Sample.no_parse Sample.now
      (<["symbol" := VStr Sample.long_lower]> Sample.market_raw) = ValidationError errors
    ∧ reported_rules errors = [RuleUppercase].
Proof.
  eexists. split; [vm_compute; reflexivity|].
  refine (proj1 (symbol_reports_first_failing_rule Sample.no_parse Sample.now
    (<["symbol" := VStr Sample.long_lower]> Sample.market_raw) Sample.long_lower _) _ _).
  - vm_compute; reflexivity.
  - vm_compute; reflexivity.
Defined.

(** C3 as stated fails: construction of a record whose symbol is eleven
    lower-case letters (too long, not upper case, outside the character
    class) reports the upper-case rule only. *)
Lemma symbol_reports_every_rule_counterexample :
  violates RuleLength Sample.long_lower = true
  ∧ violates RuleUppercase Sample.long_lower = true
  ∧ violates RuleCharacters Sample.long_lower = true
  ∧ ¬ reports_every_failing_rule
        (MarketData.new Sample.no_parse Sample.now
           (<["symbol" := VStr Sample.long_lower]> Sample.market_raw))
        Sample.long_lower
  ∧ ¬ reports_every_failing_rule
        (TradeData.new Sample.no_parse Sample.now
           (<["symbol" := VStr Sample.long_lower]> Sample.trade_raw))
        Sample.long_lower.
Proof.
  assert (Hl : violates RuleLength Sample.long_lower = true) by reflexivity.
  split_and!; try reflexivity.
  - intros (errors & Hnew & Hall). specialize (Hall RuleLength Hl).
    vm_compute in Hnew. injection Hnew as <-. vm_compute in Hall.
    by repeat (apply elem_of_cons in Hall as [|Hall]; [done|]); apply elem_of_nil in Hall.
  - intros (errors & Hnew & Hall). specialize (Hall RuleLength Hl).
    vm_compute in Hnew. injection Hnew as <-. vm_compute in Hall.
    by repeat (apply elem_of_cons in Hall as [|Hall]; [done|]); apply elem_of_nil in Hall.
Qed.

(** ** The contract validator: when it answers and what it answers *)

Lemma bind_Ok {A B} (m : res A) (f : A → res B) (b : B) :
  m ≫= f = Ok b → ∃ a, m = Ok a ∧ f a = Ok b.
Proof. destruct m as [a|e]; simpl; [eauto | discriminate]. Qed.

Lemma log_fields_returns data names :
  Forall (λ n, is_Some (ob_dict data !! n)) names →
  ContractValidator.log_fields data names = Ok ().
Proof.
  induction 1 as [|n names [v Hn] _ IH]; simpl; [done|].
  unfold getattr. by rewrite Hn.
Qed.

Lemma _check_timestamp_validity_returns now t :
  comparable_datetime t →
  ∃ errors, ContractValidator._check_timestamp_validity now (VDatetime t) = Ok errors.
Proof.
  intros Hc. unfold ContractValidator._check_timestamp_validity.
  destruct (tzinfo t) as [tz|] eqn:Etz; [|eauto].
  destruct Hc as [|[off Hoff]]; [congruence|].
  unfold later_than. rewrite Hoff. simpl. eauto.
Qed.

Lemma _check_symbol_format_returns s :
  ∃ errors, ContractValidator._check_symbol_format (VStr s) = Ok errors.
Proof.
  unfold ContractValidator._check_symbol_format. destruct (truthy (VStr s)); simpl; eauto.
Qed.

Lemma is_blank_str s : ∃ b, is_blank (VStr s) = Ok b.
Proof. unfold is_blank. destruct (truthy (VStr s)); simpl; eauto. Qed.


Lemma Decimal_le_0_returns d :
  is_nan (VDecimal d) = false → ∃ b, Decimal_le_0 d = Ok b.
Proof. destruct d; simpl; [eauto | eauto | discriminate]. Qed.

Lemma Decimal_le_0_nan d :
  is_nan (VDecimal d) = true → Decimal_le_0 d = Raise InvalidOperation.
Proof. by destruct d. Qed.

Lemma nan_at_lookup data name v :
  ob_dict data !! name = Some v → nan_at data name = is_nan v.
Proof. intros H. unfold nan_at, getattr_or_None. by rewrite H. Qed.

Lemma _check_trade_specific_rules_returns data :
  well_typed_trade data → nan_at data "quantity" = false →
  ∃ errors, ContractValidator._check_trade_specific_rules data = Ok errors.
Proof.
  intros ([tid Htid] & _ & _ & [side Hside] & [q Hq] & _ & _ & [venue Hvenue]) Hnn.
  rewrite (nan_at_lookup _ _ _ Hq) in Hnn.
  unfold ContractValidator._check_trade_specific_rules, getattr.
  rewrite Hside, Hq, Htid, Hvenue. cbn [mbind res_bind].
  rewrite py_le_Decimal_0.
  destruct (Decimal_le_0_returns q Hnn) as [b ->]. cbn [mbind res_bind].
  destruct (is_blank_str tid) as [b1 ->]. destruct (is_blank_str venue) as [b2 ->].
  cbn [mbind res_bind]. eauto.
Qed.

Lemma _check_price_validity_returns v field_name :
  is_nan v = false →
  ∃ errors, ContractValidator._check_price_validity v field_name = Ok errors.
Proof.
  intros Hn. unfold ContractValidator._check_price_validity.
  destruct v as [| | | | d |]; try by eexists.
  destruct (Decimal_le_0_returns d Hn) as [b ->]. cbn [mbind res_bind].
  destruct (as_tuple d) as [[? ?] [e| |]]; repeat case_match; by eexists.
Qed.

Lemma _check_price_validity_nan v field_name :
  is_nan v = true →
  ContractValidator._check_price_validity v field_name = Raise InvalidOperation.
Proof. destruct v as [| | | | [] |]; try discriminate. done. Qed.

Lemma _check_price_validity_positive q field_name :
  Decimal_le_0 q = Ok true →
  ∃ errors,
    ContractValidator._check_price_validity (VDecimal q) field_name = Ok errors
    ∧ Msg PRICE_VALIDITY (MustBePositive field_name (VDecimal q)) ∈ errors.
Proof.
  intros Hle. unfold ContractValidator._check_price_validity. rewrite Hle.
  cbn [mbind res_bind].
  destruct (as_tuple q) as [[? ?] [e| |]]; repeat case_match;
    eexists; (split; [done|]);
    rewrite ?elem_of_app, ?list_elem_of_singleton; tauto.
Qed.

Lemma _check_price_validity_places sg c e field_name :
  5 ≤ fractional_digits (Finite sg c e) →
  ∃ errors,
    ContractValidator._check_price_validity (VDecimal (Finite sg c e)) field_name
    = Ok errors
    ∧ Msg PRICE_VALIDITY (TooManyDecimalPlaces field_name (Z.abs e)) ∈ errors.
Proof.
  intros Hd. unfold ContractValidator._check_price_validity, fractional_digits in *.
  simpl. unfold ContractValidator.MAX_DECIMAL_PLACES.
  rewrite (proj2 (Z.ltb_lt e 0)) by lia.
  rewrite (proj2 (Z.ltb_lt 4 (Z.abs e))) by lia.
  eexists. split; [done|].
  rewrite elem_of_app, list_elem_of_singleton. by right.
Qed.

(** What [validate_trade_data] returns, when it returns. *)
Lemma validate_trade_data_Ok now data ok errors :
  ContractValidator.validate_trade_data now data = Ok (ok, errors) →
  ∃ price quantity price_errors quantity_errors ts_errors sym_errors trade_errors,
    getattr data "price" = Ok price
    ∧ getattr data "quantity" = Ok quantity
    ∧ ContractValidator._check_price_validity price "price" = Ok price_errors
    ∧ ContractValidator._check_price_validity quantity "quantity" = Ok quantity_errors
    ∧ ContractValidator._check_trade_specific_rules data = Ok trade_errors
    ∧ errors = ((((ContractValidator._check_required_fields_trade data
                ++ price_errors) ++ quantity_errors)
                ++ ts_errors) ++ sym_errors) ++ trade_errors
    ∧ ok = (length errors =? 0)%nat.
Proof.
  intros H. unfold ContractValidator.validate_trade_data in H. cbv zeta in H.
  apply bind_Ok in H as (price & Hp & H).
  apply bind_Ok in H as (price_errors & Hpe & H).
  apply bind_Ok in H as (quantity & Hq & H).
  apply bind_Ok in H as (quantity_errors & Hqe & H).
  apply bind_Ok in H as (timestamp & _ & H).
  apply bind_Ok in H as (ts_errors & _ & H).
  apply bind_Ok in H as (symbol & _ & H).
  apply bind_Ok in H as (sym_errors & _ & H).
  apply bind_Ok in H as (trade_errors & Ht & H).
  apply bind_Ok in H as ([] & _ & H).
  injection H as <- <-.
  by exists price, quantity, price_errors, quantity_errors, ts_errors, sym_errors,
    trade_errors.
Qed.

Lemma validate_market_data_Ok now data ok errors :
  ContractValidator.validate_market_data now data = Ok (ok, errors) →
  ∃ price price_errors ts_errors sym_errors,
    getattr data "price" = Ok price
    ∧ ContractValidator._check_price_validity price "price" = Ok price_errors
    ∧ errors = ((ContractValidator._check_required_fields_market data
                ++ price_errors) ++ ts_errors) ++ sym_errors
    ∧ ok = (length errors =? 0)%nat.
Proof.
  intros H. unfold ContractValidator.validate_market_data in H. cbv zeta in H.
  apply bind_Ok in H as (price & Hp & H).
  apply bind_Ok in H as (price_errors & Hpe & H).
  apply bind_Ok in H as (timestamp & _ & H).
  apply bind_Ok in H as (ts_errors & _ & H).
  apply bind_Ok in H as (symbol & _ & H).
  apply bind_Ok in H as (sym_errors & _ & H).
  apply bind_Ok in H as ([] & _ & H).
  injection H as <- <-. by exists price, price_errors, ts_errors, sym_errors.
Qed.

Lemma validate_trade_data_returns now data :
  well_typed_trade data →
  nan_at data "price" = false → nan_at data "quantity" = false →
  ∃ r, ContractValidator.validate_trade_data now data = Ok r.
Proof.
  intros Hwt Hnp Hnq.
  destruct (_check_trade_specific_rules_returns data Hwt Hnq) as [te Hte].
  destruct Hwt as ([tid Htid] & [cid Hcid] & [sym Hsym] & _ & [q Hq] & [p Hp]
                   & (t & Ht & Hc) & _).
  rewrite (nan_at_lookup _ _ _ Hp) in Hnp. rewrite (nan_at_lookup _ _ _ Hq) in Hnq.
  unfold ContractValidator.validate_trade_data, getattr.
  rewrite Hp, Hq, Ht, Hsym. cbn [mbind res_bind].
  destruct (_check_price_validity_returns (VDecimal p) "price" Hnp) as [pe ->].
  cbn [mbind res_bind].
  destruct (_check_price_validity_returns (VDecimal q) "quantity" Hnq) as [qe ->].
  cbn [mbind res_bind].
  destruct (_check_timestamp_validity_returns now t Hc) as [tse ->].
  destruct (_check_symbol_format_returns sym) as [se ->].
  cbn [mbind res_bind]. rewrite Hte. cbn [mbind res_bind].
  rewrite (log_fields_returns data ["trade_id"; "client_id"; "symbol"]%string).
  2: { repeat constructor; by eexists. }
  destruct (length _ =? 0)%nat; cbn [mbind res_bind]; eauto.
Qed.

Lemma validate_market_data_returns now data :
  well_typed_market data → nan_at data "price" = false →
  ∃ r, ContractValidator.validate_market_data now data = Ok r.
Proof.
  intros ([sym Hsym] & [p Hp] & (t & Ht & Hc) & _ & [src Hsrc]) Hnn.
  rewrite (nan_at_lookup _ _ _ Hp) in Hnn.
  unfold ContractValidator.validate_market_data, getattr.
  rewrite Hp, Ht, Hsym. cbn [mbind res_bind].
  destruct (_check_price_validity_returns (VDecimal p) "price" Hnn) as [pe ->].
  cbn [mbind res_bind].
  destruct (_check_timestamp_validity_returns now t Hc) as [tse ->].
  destruct (_check_symbol_format_returns sym) as [se ->].
  cbn [mbind res_bind].
  rewrite (log_fields_returns data ["symbol"; "source"]%string).
  2: { repeat constructor; by eexists. }
  destruct (length _ =? 0)%nat; cbn [mbind res_bind]; eauto.
Qed.

Lemma validate_market_data_nan now data :
  nan_at data "price" = true →
  ContractValidator.validate_market_data now data = Raise InvalidOperation.
Proof.
  unfold nan_at, getattr_or_None. intros Hn.
  unfold ContractValidator.validate_market_data, getattr.
  destruct (ob_dict data !! "price"%string) as [p|]; [|discriminate].
  cbn [mbind res_bind]. by rewrite _check_price_validity_nan.
Qed.

Lemma validate_trade_data_nan now data :
  is_Some (ob_dict data !! "price"%string) →
  is_Some (ob_dict data !! "quantity"%string) →
  nan_at data "price" || nan_at data "quantity" = true →
  ContractValidator.validate_trade_data now data = Raise InvalidOperation.
Proof.
  unfold nan_at, getattr_or_None. intros [p Hp] [q Hq]. rewrite Hp, Hq. simpl.
  intros Hn. unfold ContractValidator.validate_trade_data, getattr.
  rewrite Hp, Hq. cbn [mbind res_bind].
  destruct (is_nan p) eqn:Ep.
  - by rewrite (_check_price_validity_nan p "price" Ep).
  - destruct (_check_price_validity_returns p "price" Ep) as [pe ->].
    cbn [mbind res_bind]. by rewrite (_check_price_validity_nan q "quantity" Hn).
Qed.

Lemma length_eqb_0_false {A} (l : list A) x : x ∈ l → (length l =? 0)%nat = false.
Proof. intros H. destruct l; [by apply elem_of_nil in H | done]. Qed.




Lemma validate_decimal_accepts tag field_name parse sg c e :
  Decimal_le_0 (Finite sg c e) = Ok false →
  fractional_digits (Finite sg c e) ≤ 4 →
  MarketData.validate_decimal tag field_name parse (VDecimal (Finite sg c e))
  = Ok (VDecimal (Finite sg c e)).
Proof.
  intros Hle Hd. unfold MarketData.validate_decimal. cbn [mbind res_bind].
  rewrite Hle. simpl as_tuple. cbv iota beta.
  unfold MarketData.MAX_DECIMAL_PLACES, fractional_digits in *.
  destruct (e <? 0) eqn:He; [|done]. apply Z.ltb_lt in He.
  by rewrite (proj2 (Z.ltb_ge 4 (Z.abs e))) by lia.
Qed.

Lemma validate_decimal_rejects contract_tag field_name parse d :
  Decimal_le_0 d = Ok true ∨ 5 ≤ fractional_digits d →
  ∃ m, MarketData.validate_decimal contract_tag field_name parse (VDecimal d)
       = Raise (ValueError m)
       ∧ tag m = contract_tag.
Proof.
  intros Hd. unfold MarketData.validate_decimal. cbn [mbind res_bind].
  destruct (Decimal_le_0 d) as [[]|x] eqn:Hle; cbn [mbind res_bind].
  - by eexists.
  - destruct Hd as [|Hd]; [discriminate|].
    destruct d as [sg c e|sg|sg pl i]; simpl in Hd; [|lia|lia].
    simpl as_tuple. cbv iota beta. unfold MarketData.MAX_DECIMAL_PLACES.
    rewrite (proj2 (Z.ltb_lt e 0)) by lia.
    rewrite (proj2 (Z.ltb_lt 4 (Z.abs e))) by lia. by eexists.
  - destruct d; try discriminate.
    destruct Hd as [|Hd]; [discriminate | simpl in Hd; lia].
Qed.

Lemma field_rejects cls flds1 f flds2 raw values errors o :
  (∀ v, validate_field f raw ≠ FValue v) →
  validate_fields cls (flds1 ++ f :: flds2) raw values errors ≠ Constructed o.
Proof.
  intros Hf H. apply validate_fields_Constructed in H as (_ & vs & Hvs & _).
  apply Forall2_app_inv_l in Hvs as (vs1 & vs2 & _ & Hvs & _).
  apply Forall2_cons_inv_l in Hvs as (v & vs3 & Hv & _ & _).
  by apply (Hf v).
Qed.

Lemma decimal_field_rejects n contract_tag parse d raw v :
  Decimal_le_0 d = Ok true ∨ 5 ≤ fractional_digits d →
  validate_field
    (Field n (MarketData.validate_decimal contract_tag n parse) strict_Decimal no_validator)
    (<[n := VDecimal d]> raw) ≠ FValue v.
Proof.
  intros Hd. unfold validate_field. simpl. rewrite lookup_insert_eq.
  destruct (validate_decimal_rejects contract_tag n parse d Hd) as (m & Hm & _).
  unfold run_validator at 1. by rewrite Hm.
Qed.

Lemma decimal_field_accepts n contract_tag parse sg c e raw :
  Decimal_le_0 (Finite sg c e) = Ok false →
  fractional_digits (Finite sg c e) ≤ 4 →
  validate_field
    (Field n (MarketData.validate_decimal contract_tag n parse) strict_Decimal no_validator)
    (<[n := VDecimal (Finite sg c e)]> raw) = FValue (VDecimal (Finite sg c e)).
Proof.
  intros Hle Hd. unfold validate_field. simpl. rewrite lookup_insert_eq.
  unfold run_validator at 1. by rewrite validate_decimal_accepts.
Qed.

Lemma validate_field_insert_ne f n v raw :
  name f ≠ n → validate_field f (<[n := v]> raw) = validate_field f raw.
Proof. intros Hn. unfold validate_field. by rewrite lookup_insert_ne. Qed.

Lemma has_tag_price d field_name :
  Decimal_le_0 d = Ok true ∨ 5 ≤ fractional_digits d →
  ∃ errors,
    ContractValidator._check_price_validity (VDecimal d) field_name = Ok errors
    ∧ has_tag PRICE_VALIDITY errors.
Proof.
  intros [Hle|Hd].
  - destruct (_check_price_validity_positive d field_name Hle) as (errors & He & Hin).
    exists errors. split; [done|]. by eexists.
  - destruct d as [sg c e|sg|sg pl i]; [|simpl in Hd; lia..].
    destruct (_check_price_validity_places sg c e field_name Hd) as (errors & He & Hin).
    exists errors. split; [done|]. by eexists.
Qed.

Lemma has_tag_app c l1 l2 : has_tag c l1 ∨ has_tag c l2 → has_tag c (l1 ++ l2).
Proof.
  intros [(m & Hm & Ht)|(m & Hm & Ht)]; exists m; rewrite elem_of_app; tauto.
Qed.

Lemma has_tag_nonempty c l : has_tag c l → (length l =? 0)%nat = false.
Proof. intros (m & Hm & _). by eapply length_eqb_0_false. Qed.

Lemma market_accepts_price parse now raw o sg c e :
  Decimal_le_0 (Finite sg c e) = Ok false →
  fractional_digits (Finite sg c e) ≤ 4 →
  MarketData.new parse now raw = Constructed o →
  MarketData.new parse now (<["price" := VDecimal (Finite sg c e)]> raw)
  = Constructed (Obj "MarketData" (<["price" := VDecimal (Finite sg c e)]> (ob_dict o))).
Proof.
  intros Hle Hd H. unfold MarketData.new, model_new in *.
  apply validate_fields_Constructed in H as (_ & vs & Hvs & ->).
  unfold MarketData.fields in *. invert_fields Hvs.
  erewrite (validate_fields_values _ _ _ _ [_; VDecimal (Finite sg c e); _; _; _]).
  2: { repeat constructor; try (rewrite validate_field_insert_ne by done; eassumption).
       by apply decimal_field_accepts. }
  reflexivity.
Qed.

Lemma trade_accepts_price_quantity parse now raw o sg c e :
  Decimal_le_0 (Finite sg c e) = Ok false →
  fractional_digits (Finite sg c e) ≤ 4 →
  TradeData.new parse now raw = Constructed o →
  TradeData.new parse now
    (<["price" := VDecimal (Finite sg c e)]> (<["quantity" := VDecimal (Finite sg c e)]> raw))
  = Constructed (Obj "TradeData"
      (<["price" := VDecimal (Finite sg c e)]>
         (<["quantity" := VDecimal (Finite sg c e)]> (ob_dict o)))).
Proof.
  intros Hle Hd H. unfold TradeData.new, model_new in *.
  apply validate_fields_Constructed in H as (_ & vs & Hvs & ->).
  unfold TradeData.fields in *. invert_fields Hvs.
  erewrite (validate_fields_values _ _ _ _
    [_; _; _; _; VDecimal (Finite sg c e); VDecimal (Finite sg c e); _; _]).
  2: { repeat constructor;
         try (rewrite !validate_field_insert_ne by done; eassumption).
       - rewrite validate_field_insert_ne by done. by apply decimal_field_accepts.
       - by apply decimal_field_accepts. }
  reflexivity.
Qed.


(** C8.  A finite positive [Decimal] with at most four fractional digits is
    accepted as price and as quantity, and stored as given.  A [Decimal]
    that is not positive or has five or more fractional digits is rejected
    by construction, and the validator's price check reports it under
    PRICE_VALIDITY, for price and for quantity.  On a record whose fields
    have the declared types the validator answers exactly when neither
    price nor quantity is a NaN, whose comparison with zero raises
    [InvalidOperation].  The checks read the sign, the coefficient and the
    exponent of the decimal: no binary floating point value occurs. *)
Theorem decimal_precision_spec (Decimal_of_string : string → option Decimal) :
  (∀ sg c e,
     let d := Finite sg c e in
     Decimal_le_0 d = Ok false → fractional_digits d ≤ 4 →
     MarketData.validate_price Decimal_of_string (VDecimal d) = Ok (VDecimal d)
     ∧ TradeData.validate_price Decimal_of_string (VDecimal d) = Ok (VDecimal d)
     ∧ TradeData.validate_quantity Decimal_of_string (VDecimal d) = Ok (VDecimal d)
     ∧ (∀ now raw o,
          MarketData.new Decimal_of_string now raw = Constructed o →
          MarketData.new Decimal_of_string now (<["price" := VDecimal d]> raw)
          = Constructed (Obj "MarketData" (<["price" := VDecimal d]> (ob_dict o))))
     ∧ (∀ now raw o,
          TradeData.new Decimal_of_string now raw = Constructed o →
          TradeData.new Decimal_of_string now
            (<["price" := VDecimal d]> (<["quantity" := VDecimal d]> raw))
          = Constructed (Obj "TradeData"
              (<["price" := VDecimal d]> (<["quantity" := VDecimal d]> (ob_dict o))))))
  ∧ (∀ d,
       Decimal_le_0 d = Ok true ∨ 5 ≤ fractional_digits d →
       (∀ now raw o,
          MarketData.new Decimal_of_string now (<["price" := VDecimal d]> raw)
          ≠ Constructed o)
       ∧ (∀ now raw o,
            TradeData.new Decimal_of_string now (<["price" := VDecimal d]> raw)
            ≠ Constructed o)
       ∧ (∀ now raw o,
            TradeData.new Decimal_of_string now (<["quantity" := VDecimal d]> raw)
            ≠ Constructed o)
       ∧ (∀ field_name,
          ∃ errors,
            ContractValidator._check_price_validity (VDecimal d) field_name = Ok errors
            ∧ has_tag PRICE_VALIDITY errors)
       ∧ (∀ now data ok errors,
            ob_dict data !! "price"%string = Some (VDecimal d) →
            ContractValidator.validate_market_data now data = Ok (ok, errors) →
            ok = false ∧ has_tag PRICE_VALIDITY errors)
       ∧ (∀ now data ok errors,
            ob_dict data !! "price"%string = Some (VDecimal d)
            ∨ ob_dict data !! "quantity"%string = Some (VDecimal d) →
            ContractValidator.validate_trade_data now data = Ok (ok, errors) →
            ok = false ∧ has_tag PRICE_VALIDITY errors))
  ∧ (∀ now data,
       (well_typed_market data →
        if nan_at data "price"
        then ContractValidator.validate_market_data now data = Raise InvalidOperation
        else ∃ r, ContractValidator.validate_market_data now data = Ok r)
       ∧ (well_typed_trade data →
          if nan_at data "price" || nan_at data "quantity"
          then ContractValidator.validate_trade_data now data = Raise InvalidOperation
          else ∃ r, ContractValidator.validate_trade_data now data = Ok r)).
Proof.
  split_and!.
  - intros sg c e d Hle Hd. split_and!.
    + by apply validate_decimal_accepts.
    + by apply validate_decimal_accepts.
    + by apply validate_decimal_accepts.
    + intros now raw o. by apply market_accepts_price.
    + intros now raw o. by apply trade_accepts_price_quantity.
  - intros d Hd. split_and!.
    + intros now raw o.
      apply (field_rejects "MarketData"
               [Field "symbol" no_validator strict_str MarketData.validate_symbol]).
      intros v. by apply decimal_field_rejects.
    + intros now raw o.
      apply (field_rejects "TradeData"
               [Field "trade_id" no_validator strict_str TradeData.validate_trade_id;
                Field "client_id" no_validator strict_str TradeData.validate_client_id;
                Field "symbol" no_validator strict_str TradeData.validate_symbol;
                Field "side" TradeData.validate_side
                  (strict_Literal ["BUY"; "SELL"]%string) no_validator;
                Field "quantity" (TradeData.validate_quantity Decimal_of_string)
                  strict_Decimal no_validator]).
      intros v. by apply decimal_field_rejects.
    + intros now raw o.
      apply (field_rejects "TradeData"
               [Field "trade_id" no_validator strict_str TradeData.validate_trade_id;
                Field "client_id" no_validator strict_str TradeData.validate_client_id;
                Field "symbol" no_validator strict_str TradeData.validate_symbol;
                Field "side" TradeData.validate_side
                  (strict_Literal ["BUY"; "SELL"]%string) no_validator]).
      intros v. by apply decimal_field_rejects.
    + intros field_name. by apply has_tag_price.
    + intros now data ok errors Hp H.
      apply validate_market_data_Ok in H as (price & pe & tse & se & Hp' & Hpe & -> & ->).
      unfold getattr in Hp'. rewrite Hp in Hp'. injection Hp' as <-.
      destruct (has_tag_price d "price" Hd) as (pe' & Hpe' & Htag).
      rewrite Hpe in Hpe'. injection Hpe' as <-.
      assert (Ht : has_tag PRICE_VALIDITY
        (((ContractValidator._check_required_fields_market data ++ pe) ++ tse) ++ se)).
      { do 2 (apply has_tag_app; left). apply has_tag_app; by right. }
      split; [by eapply has_tag_nonempty | done].
    + intros now data ok errors Hpq H.
      apply validate_trade_data_Ok in H
        as (price & quantity & pe & qe & tse & se & te & Hp' & Hq' & Hpe & Hqe & _ & -> & ->).
      unfold getattr in Hp', Hq'.
      assert (Ht : has_tag PRICE_VALIDITY
        (((((ContractValidator._check_required_fields_trade data ++ pe) ++ qe)
           ++ tse) ++ se) ++ te)).
      { do 3 (apply has_tag_app; left). destruct Hpq as [Hp|Hq].
        - rewrite Hp in Hp'. injection Hp' as <-.
          destruct (has_tag_price d "price" Hd) as (pe' & Hpe' & Htag).
          rewrite Hpe in Hpe'. injection Hpe' as <-.
          apply has_tag_app; left. apply has_tag_app; by right.
        - rewrite Hq in Hq'. injection Hq' as <-.
          destruct (has_tag_price d "quantity" Hd) as (qe' & Hqe' & Htag).
          rewrite Hqe in Hqe'. injection Hqe' as <-.
          apply has_tag_app; by right. }
      split; [by eapply has_tag_nonempty | done].
  - intros now data. split.
    + intros Hwt. destruct (nan_at data "price") eqn:Hn.
      * by apply validate_market_data_nan.
      * by apply validate_market_data_returns.
    + intros Hwt. destruct (nan_at data "price" || nan_at data "quantity") eqn:Hn.
      * destruct Hwt as (_ & _ & _ & _ & [q Hq] & [p Hp] & _).
        apply validate_trade_data_nan; [by eexists | by eexists | done].
      * apply orb_false_elim in Hn as [Hnp Hnq].
        by apply validate_trade_data_returns.
Qed.

(** C1 (what the code does).  A record whose timestamp is [None] makes the
    validator raise instead of returning its pair, for market data and for
    trades: [AttributeError] from the timestamp check, unless the price
    check before it has already raised [InvalidOperation] on a NaN. *)
Theorem validate_raises_on_null_timestamp (now : Z) (data : pyobj) :
  ob_dict data !! "timestamp"%string = Some VNone →
  (is_Some (ob_dict data !! "price"%string) →
   ContractValidator.validate_market_data now data
   = Raise (if nan_at data "price" then InvalidOperation else AttributeError))
  ∧ (is_Some (ob_dict data !! "price"%string) →
     is_Some (ob_dict data !! "quantity"%string) →
     ContractValidator.validate_trade_data now data
     = Raise (if nan_at data "price" || nan_at data "quantity"
              then InvalidOperation else AttributeError)).
Proof.
  intros Hts. split.
  - intros [p Hp]. destruct (nan_at data "price") eqn:Hn.
    + by apply validate_market_data_nan.
    + rewrite (nan_at_lookup _ _ _ Hp) in Hn.
      unfold ContractValidator.validate_market_data, getattr.
      rewrite Hp, Hts. cbn [mbind res_bind].
      by destruct (_check_price_validity_returns p "price" Hn) as [pe ->].
  - intros [p Hp] [q Hq].
    destruct (nan_at data "price" || nan_at data "quantity") eqn:Hn.
    + apply validate_trade_data_nan; [by eexists | by eexists | done].
    + apply orb_false_elim in Hn as [Hnp Hnq].
      rewrite (nan_at_lookup _ _ _ Hp) in Hnp. rewrite (nan_at_lookup _ _ _ Hq) in Hnq.
      unfold ContractValidator.validate_trade_data, getattr.
      rewrite Hp, Hq, Hts. cbn [mbind res_bind].
      destruct (_check_price_validity_returns p "price" Hnp) as [pe ->].
      cbn [mbind res_bind].
      by destruct (_check_price_validity_returns q "quantity" Hnq) as [qe ->].
Qed.

Lemma validate_raises_on_null_timestamp_witness :
  ContractValidator.validate_market_data Sample.now Sample.null_timestamp_market
  = Raise AttributeError
  ∧ ContractValidator.validate_trade_data Sample.now Sample.null_timestamp_trade
    = Raise AttributeError.
Proof.
  split.
  - refine (proj1 (validate_raises_on_null_timestamp Sample.now
                     Sample.null_timestamp_market _) _).
    + reflexivity.
    + eexists. reflexivity.
  - refine (proj2 (validate_raises_on_null_timestamp Sample.now
                     Sample.null_timestamp_trade _) _ _).
    + reflexivity.
    + eexists. reflexivity.
    + eexists. reflexivity.
Defined.

(** A trade whose quantity is [None] makes the validator raise [TypeError]
    in the trade-specific rules, after the price check has reported it. *)
Example validate_raises_on_null_quantity (now : Z) :
  ContractValidator._check_price_validity VNone "quantity"
  = Ok [Msg PRICE_VALIDITY (MustBeDecimalType "quantity" NoneType)]
  ∧ ContractValidator.validate_trade_data now Sample.null_quantity_trade
    = Raise TypeError.
Proof. split; reflexivity. Qed.


Lemma decimal_precision_spec_witness :
  MarketData.new Sample.no_parse Sample.now
    (<["price" := VDecimal Sample.d100]> Sample.market_raw)
  = Constructed (Obj "MarketData" (<["price" := VDecimal Sample.d100]> Sample.market_raw))
  ∧ (∀ o, MarketData.new Sample.no_parse Sample.now
            (<["price" := VDecimal Sample.d1_five_places]> Sample.market_raw)
          ≠ Constructed o)
  ∧ (∃ errors,
       ContractValidator._check_price_validity (VDecimal Sample.d1_five_places) "price"
       = Ok errors
       ∧ has_tag PRICE_VALIDITY errors).
Proof.
  destruct (decimal_precision_spec Sample.no_parse) as (Hacc & Hrej & _).
  split_and!.
  - refine (proj1 (proj2 (proj2 (proj2 (Hacc false 1000000%N (-4) _ _))))
              Sample.now Sample.market_raw (Obj "MarketData" Sample.market_raw) _).
    + reflexivity.
    + vm_compute. discriminate.
    + vm_compute. reflexivity.
  - intros o.
    refine (proj1 (Hrej Sample.d1_five_places _) Sample.now Sample.market_raw o).
    right. vm_compute. discriminate.
  - refine (proj1 (proj2 (proj2 (proj2 (Hrej Sample.d1_five_places _)))) "price"%string).
    right. vm_compute. discriminate.
Defined.

Lemma check_monotonic_timestamps_spec_witness :
  comparable Sample.out_of_order
  ∧ check_monotonic_timestamps Sample.out_of_order = Ok false
  ∧ ¬ in_order Sample.out_of_order 1.
Proof.
  assert (Hc : comparable Sample.out_of_order).
  { intros i c n Hi Hn _ _.
    destruct i as [|[|[|i]]]; simpl in Hi, Hn; try discriminate;
      injection Hi as <-; injection Hn as <-; reflexivity. }
  assert (Hno : ¬ in_order Sample.out_of_order 1).
  { intros (c & n & Hi & Hn & _ & _ & Hle).
    simpl in Hi, Hn. injection Hi as <-. injection Hn as <-.
    vm_compute in Hle. discriminate. }
  destruct (proj2 (proj2 check_monotonic_timestamps_spec) Sample.out_of_order Hc)
    as (violations & answer & _ & Hrun & Hans & _).
  destruct answer.
  - exfalso. apply Hno. apply (proj1 Hans eq_refl). simpl. lia.
  - split_and!; [exact Hc | exact Hrun | exact Hno].
Defined.

Lemma check_referential_integrity_spec_witness :
  check_referential_integrity [Sample.zzzz_trade] {["AAPL"%string]} false = true
  ∧ check_referential_integrity [Sample.zzzz_trade] {["AAPL"%string]} true = false.
Proof.
  destruct (check_referential_integrity_spec {["AAPL"%string]}) as (Hadv & Hstrict & _).
  split; [apply Hadv|]. apply Hstrict.
  exists 0%nat, Sample.zzzz_trade. split; [reflexivity|]. split.
  - by vm_compute.
  - intros s Hs. vm_compute in Hs. injection Hs as <-.
    by intros ?%elem_of_singleton.
Defined.

Lemma check_uniqueness_spec_witness :
  check_uniqueness
    [Sample.trade "TRD-001" "C1"; Sample.anonymous; Sample.trade "TRD-002" "C1"]
    "trade_id" (Some "client_id"%string)
  = check_uniqueness [Sample.trade "TRD-001" "C1"; Sample.trade "TRD-002" "C1"]
      "trade_id" (Some "client_id"%string).
Proof.
  refine (proj1 (proj2 (proj2 check_uniqueness_spec))
            [Sample.trade "TRD-001" "C1"] Sample.anonymous
            [Sample.trade "TRD-002" "C1"] "trade_id"%string
            (Some "client_id"%string) _).
  intros H. by apply H.
Defined.

Lemma check_idempotency_spec_witness :
  check_idempotency Sample.out_of_order Sample.out_of_order = true
  ∧ check_idempotency [Sample.zzzz_trade] [] = false.
Proof.
  split.
  - exact (proj1 (proj2 check_idempotency_spec) Sample.out_of_order).
  - exact (proj2 (proj2 check_idempotency_spec) Sample.zzzz_trade).
Defined.

(** * Further properties *)

(** ** More on idempotency and completeness *)

Lemma check_idempotency_Forall2 batch1 batch2 :
  check_idempotency batch1 batch2 = true ↔ Forall2 py_equal batch1 batch2.
Proof.
  unfold check_idempotency.
  destruct (length batch1 =? length batch2)%nat eqn:Hlen; simpl.
  - apply Nat.eqb_eq in Hlen.
    rewrite <- (idempotency_differences_nil _ _ Hlen).
    destruct (idempotency_differences batch1 batch2); split; congruence.
  - apply Nat.eqb_neq in Hlen. split; [discriminate|].
    intros H. apply Forall2_length in H. contradiction.
Qed.

(** X1.  [check_idempotency] is symmetric and transitive: batches that pass
    against a common batch pass against each other. *)
Theorem check_idempotency_equivalence :
  (∀ batch1 batch2,
     check_idempotency batch1 batch2 = check_idempotency batch2 batch1)
  ∧ (∀ batch1 batch2 batch3,
       check_idempotency batch1 batch2 = true →
       check_idempotency batch2 batch3 = true →
       check_idempotency batch1 batch3 = true).
Proof.
  split.
  - intros batch1 batch2.
    apply (bool_eq_by_iff _ _ (Forall2 py_equal batch1 batch2)).
    + apply check_idempotency_Forall2.
    + rewrite check_idempotency_Forall2.
      split; induction 1; constructor; done.
  - intros batch1 batch2 batch3. rewrite !check_idempotency_Forall2.
    intros H12 H23. eapply Forall2_trans; [|exact H12|exact H23].
    intros x y z Hxy Hyz. unfold py_equal in *. congruence.
Qed.

Lemma check_idempotency_equivalence_witness :
  check_idempotency [Sample.zzzz_trade] [Sample.zzzz_trade] = true.
Proof.
  refine (proj2 check_idempotency_equivalence
            [Sample.zzzz_trade] [Sample.zzzz_trade] [Sample.zzzz_trade] _ _);
    reflexivity.
Defined.

Lemma differences_fold (l : list (nat * (pyobj * pyobj))) (acc : list nat) :
  foldl (λ differences '(i, (item1, item2)),
           if py_ne item1 item2 then differences ++ [i] else differences) acc l
  = acc ++ (fst <$> filter (λ p, ¬ py_equal p.2.1 p.2.2) l).
Proof.
  revert acc. induction l as [|[i [a b]] l IH]; intros acc; simpl.
  - by rewrite app_nil_r.
  - rewrite IH. destruct (py_ne a b) eqn:E.
    + rewrite filter_cons_True.
      2: { simpl. intros H. apply py_ne_false in H. congruence. }
      by rewrite <- app_assoc.
    + apply py_ne_false in E. by rewrite filter_cons_False by (simpl; tauto).
Qed.

Lemma elem_of_enumerate {A} (l : list A) (i : nat) (x : A) :
  (i, x) ∈ enumerate l ↔ l !! i = Some x.
Proof.
  unfold enumerate. rewrite list_elem_of_lookup. split.
  - intros [j Hj]. apply lookup_zip_with_Some in Hj as (i' & x' & [= <- <-] & Hs & Hx).
    apply lookup_seq in Hs as [-> _]. done.
  - intros Hi. exists i. apply lookup_zip_with_Some. exists i, x.
    split_and!; [done | | done]. apply lookup_seq. split; [done|].
    by eapply lookup_lt_Some.
Qed.

(** X2.  The indices [check_idempotency] collects for its diagnostic are
    exactly the positions, common to both batches, where the two records
    differ: none is left out and none is added. *)
Theorem idempotency_differences_exact (batch1 batch2 : list pyobj) (i : nat) :
  i ∈ idempotency_differences batch1 batch2
  ↔ ∃ x y, batch1 !! i = Some x ∧ batch2 !! i = Some y ∧ ¬ py_equal x y.
Proof.
  unfold idempotency_differences. rewrite differences_fold, app_nil_l.
  rewrite list_elem_of_fmap. split.
  - intros ([j [x y]] & -> & Hin). apply list_elem_of_filter in Hin as [Hne Hin].
    apply elem_of_enumerate in Hin. apply lookup_zip_with_Some in Hin
      as (x' & y' & [= <- <-] & Hx & Hy). by exists x, y.
  - intros (x & y & Hx & Hy & Hne). exists (i, (x, y)). split; [done|].
    apply list_elem_of_filter. split; [done|]. apply elem_of_enumerate.
    apply lookup_zip_with_Some. by exists x, y.
Qed.

Lemma null_indices_fold (l : list (nat * option pyobj)) (acc : list nat) :
  foldl (λ null_indices '(i, item),
           match item with
           | None => null_indices ++ [i]
           | Some _ => null_indices
           end) acc l
  = acc ++ (fst <$> filter (λ p, p.2 = None) l).
Proof.
  revert acc. induction l as [|[i [x|]] l IH]; intros acc; cbn [foldl].
  - by rewrite filter_nil, app_nil_r.
  - rewrite IH. by rewrite filter_cons_False by (simpl; congruence).
  - rewrite IH, filter_cons_True by done. by rewrite <- app_assoc.
Qed.

Lemma null_indices_exact batch i :
  i ∈ null_indices batch ↔ batch !! i = Some None.
Proof.
  unfold null_indices. rewrite null_indices_fold, app_nil_l, list_elem_of_fmap. split.
  - intros ([j x] & -> & Hin). apply list_elem_of_filter in Hin as [Hn Hin].
    apply elem_of_enumerate in Hin. simpl in *. by subst.
  - intros Hi. exists (i, None). split; [done|].
    apply list_elem_of_filter. split; [done|]. by apply elem_of_enumerate.
Qed.

(** X3.  [check_completeness] is true exactly of a batch that is not empty
    and has no [None] entry, and the indices it collects are exactly those
    of the [None] entries. *)
Theorem check_completeness_spec (batch : list (option pyobj)) :
  (check_completeness batch = true
   ↔ batch ≠ [] ∧ ∀ i item, batch !! i = Some item → item ≠ None)
  ∧ (∀ i, i ∈ null_indices batch ↔ batch !! i = Some None).
Proof.
  split; [|apply null_indices_exact].
  unfold check_completeness. destruct batch as [|x batch].
  { split; [discriminate | intros [H _]; by destruct H]. }
  cbv beta iota.
  assert (Hne : x :: batch ≠ []) by done.
  revert Hne. generalize (x :: batch). intros l Hne.
  assert (Hnil : null_indices l = []
                 ↔ ∀ i item, l !! i = Some item → item ≠ None).
  { split.
    - intros Hn i item Hi ->. apply null_indices_exact in Hi.
      rewrite Hn in Hi. by apply elem_of_nil in Hi.
    - intros Hall. destruct (null_indices l) as [|j js] eqn:E; [done|].
      assert (Hj : j ∈ null_indices l) by (rewrite E; by left).
      apply null_indices_exact in Hj. by destruct (Hall j None Hj). }
  destruct (null_indices l) eqn:E.
  - split; [intros _; split; [done | by apply Hnil] | done].
  - split; [discriminate|]. intros [_ Hall]. by apply Hnil in Hall.
Qed.

(** ** More on uniqueness and referential integrity *)

Lemma filter_sublist {A} (P : A → Prop) `{∀ x, Decision (P x)} (l1 l2 : list A) :
  l1 `sublist_of` l2 → filter P l1 `sublist_of` filter P l2.
Proof.
  induction 1 as [|x l1 l2 _ IH|x l1 l2 _ IH].
  - constructor.
  - rewrite !filter_cons. destruct (decide (P x)); [by constructor | done].
  - rewrite filter_cons. destruct (decide (P x)); [by constructor | done].
Qed.

(** X4.  The answer of [check_uniqueness] does not depend on the order of
    the records, and a batch that passes keeps passing when records are
    removed from it. *)
Theorem check_uniqueness_order_and_removal (key : string) (scope_key : option string)
    (records records' : list pyobj) :
  (records ≡ₚ records' →
   check_uniqueness records key scope_key = check_uniqueness records' key scope_key)
  ∧ (records' `sublist_of` records →
     check_uniqueness records key scope_key = true →
     check_uniqueness records' key scope_key = true).
Proof.
  split.
  - intros Hp.
    apply (bool_eq_by_iff _ _ (NoDup (scoped_keys key scope_key records))).
    + apply check_uniqueness_NoDup.
    + rewrite check_uniqueness_NoDup. unfold scoped_keys. by rewrite Hp.
  - rewrite !check_uniqueness_NoDup. unfold scoped_keys. intros Hs Hn.
    eapply sublist_NoDup; [exact Hn|]. apply fmap_sublist. by apply filter_sublist.
Qed.

Lemma check_uniqueness_order_and_removal_witness :
  check_uniqueness [Sample.trade "TRD-002" "C1"; Sample.trade "TRD-001" "C1"]
    "trade_id" (Some "client_id"%string)
  = check_uniqueness [Sample.trade "TRD-001" "C1"; Sample.trade "TRD-002" "C1"]
      "trade_id" (Some "client_id"%string)
  ∧ check_uniqueness [Sample.trade "TRD-002" "C1"] "trade_id" (Some "client_id"%string)
    = true.
Proof.
  split.
  - refine (proj1 (check_uniqueness_order_and_removal "trade_id"
              (Some "client_id"%string) _ _) _).
    apply Permutation_swap.
  - refine (proj2 (check_uniqueness_order_and_removal "trade_id"
              (Some "client_id"%string)
              [Sample.trade "TRD-002" "C1"; Sample.trade "TRD-001" "C1"]
              [Sample.trade "TRD-002" "C1"]) _ _).
    + apply sublist_skip. apply sublist_cons. constructor.
    + reflexivity.
Defined.

(** X5.  Uniqueness over the whole batch implies uniqueness within every
    scope: a batch that passes with no scope field passes with any. *)
Theorem check_uniqueness_global_implies_scoped (records : list pyobj) (key : string)
    (scope_key : option string) :
  check_uniqueness records key None = true →
  check_uniqueness records key scope_key = true.
Proof.
  rewrite !check_uniqueness_pairs. intros Hall i j x y Hij Hi Hj Hx Hy _.
  by apply (Hall i j x y).
Qed.

Lemma check_uniqueness_global_implies_scoped_witness :
  check_uniqueness [Sample.trade "TRD-001" "C1"; Sample.trade "TRD-002" "C1"]
    "trade_id" (Some "client_id"%string) = true.
Proof.
  apply (check_uniqueness_global_implies_scoped
           [Sample.trade "TRD-001" "C1"; Sample.trade "TRD-002" "C1"]).
  reflexivity.
Defined.

Lemma check_referential_integrity_strict trades known_symbols :
  check_referential_integrity trades known_symbols true = true
  ↔ Forall (λ trade, ¬ unknown_symbol known_symbols trade) trades.
Proof.
  rewrite Forall_forall.
  destruct (check_referential_integrity trades known_symbols true) eqn:E.
  - split; [intros _|done]. intros trade Hin Hu.
    assert (Hf : check_referential_integrity trades known_symbols true = false).
    { unfold check_referential_integrity in *. destruct trades as [|t l]; [by apply elem_of_nil in Hin|].
      revert Hin E. generalize (t :: l). intros l' Hin E.
      rewrite bool_decide_eq_false_2; [done|].
      apply unknown_symbols_nonempty, Exists_exists. eauto. }
    congruence.
  - split; [discriminate|]. intros Hall. exfalso.
    unfold check_referential_integrity in E. destruct trades as [|t l]; [done|].
    revert Hall E. generalize (t :: l). intros l' Hall E.
    destruct (bool_decide (unknown_symbols l' known_symbols = ∅)) eqn:Eb; [done|].
    apply bool_decide_eq_false, unknown_symbols_nonempty, Exists_exists in Eb
      as (trade & Hin & Hu). by apply (Hall trade).
Qed.

(** X6.  In strict mode a batch passes exactly when its parts pass, and a
    batch that passes against a set of symbols passes against every larger
    set. *)
Theorem check_referential_integrity_composes (known_symbols known_symbols' : gset string)
    (trades1 trades2 : list pyobj) :
  check_referential_integrity (trades1 ++ trades2) known_symbols true
  = check_referential_integrity trades1 known_symbols true
    && check_referential_integrity trades2 known_symbols true
  ∧ (known_symbols ⊆ known_symbols' →
     check_referential_integrity trades1 known_symbols true = true →
     check_referential_integrity trades1 known_symbols' true = true).
Proof.
  split.
  - apply (bool_eq_by_iff _ _
      (Forall (λ trade, ¬ unknown_symbol known_symbols trade) (trades1 ++ trades2))).
    + apply check_referential_integrity_strict.
    + rewrite andb_true_iff, !check_referential_integrity_strict, Forall_app. done.
  - intros Hsub. rewrite !check_referential_integrity_strict.
    intros H. eapply Forall_impl; [exact H|].
    intros trade Hk [Hp Hu]. apply Hk. split; [done|].
    intros s Hs Hin. apply (Hu s Hs). by apply Hsub.
Qed.

Lemma check_referential_integrity_composes_witness :
  check_referential_integrity [Sample.zzzz_trade] {["AAPL"; "ZZZZ"]}%string true = true.
Proof.
  refine (proj2 (check_referential_integrity_composes {["ZZZZ"%string]}
            {["AAPL"; "ZZZZ"]}%string [Sample.zzzz_trade] []) _ _).
  - set_solver.
  - vm_compute. reflexivity.
Defined.

(** ** More on timestamp ordering *)

Lemma py_compare_raises a b e :
  py_compare a b = Raise e →
  e = TypeError ∨ (e = InvalidOperation ∧ (is_nan a = true ∨ is_nan b = true)).
Proof.
  unfold py_compare.
  destruct a as [| ? | ? | ? | [| |] | ?], b as [| ? | ? | ? | [| |] | ?]; simpl;
    repeat case_match; intros [= <-]; auto.
Qed.

Lemma monotonic_loop_Ok batch indices violations result :
  monotonic_loop batch indices violations = Ok result →
  Forall (λ i, ∀ current next_item,
            batch !! i = Some current → batch !! (i + 1)%nat = Some next_item →
            present current "timestamp" → present next_item "timestamp" →
            is_Ok (py_compare (timestamp_of current) (timestamp_of next_item)) = true)
         indices.
Proof.
  revert violations. induction indices as [|i rest IH]; intros violations H; [constructor|].
  simpl in H. unfold item in H.
  destruct (batch !! i) as [c|] eqn:Hc; [|discriminate].
  destruct (batch !! (i + 1)%nat) as [n|] eqn:Hn; [|discriminate].
  simpl in H. fold (timestamp_of c) (timestamp_of n) in H.
  destruct (is_None (timestamp_of c) || is_None (timestamp_of n)) eqn:En.
  - constructor; [|by eapply IH].
    intros c' n' Hc' Hn' Hpc Hpn. rewrite Hc in Hc'. rewrite Hn in Hn'.
    injection Hc' as <-. injection Hn' as <-. unfold present in *.
    apply is_None_false in Hpc, Hpn. unfold timestamp_of in En.
    rewrite Hpc, Hpn in En. discriminate.
  - unfold py_gt in H.
    destruct (py_compare (timestamp_of c) (timestamp_of n)) as [cmp|] eqn:Ecmp;
      [|discriminate].
    simpl in H. constructor.
    + intros c' n' Hc' Hn' _ _. rewrite Hc in Hc'. rewrite Hn in Hn'.
      injection Hc' as <-. injection Hn' as <-. by rewrite Ecmp.
    + destruct (is_Gt cmp); by eapply IH.
Qed.

Lemma monotonic_loop_raises batch indices violations e :
  monotonic_loop batch indices violations = Raise e →
  Forall (λ i, (i + 1 < length batch)%nat) indices →
  e = TypeError
  ∨ (e = InvalidOperation
     ∧ ∃ record, record ∈ batch ∧ nan_at record "timestamp" = true).
Proof.
  revert violations. induction indices as [|i rest IH]; intros violations H Hb;
    [discriminate|].
  apply Forall_cons in Hb as [Hi Hb].
  destruct (lookup_lt_is_Some_2 batch i) as [c Hc]; [lia|].
  destruct (lookup_lt_is_Some_2 batch (i + 1)) as [n Hn]; [lia|].
  simpl in H. unfold item in H. rewrite Hc, Hn in H. simpl in H.
  destruct (is_None _ || is_None _); [by eapply IH|].
  unfold py_gt in H.
  destruct (py_compare _ _) as [cmp|e'] eqn:Ecmp; simpl in H.
  - destruct (is_Gt cmp); by eapply IH.
  - injection H as <-.
    apply py_compare_raises in Ecmp as [->|[-> [Hnan|Hnan]]]; [by left | right..].
    + split; [done|]. exists c. split; [by eapply list_elem_of_lookup_2 | done].
    + split; [done|]. exists n. split; [by eapply list_elem_of_lookup_2 | done].
Qed.

Lemma check_monotonic_Ok_comparable batch answer :
  check_monotonic_timestamps batch = Ok answer → comparable batch.
Proof.
  unfold check_monotonic_timestamps.
  destruct (length batch <=? 1)%nat eqn:Hlen.
  - intros _ i c n Hc Hn. apply Nat.leb_le in Hlen.
    apply lookup_lt_Some in Hn. lia.
  - destruct (monotonic_violations batch) as [vs|] eqn:Hv; [|discriminate].
    intros _. unfold monotonic_violations in Hv. apply monotonic_loop_Ok in Hv.
    rewrite Forall_forall in Hv. intros i c n Hc Hn. apply (Hv i); [|done..].
    apply elem_of_seq. apply lookup_lt_Some in Hn. lia.
Qed.

Lemma in_order_comparable batch :
  (∀ i, (i + 1 < length batch)%nat → in_order batch i) → comparable batch.
Proof.
  intros Hall i c n Hc Hn _ _.
  destruct (Hall i) as (c' & n' & Hc' & Hn' & _ & _ & Hle).
  { apply lookup_lt_Some in Hn. lia. }
  rewrite Hc in Hc'. rewrite Hn in Hn'. injection Hc' as <-. injection Hn' as <-.
  unfold py_le in Hle. by destruct (py_compare _ _).
Qed.

Lemma check_monotonic_answer batch :
  comparable batch →
  ∃ answer, check_monotonic_timestamps batch = Ok answer
            ∧ (answer = true ↔ ∀ i, (i + 1 < length batch)%nat → in_order batch i).
Proof.
  intros Hcmp.
  destruct (monotonic_violations_spec batch Hcmp) as (violations & Hrun & _ & Hnil).
  unfold check_monotonic_timestamps.
  destruct (length batch <=? 1)%nat eqn:Hlen.
  - exists true. split; [done|]. apply Nat.leb_le in Hlen.
    split; [|done]. intros _ i Hi. lia.
  - rewrite Hrun. simpl. destruct violations as [|v vs].
    + exists true. split; [done|]. split; [intros _; by apply Hnil | done].
    + exists false. split; [done|]. split; [discriminate|].
      intros Hall. by apply Hnil in Hall.
Qed.

Lemma check_monotonic_true_iff batch :
  check_monotonic_timestamps batch = Ok true
  ↔ ∀ i, (i + 1 < length batch)%nat → in_order batch i.
Proof.
  split.
  - intros H. pose proof (check_monotonic_Ok_comparable _ _ H) as Hcmp.
    destruct (check_monotonic_answer batch Hcmp) as (answer & Hrun & Hans).
    rewrite H in Hrun. injection Hrun as <-. by apply Hans.
  - intros Hall. pose proof (in_order_comparable batch Hall) as Hcmp.
    destruct (check_monotonic_answer batch Hcmp) as (answer & Hrun & Hans).
    rewrite Hrun. f_equal. by apply Hans.
Qed.

(** X7.  [check_monotonic_timestamps] returns true exactly when every
    adjacent pair of the batch is in order.  It raises exactly when the
    batch has two records or more and the timestamps of some adjacent pair
    cannot be ordered, and what it raises is [TypeError], or
    [InvalidOperation] when some timestamp is a NaN; nothing else. *)
Theorem check_monotonic_timestamps_outcomes (batch : list pyobj) :
  (check_monotonic_timestamps batch = Ok true
   ↔ ∀ i, (i + 1 < length batch)%nat → in_order batch i)
  ∧ (∀ e, check_monotonic_timestamps batch = Raise e →
          e = TypeError
          ∨ (e = InvalidOperation
             ∧ ∃ record, record ∈ batch ∧ nan_at record "timestamp" = true))
  ∧ ((∃ e, check_monotonic_timestamps batch = Raise e)
     ↔ (2 ≤ length batch)%nat ∧ ¬ comparable batch).
Proof.
  split_and!.
  - apply check_monotonic_true_iff.
  - intros e. unfold check_monotonic_timestamps.
    destruct (length batch <=? 1)%nat; [discriminate|].
    destruct (monotonic_violations batch) as [vs|e'] eqn:Hv.
    + simpl. by destruct vs.
    + simpl. intros [= <-]. unfold monotonic_violations in Hv.
      eapply monotonic_loop_raises; [exact Hv|].
      apply Forall_forall. intros i Hi. apply elem_of_seq in Hi. lia.
  - split.
    + intros [e H]. split.
      * unfold check_monotonic_timestamps in H.
        destruct (length batch <=? 1)%nat eqn:Hlen; [discriminate|].
        apply Nat.leb_gt in Hlen. lia.
      * intros Hcmp. destruct (check_monotonic_answer batch Hcmp) as (a & Hrun & _).
        congruence.
    + intros [_ Hn]. destruct (check_monotonic_timestamps batch) as [a|e] eqn:E.
      * destruct Hn. by eapply check_monotonic_Ok_comparable.
      * by exists e.
Qed.

Lemma check_monotonic_timestamps_outcomes_witness :
  check_monotonic_timestamps
    [Sample.market Sample.t0; Sample.market (Sample.naive 2025 1 15 14 30 10)]
  = Raise TypeError.
Proof.
  destruct (proj2 (proj2 (proj2 (check_monotonic_timestamps_outcomes
    [Sample.market Sample.t0; Sample.market (Sample.naive 2025 1 15 14 30 10)]))))
    as [e He].
  { split; [simpl; lia|]. intros Hcmp.
    specialize (Hcmp 0%nat _ _ eq_refl eq_refl). vm_compute in Hcmp.
    assert (H : false = true) by (apply Hcmp; discriminate). discriminate. }
  rewrite He. f_equal.
  destruct (proj1 (proj2 (check_monotonic_timestamps_outcomes _)) e He)
    as [->|[_ (r & Hr & Hn)]]; [done|].
  repeat (apply elem_of_cons in Hr as [->|Hr]; [vm_compute in Hn; discriminate|]).
  by apply elem_of_nil in Hr.
Defined.

Lemma Sorted_lookup (zs : list Z) :
  Sorted Z.le zs
  ↔ ∀ i a b, zs !! i = Some a → zs !! (i + 1)%nat = Some b → a ≤ b.
Proof.
  induction zs as [|z zs IH].
  - split; [intros _ i a b Hi; by rewrite lookup_nil in Hi | constructor].
  - split.
    + intros Hs. apply Sorted_inv in Hs as [Hs Hd]. intros i a b Hi Hj.
      destruct i as [|i]; simpl in *.
      * injection Hi as <-. destruct zs as [|z' zs']; [done|].
        injection Hj as <-. by apply HdRel_inv in Hd.
      * by apply (proj1 IH Hs i).
    + intros Hall. constructor.
      * apply IH. intros i a b Hi Hj. by apply (Hall (S i)).
      * destruct zs as [|z' zs']; constructor. by apply (Hall 0%nat).
Qed.

Lemma instant_of_compare c n a b :
  instant_of c = Some a → instant_of n = Some b → one_offset_per_zone c n →
  py_compare (timestamp_of c) (timestamp_of n) = Ok (a ?= b).
Proof.
  unfold instant_of, one_offset_per_zone.
  destruct (timestamp_of c) as [| | | | |t]; try discriminate.
  destruct (timestamp_of n) as [| | | | |u]; try discriminate.
  destruct (utcoffset t) as [o1|] eqn:E1; [|discriminate].
  destruct (utcoffset u) as [o2|] eqn:E2; [|discriminate].
  simpl. intros [= <-] [= <-] Hz. unfold py_compare. simpl. rewrite E1, E2.
  destruct (same_tzobject t u) eqn:Es; [|done].
  specialize (Hz t u eq_refl eq_refl Es). rewrite E1, E2 in Hz. injection Hz as ->.
  f_equal. unfold utc_us.
  destruct (Z.compare_spec (wall_us t) (wall_us u)),
    (Z.compare_spec (wall_us t - o2) (wall_us u - o2)); try done; lia.
Qed.

Lemma instant_of_ordered c n a b :
  instant_of c = Some a → instant_of n = Some b → one_offset_per_zone c n →
  ordered_pair c n ↔ a ≤ b.
Proof.
  intros Ha Hb Hz. pose proof (instant_of_compare c n a b Ha Hb Hz) as Hcmp.
  unfold ordered_pair, present, py_le. rewrite Hcmp. simpl.
  unfold instant_of in Ha, Hb. fold (timestamp_of c) (timestamp_of n).
  destruct (timestamp_of c); try discriminate.
  destruct (timestamp_of n); try discriminate.
  destruct (a ?= b) eqn:Ec; simpl.
  - apply Z.compare_eq_iff in Ec. split; [intros _; lia | done].
  - change (a < b) in Ec. split; [intros _; lia | done].
  - change (a > b) in Ec. split; [by intros (_ & _ & [=]) | lia].
Qed.

Lemma in_order_ordered_pair batch i :
  in_order batch i
  ↔ ∃ c n, batch !! i = Some c ∧ batch !! (i + 1)%nat = Some n ∧ ordered_pair c n.
Proof. unfold in_order, ordered_pair. naive_solver. Qed.

(** X8.  On a batch whose records all carry aware timestamps, no two
    neighbours attached to one tzinfo object at different offsets (as on
    either side of a daylight-saving change), the check never raises and is
    true exactly when the instants are sorted.  Timestamps with a
    [timezone], such as the UTC timestamps of constructed records, are of
    this kind. *)
Theorem check_monotonic_timestamps_sorted (batch : list pyobj) (instants : list Z) :
  Forall2 (λ record z, instant_of record = Some z) batch instants →
  (∀ i current next_item,
     batch !! i = Some current → batch !! (i + 1)%nat = Some next_item →
     one_offset_per_zone current next_item) →
  (∃ answer, check_monotonic_timestamps batch = Ok answer)
  ∧ (check_monotonic_timestamps batch = Ok true ↔ Sorted Z.le instants).
Proof.
  intros Hf Hz.
  assert (Hpair : ∀ i c n, batch !! i = Some c → batch !! (i + 1)%nat = Some n →
            ∃ a b, instants !! i = Some a ∧ instants !! (i + 1)%nat = Some b
                   ∧ (ordered_pair c n ↔ a ≤ b)).
  { intros i c n Hc Hn.
    destruct (Forall2_lookup_l _ _ _ _ _ Hf Hc) as (a & Ha & Hia).
    destruct (Forall2_lookup_l _ _ _ _ _ Hf Hn) as (b & Hb & Hib).
    exists a, b. split_and!; [done..|]. apply instant_of_ordered; eauto. }
  split.
  - assert (Hcmp : comparable batch).
    { intros i c n Hc Hn _ _.
      destruct (Forall2_lookup_l _ _ _ _ _ Hf Hc) as (a & _ & Hia).
      destruct (Forall2_lookup_l _ _ _ _ _ Hf Hn) as (b & _ & Hib).
      by rewrite (instant_of_compare c n a b Hia Hib (Hz i c n Hc Hn)). }
    destruct (check_monotonic_answer batch Hcmp) as (answer & Hrun & _). eauto.
  - rewrite check_monotonic_true_iff, Sorted_lookup.
    pose proof (Forall2_length _ _ _ Hf) as Hlen. split.
    + intros Hall i a b Ha Hb.
      assert (Hi : (i + 1 < length batch)%nat).
      { apply lookup_lt_Some in Hb. lia. }
      apply Hall, in_order_ordered_pair in Hi as (c & n & Hc & Hn & Ho).
      destruct (Hpair i c n Hc Hn) as (a' & b' & Ha' & Hb' & Hiff).
      rewrite Ha in Ha'. rewrite Hb in Hb'. injection Ha' as <-. injection Hb' as <-.
      by apply Hiff.
    + intros Hall i Hi. apply in_order_ordered_pair.
      destruct (lookup_lt_is_Some_2 batch i) as [c Hc]; [lia|].
      destruct (lookup_lt_is_Some_2 batch (i + 1)) as [n Hn]; [lia|].
      exists c, n. split_and!; [done..|].
      destruct (Hpair i c n Hc Hn) as (a & b & Ha & Hb & Hiff).
      apply Hiff. by apply (Hall i).
Qed.

Lemma check_monotonic_timestamps_sorted_witness :
  ¬ Sorted Z.le
      [wall_us Sample.t0; wall_us (Sample.utc 2025 1 15 14 30 10);
       wall_us (Sample.utc 2025 1 15 14 30 5)].
Proof.
  intros Hs.
  assert (Hz : ∀ i c n, Sample.out_of_order !! i = Some c →
                        Sample.out_of_order !! (i + 1)%nat = Some n →
                        one_offset_per_zone c n).
  { intros i c n Hc Hn t u Ht Hu Hsame.
    destruct i as [|[|[|i]]]; simpl in Hc, Hn; try discriminate;
      injection Hc as <-; injection Hn as <-;
      injection Ht as <-; injection Hu as <-; discriminate. }
  apply (proj2 (check_monotonic_timestamps_sorted Sample.out_of_order _
    ltac:(repeat constructor) Hz)) in Hs.
  vm_compute in Hs. discriminate.
Defined.

(** Across the end of daylight saving time the wall clock runs backwards:
    01:30 at UTC-4 comes before 01:10 at UTC-5, and the check, which orders
    two datetimes of one zone object by their wall-clock readings, finds
    them out of order. *)
Example check_monotonic_timestamps_fold :
  let new_york := tzobject 1 in
  let before := mkdatetime 2024 11 3 1 30 0 0 (Some (new_york (Some (-14400000000)))) in
  let after := mkdatetime 2024 11 3 1 10 0 0 (Some (new_york (Some (-18000000000)))) in
  instant_of (Sample.market before) = Some (wall_us before + 14400000000)
  ∧ instant_of (Sample.market after) = Some (wall_us after + 18000000000)
  ∧ wall_us before + 14400000000 ≤ wall_us after + 18000000000
  ∧ check_monotonic_timestamps [Sample.market before; Sample.market after] = Ok false.
Proof. vm_compute. split_and!; [done | done | discriminate | done]. Qed.

(** X9.  A concatenation of two batches is in timestamp order exactly when
    both parts are and the last record of the first with the first record
    of the second, taken as neighbours, are. *)
Theorem check_monotonic_timestamps_app (batch1 batch2 : list pyobj) :
  check_monotonic_timestamps (batch1 ++ batch2) = Ok true
  ↔ check_monotonic_timestamps batch1 = Ok true
    ∧ check_monotonic_timestamps batch2 = Ok true
    ∧ ∀ c n, last batch1 = Some c → head batch2 = Some n → ordered_pair c n.
Proof.
  rewrite !check_monotonic_true_iff. setoid_rewrite in_order_ordered_pair.
  rewrite length_app. split.
  - intros Hall. split_and!.
    + intros i Hi. destruct (Hall i) as (c & n & Hc & Hn & Ho); [lia|].
      rewrite lookup_app_l in Hc, Hn by lia. eauto.
    + intros i Hi. destruct (Hall (length batch1 + i)%nat) as (c & n & Hc & Hn & Ho); [lia|].
      rewrite lookup_app_r in Hc, Hn by lia.
      replace (length batch1 + i - length batch1)%nat with i in Hc by lia.
      replace (length batch1 + i + 1 - length batch1)%nat with (i + 1)%nat in Hn by lia.
      eauto.
    + intros c n Hl Hh. rewrite last_lookup in Hl. rewrite head_lookup in Hh.
      assert (Hlen1 : (0 < length batch1)%nat).
      { destruct batch1; [done | simpl; lia]. }
      assert (Hlen2 : (0 < length batch2)%nat) by by eapply lookup_lt_Some.
      destruct (Hall (pred (length batch1))) as (c' & n' & Hc & Hn & Ho); [lia|].
      rewrite lookup_app_l in Hc by lia. rewrite lookup_app_r in Hn by lia.
      replace (pred (length batch1) + 1 - length batch1)%nat with 0%nat in Hn by lia.
      rewrite Hl in Hc. rewrite Hh in Hn. by injection Hc as <-; injection Hn as <-.
  - intros (H1 & H2 & Hb) i Hi.
    destruct (decide (i + 1 < length batch1)%nat) as [Hlt|Hge].
    + destruct (H1 i Hlt) as (c & n & Hc & Hn & Ho). exists c, n.
      by rewrite !lookup_app_l by lia.
    + destruct (decide (length batch1 ≤ i)%nat) as [Hle|Hbd].
      * destruct (H2 (i - length batch1)%nat) as (c & n & Hc & Hn & Ho); [lia|].
        exists c, n. rewrite !lookup_app_r by lia.
        replace (i + 1 - length batch1)%nat with (i - length batch1 + 1)%nat by lia.
        done.
      * assert (Hi1 : i = pred (length batch1)) by lia.
        destruct (lookup_lt_is_Some_2 batch1 i) as [c Hc]; [lia|].
        destruct (lookup_lt_is_Some_2 batch2 0) as [n Hn]; [lia|].
        exists c, n. rewrite lookup_app_l by lia. rewrite lookup_app_r by lia.
        replace (i + 1 - length batch1)%nat with 0%nat by lia.
        split_and!; [done..|]. apply Hb.
        -- rewrite last_lookup. by rewrite <- Hi1.
        -- by rewrite head_lookup.
Qed.

Lemma check_monotonic_timestamps_app_witness :
  check_monotonic_timestamps
    ([Sample.market Sample.t0] ++ [Sample.market (Sample.utc 2025 1 15 14 30 10)])
  = Ok true.
Proof.
  apply (proj2 (check_monotonic_timestamps_app _ _)). split_and!.
  - vm_compute. reflexivity.
  - vm_compute. reflexivity.
  - intros c n [= <-] [= <-]. split_and!; [vm_compute; discriminate ..|].
    vm_compute. reflexivity.
Defined.

(** ** The symbol rules *)

Lemma upper_char_symbol c : symbol_char c = true → upper_char c = c.
Proof.
  unfold symbol_char, upper_char, between.
  destruct (N_of_ascii c) as [|p] eqn:E; [done|].
  intros H. destruct ((97 <=? N.pos p)%N && (N.pos p <=? 122)%N) eqn:Hl; [|done].
  exfalso. apply andb_prop in Hl as [H1 H2].
  apply N.leb_le in H1, H2.
  repeat (apply orb_prop in H as [H|H]); apply andb_prop in H as [H3 H4];
    apply N.leb_le in H3, H4; lia.
Qed.

Lemma upper_char_newline : upper_char newline = newline.
Proof. reflexivity. Qed.

Lemma symbol_char_not_space c : symbol_char c = true → isspace c = false.
Proof.
  unfold symbol_char, isspace, between. intros H.
  apply orb_false_iff. split; apply andb_false_iff;
    repeat (apply orb_prop in H as [H|H]); apply andb_prop in H as [H3 H4];
    apply N.leb_le in H3, H4; rewrite !N.leb_gt; lia.
Qed.

Lemma upper_fixed l :
  Forall (λ c, upper_char c = c) l →
  upper (string_of_list_ascii l) = string_of_list_ascii l.
Proof.
  intros H. unfold upper, chars. rewrite list_ascii_of_string_of_list_ascii.
  f_equal. induction H as [|c l Hc _ IH]; simpl; [done|]. by rewrite Hc, IH.
Qed.

Lemma class_1_10_Forall l :
  class_1_10 l = true
  ↔ (1 ≤ length l ≤ 10)%nat ∧ Forall (λ c, symbol_char c = true) l.
Proof.
  unfold class_1_10. rewrite !andb_true_iff, forallb_forall, Forall_forall.
  rewrite !Nat.leb_le. setoid_rewrite list_elem_of_In. tauto.
Qed.

Lemma SYMBOL_PATTERN_match_iff s :
  SYMBOL_PATTERN_match s = true
  ↔ ticker (chars s) ∨ ∃ body, chars s = body ++ [newline] ∧ ticker body.
Proof.
  unfold SYMBOL_PATTERN_match, ticker. rewrite orb_true_iff.
  apply or_iff_compat_l. destruct (rev (chars s)) as [|c body] eqn:E.
  - split; [discriminate|]. intros (body & Hb & _).
    rewrite Hb, rev_app_distr in E. discriminate.
  - rewrite andb_true_iff, bool_decide_eq_true.
    assert (Hs : chars s = rev body ++ [c]).
    { rewrite <- (rev_involutive (chars s)), E. done. }
    split.
    + intros [-> Hc]. by exists (rev body).
    + intros (b & Hb & Hc). rewrite Hb in Hs. apply app_inj_tail in Hs as [-> <-]. done.
Qed.

Lemma SYMBOL_PATTERN_match_upper s : SYMBOL_PATTERN_match s = true → upper s = s.
Proof.
  intros H. apply SYMBOL_PATTERN_match_iff in H.
  rewrite <- (string_of_list_ascii_of_string s). fold (chars s).
  apply upper_fixed.
  destruct H as [H | (body & -> & H)]; apply class_1_10_Forall in H as [_ H].
  - eapply Forall_impl; [exact H|]. apply upper_char_symbol.
  - apply Forall_app. split; [|by repeat constructor].
    eapply Forall_impl; [exact H|]. apply upper_char_symbol.
Qed.

(** X10.  A symbol that matches the pattern is its own upper-casing: the
    upper-case rule never fails alone, so the validator reports a symbol
    that is not upper case under the character-class rule as well. *)
Theorem uppercase_rule_subsumed (s : string) :
  (SYMBOL_PATTERN_match s = true → upper s = s)
  ∧ (violates RuleUppercase s = true → violates RuleCharacters s = true)
  ∧ (violates RuleUppercase s = true →
     ∃ errors,
       ContractValidator._check_symbol_format (VStr s) = Ok errors
       ∧ Msg SYMBOL_FORMAT (SymbolNotUppercase s) ∈ errors
       ∧ Msg SYMBOL_FORMAT (SymbolBadCharacters s) ∈ errors).
Proof.
  pose proof (SYMBOL_PATTERN_match_upper s) as Hup.
  assert (Hsub : violates RuleUppercase s = true → violates RuleCharacters s = true).
  { simpl. rewrite !negb_true_iff, bool_decide_eq_false.
    intros Hne. destruct (SYMBOL_PATTERN_match s) eqn:E; [|done].
    destruct Hne. symmetry. by apply Hup. }
  split_and!; [done..|]. intros Hu. pose proof (Hsub Hu) as Hc. simpl in Hu, Hc.
  unfold ContractValidator._check_symbol_format, bad_length, py_len, differs_from_upper,
    py_upper, py_match. simpl.
  assert (Hne : s ≠ EmptyString).
  { intros ->. by vm_compute in Hu. }
  rewrite (bool_decide_eq_false_2 _ Hne). simpl.
  rewrite (bool_decide_ext (KStr s = KStr (upper s)) (s = upper s))
    by (split; congruence).
  rewrite Hu, Hc. eexists. split; [done|].
  rewrite !elem_of_app, !list_elem_of_singleton. tauto.
Qed.

Lemma uppercase_rule_subsumed_witness :
  violates RuleCharacters "aapl" = true.
Proof.
  apply (proj1 (proj2 (uppercase_rule_subsumed "aapl"))). reflexivity.
Defined.

(** X11.  The symbol check of the validator reports every rule a
    non-empty symbol breaks among length, upper case and character class,
    in that order; of the empty symbol it reports only that it is empty. *)
Theorem _check_symbol_format_reports_all (s : string) :
  ∃ errors,
    ContractValidator._check_symbol_format (VStr s) = Ok errors
    ∧ validator_rules errors
      = if bool_decide (s = EmptyString) then [RuleNonEmpty]
        else filter (λ rule, violates rule s = true)
               [RuleLength; RuleUppercase; RuleCharacters].
Proof.
  unfold ContractValidator._check_symbol_format, bad_length, py_len, differs_from_upper,
    py_upper, py_match. simpl.
  destruct (bool_decide (s = EmptyString)) eqn:Ee; simpl; [by eexists|].
  rewrite (bool_decide_ext (KStr s = KStr (upper s)) (s = upper s))
    by (split; congruence).
  eexists. split; [done|]. unfold validator_rules. rewrite !filter_cons, filter_nil.
  simpl.
  destruct ((str_len s <? 1)%nat || (10 <? str_len s)%nat) eqn:E1;
  destruct (bool_decide (s = upper s)) eqn:E2;
  destruct (SYMBOL_PATTERN_match s) eqn:E3; simpl; repeat case_decide; done.
Qed.

(** ** Construction against the validator, field by field *)

Lemma str_len_chars s : str_len s = length (chars s).
Proof. unfold str_len, chars. induction s; simpl; congruence. Qed.

Lemma chars_nil s : chars s = [] ↔ s = EmptyString.
Proof. destruct s; simpl; split; congruence. Qed.

Lemma first_violated_None s :
  first_violated s = None
  ↔ ticker (chars s)
    ∨ ∃ body, chars s = body ++ [newline] ∧ ticker body ∧ (length body ≤ 9)%nat.
Proof.
  unfold first_violated, violates. rewrite str_len_chars.
  destruct (bool_decide (s = EmptyString)) eqn:Ee.
  { apply bool_decide_eq_true in Ee as ->. split; [discriminate|].
    intros [H | (body & Hb & _)]; [by vm_compute in H|].
    simpl in Hb. by destruct body. }
  destruct (SYMBOL_PATTERN_match s) eqn:Em.
  - pose proof (SYMBOL_PATTERN_match_upper s Em) as Hup.
    rewrite (bool_decide_eq_true_2 (s = upper s)) by done. simpl.
    apply SYMBOL_PATTERN_match_iff in Em.
    destruct ((length (chars s) <? 1)%nat || (10 <? length (chars s))%nat) eqn:El.
    + split; [discriminate|]. intros H. exfalso. apply orb_prop in El.
      rewrite !Nat.ltb_lt in El.
      destruct H as [H | (body & Hb & H & Hl)].
      * apply class_1_10_Forall in H. lia.
      * rewrite Hb, length_app in El. simpl in El.
        apply class_1_10_Forall in H. lia.
    + split; [intros _|done]. apply orb_false_iff in El as [_ El].
      apply Nat.ltb_ge in El.
      destruct Em as [H | (body & Hb & H)]; [by left|]. right. exists body.
      split_and!; [done..|]. rewrite Hb, length_app in El. simpl in El. lia.
  - assert (Hno : ¬ (ticker (chars s)
       ∨ ∃ body, chars s = body ++ [newline] ∧ ticker body ∧ (length body ≤ 9)%nat)).
    { intros H. assert (Hm : SYMBOL_PATTERN_match s = true); [|congruence].
      apply SYMBOL_PATTERN_match_iff.
      destruct H as [H | (body & Hb & H & _)]; [by left | right; by exists body]. }
    simpl. repeat match goal with |- context [if ?b then _ else _] => destruct b end;
      split; done.
Qed.

(** X12.  Construction accepts as symbol exactly the strings made of one
    to ten characters of [A-Z], [0-9] and the period, and those made of one
    to nine such characters followed by one newline; it stores the string
    as given and accepts no value that is not a string. *)
Theorem validate_symbol_accepts (v w : value) :
  MarketData.validate_symbol v = Ok w
  ↔ w = v
    ∧ ∃ s, v = VStr s
           ∧ (ticker (chars s)
              ∨ ∃ body, chars s = body ++ [newline] ∧ ticker body
                        ∧ (length body ≤ 9)%nat).
Proof.
  split.
  - intros H. destruct (validate_symbol_Ok _ _ H) as (-> & [s ->] & _).
    split; [done|]. exists s. split; [done|]. apply first_violated_None.
    rewrite validate_symbol_str in H. by destruct (first_violated s) as [[]|].
  - intros (-> & s & -> & Hs). apply first_violated_None in Hs.
    by rewrite validate_symbol_str, Hs.
Qed.

Lemma validate_symbol_accepts_witness :
  MarketData.validate_symbol (VStr (String "A" (String "A" (String newline EmptyString))))
  = Ok (VStr (String "A" (String "A" (String newline EmptyString)))).
Proof.
  apply (proj2 (validate_symbol_accepts _ _)). split; [done|].
  eexists. split; [done|]. right. exists ["A"; "A"]%char.
  split_and!; [vm_compute; reflexivity | vm_compute; reflexivity | simpl; lia].
Defined.

Lemma _check_symbol_format_nil v :
  ContractValidator._check_symbol_format v = Ok [] → MarketData.validate_symbol v = Ok v.
Proof.
  unfold ContractValidator._check_symbol_format, MarketData.validate_symbol.
  destruct (truthy v); simpl; [|discriminate].
  unfold bad_length, py_len, differs_from_upper, py_upper, py_match.
  destruct v as [| | |s| |]; simpl; try discriminate.
  destruct ((str_len s <? 1)%nat || (10 <? str_len s)%nat); simpl;
  destruct (bool_decide (KStr s = KStr (upper s))); simpl;
  destruct (SYMBOL_PATTERN_match s); simpl; try discriminate. done.
Qed.

Lemma _check_timestamp_validity_nil now v :
  ContractValidator._check_timestamp_validity now v = Ok [] →
  MarketData.validate_timestamp now v = Ok v.
Proof.
  unfold ContractValidator._check_timestamp_validity, MarketData.validate_timestamp.
  destruct v as [| | | | |t]; try discriminate.
  destruct (tzinfo t); [|discriminate].
  unfold later_than. destruct (utcoffset t) as [off|]; simpl; [|discriminate].
  unfold ContractValidator.MAX_FUTURE_MINUTES, MarketData.MAX_FUTURE_MINUTES,
    ContractValidator.MIN_VALID_YEAR, MarketData.MIN_VALID_YEAR.
  destruct (off =? 0); simpl;
  destruct (now + timedelta_minutes 5 <? utc_us t off); simpl;
  destruct (year t <? 2000); simpl; try discriminate. done.
Qed.

(** X13.  Field by field, and read at the same clock, construction accepts
    a value exactly when the validator finds nothing to report: for the
    symbol, for the timestamp, and for a [Decimal] price or quantity with
    one exception, the positive infinity, which the validator passes and on
    which construction raises [TypeError].  On a NaN both raise
    [InvalidOperation]. *)
Theorem construction_agrees_with_validator (Decimal_of_string : string → option Decimal)
    (now : Z) :
  (∀ v, MarketData.validate_symbol v = Ok v
        ↔ ContractValidator._check_symbol_format v = Ok [])
  ∧ (∀ v, MarketData.validate_timestamp now v = Ok v
          ↔ ContractValidator._check_timestamp_validity now v = Ok [])
  ∧ (∀ contract_tag field_name d,
       d ≠ Infinity false →
       MarketData.validate_decimal contract_tag field_name Decimal_of_string (VDecimal d)
       = Ok (VDecimal d)
       ↔ ContractValidator._check_price_validity (VDecimal d) field_name = Ok [])
  ∧ (∀ contract_tag field_name,
       ContractValidator._check_price_validity (VDecimal (Infinity false)) field_name
       = Ok []
       ∧ MarketData.validate_decimal contract_tag field_name Decimal_of_string
           (VDecimal (Infinity false)) = Raise TypeError)
  ∧ (∀ contract_tag field_name d,
       is_nan (VDecimal d) = true →
       ContractValidator._check_price_validity (VDecimal d) field_name
       = Raise InvalidOperation
       ∧ MarketData.validate_decimal contract_tag field_name Decimal_of_string
           (VDecimal d) = Raise InvalidOperation).
Proof.
  split_and!.
  - intros v. split; [|apply _check_symbol_format_nil].
    intros H. by destruct (validate_symbol_Ok _ _ H) as (_ & _ & ?).
  - intros v. split; [|apply _check_timestamp_validity_nil].
    intros H. by destruct (validate_timestamp_Ok now now _ _ (Z.le_refl _) H) as (_ & _ & ?).
  - intros contract_tag field_name d Hd.
    unfold MarketData.validate_decimal, ContractValidator._check_price_validity.
    cbn [mbind res_bind].
    unfold MarketData.MAX_DECIMAL_PLACES, ContractValidator.MAX_DECIMAL_PLACES.
    destruct d as [sg c e|[]|sg pl i]; simpl; [|done..].
    destruct (sg || (c =? 0)%N); simpl.
    + split; [discriminate|]. repeat case_match; discriminate.
    + destruct (e <? 0); simpl; [|done]. destruct (4 <? Z.abs e); done.
  - intros contract_tag field_name. done.
  - intros contract_tag field_name [| |sg pl i]; [discriminate..|]. done.
Qed.

Lemma construction_agrees_with_validator_witness :
  MarketData.validate_decimal PRICE_VALIDITY "price" Sample.no_parse
    (VDecimal Sample.d175_43) = Ok (VDecimal Sample.d175_43).
Proof.
  apply (proj1 (proj2 (proj2 (construction_agrees_with_validator Sample.no_parse 0)))
           PRICE_VALIDITY "price"%string Sample.d175_43); [discriminate|].
  reflexivity.
Defined.

Lemma lstrip_chars_nil l : lstrip_chars l = [] ↔ forallb isspace l = true.
Proof.
  induction l as [|c l IH]; simpl; [done|].
  destruct (isspace c); simpl; [done|]. split; discriminate.
Qed.

Lemma lstrip_chars_head l c l' : lstrip_chars l = c :: l' → isspace c = false.
Proof.
  induction l as [|x l IH]; simpl; [discriminate|].
  destruct (isspace x) eqn:E; [done|]. by intros [= <- _].
Qed.

Lemma strip_empty s : strip s = EmptyString ↔ all_space s = true.
Proof.
  unfold strip, all_space. rewrite <- lstrip_chars_nil.
  destruct (lstrip_chars (chars s)) as [|c l] eqn:E; [done|].
  split; [|discriminate]. intros H. exfalso.
  apply lstrip_chars_head in E.
  assert (Hr : rev (lstrip_chars (rev (c :: l))) = []).
  { destruct (rev (lstrip_chars (rev (c :: l)))); [done|discriminate]. }
  apply (f_equal (@rev ascii)) in Hr. rewrite rev_involutive in Hr. simpl in Hr.
  apply lstrip_chars_nil in Hr. rewrite forallb_app in Hr. simpl in Hr.
  rewrite E in Hr. by rewrite andb_false_r in Hr.
Qed.

(** X14.  The non-empty checks (source, trade_id, client_id, venue) reject
    exactly the strings that consist of white space only, the empty string
    among them, and accept every other string unchanged. *)
Theorem validate_nonempty_spec (field_name s : string) :
  is_blank (VStr s) = Ok (all_space s)
  ∧ (all_space s = false →
     TradeData.validate_nonempty field_name (VStr s) = Ok (VStr s)
     ∧ MarketData.validate_source (VStr s) = Ok (VStr s))
  ∧ (all_space s = true →
     TradeData.validate_nonempty field_name (VStr s)
     = Raise (ValueError (Msg REQUIRED_FIELDS (CannotBeEmpty field_name)))
     ∧ MarketData.validate_source (VStr s)
       = Raise (ValueError (Msg REQUIRED_FIELDS (CannotBeEmpty "source")))).
Proof.
  assert (Hb : is_blank (VStr s) = Ok (all_space s)).
  { unfold is_blank. simpl. destruct (bool_decide (s = EmptyString)) eqn:Ee; simpl.
    - apply bool_decide_eq_true in Ee as ->. done.
    - f_equal. rewrite negb_involutive.
      destruct (all_space s) eqn:Ea.
      + apply strip_empty in Ea. by rewrite Ea.
      + apply bool_decide_eq_false. intros Hs. apply strip_empty in Hs. congruence. }
  unfold TradeData.validate_nonempty, MarketData.validate_source. rewrite Hb.
  split_and!; [done|..]; intros ->; done.
Qed.

Lemma validate_nonempty_spec_witness :
  TradeData.validate_nonempty "venue" (VStr "   ")
  = Raise (ValueError (Msg REQUIRED_FIELDS (CannotBeEmpty "venue"))).
Proof.
  apply (proj2 (proj2 (validate_nonempty_spec "venue" "   "))). reflexivity.
Defined.

(** ** What construction guarantees *)

Lemma is_blank_all_space s : is_blank (VStr s) = Ok (all_space s).
Proof.
  unfold is_blank. simpl. destruct (bool_decide (s = EmptyString)) eqn:Ee; simpl.
  - apply bool_decide_eq_true in Ee as ->. done.
  - f_equal. rewrite negb_involutive.
    destruct (all_space s) eqn:Ea.
    + apply strip_empty in Ea. by rewrite Ea.
    + apply bool_decide_eq_false. intros Hs. apply strip_empty in Hs. congruence.
Qed.

Lemma validate_symbol_valid s w :
  MarketData.validate_symbol (VStr s) = Ok w → valid_symbol s.
Proof.
  rewrite validate_symbol_str. unfold valid_symbol.
  by destruct (first_violated s) as [[]|].
Qed.

Lemma validate_decimal_valid contract_tag field_name parse v w :
  MarketData.validate_decimal contract_tag field_name parse v = Ok w →
  ∃ d, w = VDecimal d ∧ valid_decimal d ∧ (∀ d0, v = VDecimal d0 → d = d0).
Proof.
  intros H. destruct (validate_decimal_Ok _ _ _ _ _ H) as (sg & c & e & -> & Hle & He).
  exists (Finite sg c e). split_and!; [done | |].
  - split_and!; [by eexists _, _, _ | done |]. simpl.
    apply andb_false_iff in He as [He|He]; [apply Z.ltb_ge in He | apply Z.ltb_ge in He];
      lia.
  - intros d0 ->. unfold MarketData.validate_decimal in H. cbn [mbind res_bind] in H.
    destruct (Decimal_le_0 d0) as [[]|]; cbn [mbind res_bind] in H; try discriminate.
    destruct (as_tuple d0) as [[? ?] [e0| |]]; try discriminate.
    destruct (_ && _); [discriminate|]. by injection H as ->.
Qed.

Lemma validate_timestamp_valid now t w :
  MarketData.validate_timestamp now (VDatetime t) = Ok w → valid_timestamp now t.
Proof.
  unfold MarketData.validate_timestamp, valid_timestamp, later_than.
  destruct (tzinfo t); [|discriminate].
  destruct (utcoffset t) as [off|]; simpl; [|discriminate].
  destruct (Z.eqb_spec off 0) as [->|]; simpl; [|discriminate].
  unfold MarketData.MAX_FUTURE_MINUTES, MarketData.MIN_VALID_YEAR.
  destruct (Z.ltb_spec (now + timedelta_minutes 5) (utc_us t 0)); [discriminate|].
  destruct (Z.ltb_spec (year t) 2000); [discriminate|]. intros _. split_and!; [done|lia..].
Qed.

Lemma py_compare_int_0 z : py_compare (VInt z) (VInt 0) = Ok (z ?= 0).
Proof.
  unfold py_compare. simpl. f_equal.
  assert (Hz : scaled (z <? 0) (Z.abs_N z) 0 0 = z).
  { unfold scaled. rewrite N2Z.inj_abs_N. change (10 ^ (0 - 0)) with 1.
    destruct (Z.ltb_spec z 0); lia. }
  change (Z.min 0 0) with 0. rewrite Hz. done.
Qed.

Lemma validate_volume_valid z w : MarketData.validate_volume (VInt z) = Ok w → 0 ≤ z.
Proof.
  unfold MarketData.validate_volume. rewrite py_compare_int_0. simpl.
  destruct (z ?= 0) eqn:E; try discriminate; intros _.
  - apply Z.compare_eq_iff in E. lia.
  - change (z > 0) in E. lia.
Qed.

Lemma validate_blank_valid s :
  is_blank (VStr s) = Ok false → valid_text s.
Proof. rewrite is_blank_all_space. by intros [= ?]. Qed.

Lemma strict_str_None v : strict_str v = None → ∃ s, v = VStr s.
Proof. destruct v; try discriminate. eauto. Qed.

Lemma strict_datetime_None v : strict_datetime v = None → ∃ t, v = VDatetime t.
Proof. destruct v; try discriminate. eauto. Qed.

(** X15.  Every market-data record that construction returns has exactly
    the five fields, holds the raw symbol, timestamp, volume and source
    unchanged (and the raw price unchanged when it was a [Decimal]), and
    satisfies every field contract: symbol format, positive price of at
    most four fractional digits, UTC timestamp from the year 2000 on and at
    most five minutes ahead of the clock, volume not negative, source not
    blank. *)
Theorem MarketData_new_invariant (Decimal_of_string : string → option Decimal)
    (now : Z) (raw : gmap string value) (o : pyobj) :
  MarketData.new Decimal_of_string now raw = Constructed o →
  ∃ symbol price timestamp volume source,
    o = Obj "MarketData"
          (<["source" := VStr source]> (<["volume" := VInt volume]>
          (<["timestamp" := VDatetime timestamp]> (<["price" := VDecimal price]>
          (<["symbol" := VStr symbol]> ∅)))))
    ∧ raw !! "symbol"%string = Some (VStr symbol)
    ∧ raw !! "timestamp"%string = Some (VDatetime timestamp)
    ∧ raw !! "volume"%string = Some (VInt volume)
    ∧ raw !! "source"%string = Some (VStr source)
    ∧ (∀ d, raw !! "price"%string = Some (VDecimal d) → price = d)
    ∧ valid_symbol symbol
    ∧ valid_decimal price
    ∧ valid_timestamp now timestamp
    ∧ 0 ≤ volume
    ∧ valid_text source.
Proof.
  intros H. unfold MarketData.new, model_new in H.
  apply validate_fields_Constructed in H as (_ & vs & Hvs & ->).
  unfold MarketData.fields in Hvs. invert_fields Hvs.
  apply field_plain in Hv as (? & Hr1 & [s ->]%strict_str_None & Hs).
  pose proof (validate_symbol_valid _ _ Hs) as Hs'.
  apply validate_symbol_Ok in Hs as (-> & _).
  apply field_before in Hv0 as (p0 & Hr2 & (d & -> & Hd & Hd0)%validate_decimal_valid & _).
  apply field_plain in Hv1 as (? & Hr3 & [t ->]%strict_datetime_None & Ht).
  pose proof (validate_timestamp_valid _ _ _ Ht) as Ht'.
  apply (validate_timestamp_Ok now now _ _ (Z.le_refl _)) in Ht as (-> & _).
  apply field_plain in Hv2 as (? & Hr4 & [z ->]%strict_int_None & Hz).
  pose proof (validate_volume_valid _ _ Hz) as Hz'.
  apply validate_volume_Ok in Hz as ->.
  apply field_plain in Hv3 as (? & Hr5 & [src ->]%strict_str_None & Hsrc).
  apply validate_source_Ok in Hsrc as Hsrc'. destruct Hsrc' as (-> & _).
  assert (Hb : valid_text src).
  { unfold MarketData.validate_source in Hsrc. rewrite is_blank_all_space in Hsrc.
    simpl in Hsrc. unfold valid_text. by destruct (all_space src). }
  exists s, d, t, z, src. split_and!; try done.
  intros d0 Hd0'. rewrite Hd0' in Hr2. injection Hr2 as <-. by apply Hd0.
Qed.

Lemma MarketData_new_invariant_witness :
  valid_decimal Sample.d175_43 ∧ valid_timestamp Sample.now Sample.t0.
Proof.
  destruct (MarketData_new_invariant Sample.no_parse Sample.now Sample.market_raw
              (Obj "MarketData" Sample.market_raw) ltac:(vm_compute; reflexivity))
    as (s & d & t & z & src & _ & _ & Ht & _ & _ & Hd & _ & Hvd & Hvt & _).
  rewrite <- (Hd Sample.d175_43 eq_refl).
  assert (t = Sample.t0) as <-.
  { assert (H : Sample.market_raw !! "timestamp"%string = Some (VDatetime Sample.t0))
      by reflexivity.
    rewrite H in Ht. by injection Ht. }
  done.
Defined.

(** ** What the validator does not look at *)

Lemma strict_Literal_None choices v :
  strict_Literal choices v = None → ∃ s, v = VStr s ∧ s ∈ choices.
Proof.
  destruct v as [| | |s| |]; simpl; try discriminate.
  case_bool_decide; [eauto | discriminate].
Qed.

Lemma validate_nonempty_valid field_name s w :
  TradeData.validate_nonempty field_name (VStr s) = Ok w → w = VStr s ∧ valid_text s.
Proof.
  unfold TradeData.validate_nonempty. rewrite is_blank_all_space. simpl.
  unfold valid_text. destruct (all_space s); [discriminate|]. by intros [= <-].
Qed.

(** X16.  Every trade record that construction returns has exactly the
    eight fields, holds the raw identifiers, symbol, side, timestamp and
    venue unchanged, and satisfies every field contract: identifiers and
    venue not blank, symbol format, side [BUY] or [SELL], positive quantity
    and price of at most four fractional digits, valid timestamp. *)
Theorem TradeData_new_invariant (Decimal_of_string : string → option Decimal)
    (now : Z) (raw : gmap string value) (o : pyobj) :
  TradeData.new Decimal_of_string now raw = Constructed o →
  ∃ trade_id client_id symbol side quantity price timestamp venue,
    o = Obj "TradeData"
          (<["venue" := VStr venue]> (<["timestamp" := VDatetime timestamp]>
          (<["price" := VDecimal price]> (<["quantity" := VDecimal quantity]>
          (<["side" := VStr side]> (<["symbol" := VStr symbol]>
          (<["client_id" := VStr client_id]> (<["trade_id" := VStr trade_id]> ∅))))))))
    ∧ raw !! "trade_id"%string = Some (VStr trade_id)
    ∧ raw !! "client_id"%string = Some (VStr client_id)
    ∧ raw !! "symbol"%string = Some (VStr symbol)
    ∧ raw !! "side"%string = Some (VStr side)
    ∧ raw !! "timestamp"%string = Some (VDatetime timestamp)
    ∧ raw !! "venue"%string = Some (VStr venue)
    ∧ (∀ d, raw !! "quantity"%string = Some (VDecimal d) → quantity = d)
    ∧ (∀ d, raw !! "price"%string = Some (VDecimal d) → price = d)
    ∧ valid_text trade_id ∧ valid_text client_id ∧ valid_text venue
    ∧ valid_symbol symbol
    ∧ (side = "BUY"%string ∨ side = "SELL"%string)
    ∧ valid_decimal quantity ∧ valid_decimal price
    ∧ valid_timestamp now timestamp.
Proof.
  intros H. unfold TradeData.new, model_new in H.
  apply validate_fields_Constructed in H as (_ & vs & Hvs & ->).
  unfold TradeData.fields in Hvs. invert_fields Hvs.
  apply field_plain in Hv as (? & Hr1 & [tid ->]%strict_str_None
                                & (-> & Htid)%validate_nonempty_valid).
  apply field_plain in Hv0 as (? & Hr2 & [cid ->]%strict_str_None
                                 & (-> & Hcid)%validate_nonempty_valid).
  apply field_plain in Hv1 as (? & Hr3 & [s ->]%strict_str_None & Hs).
  pose proof (validate_symbol_valid _ _ Hs) as Hs'.
  apply validate_symbol_Ok in Hs as (-> & _).
  apply field_before in Hv2 as (? & Hr4 & (-> & _)%validate_side_Ok
                                  & (side & -> & Hside)%strict_Literal_None).
  apply field_before in Hv3 as (q0 & Hr5 & (q & -> & Hq & Hq0)%validate_decimal_valid & _).
  apply field_before in Hv4 as (p0 & Hr6 & (p & -> & Hp & Hp0)%validate_decimal_valid & _).
  apply field_plain in Hv5 as (? & Hr7 & [t ->]%strict_datetime_None & Ht).
  pose proof (validate_timestamp_valid _ _ _ Ht) as Ht'.
  apply (validate_timestamp_Ok now now _ _ (Z.le_refl _)) in Ht as (-> & _).
  apply field_plain in Hv6 as (? & Hr8 & [ven ->]%strict_str_None
                                 & (-> & Hven)%validate_nonempty_valid).
  exists tid, cid, s, side, q, p, t, ven. split_and!; try done.
  - intros d Hd. rewrite Hd in Hr5. injection Hr5 as <-. by apply Hq0.
  - intros d Hd. rewrite Hd in Hr6. injection Hr6 as <-. by apply Hp0.
  - apply elem_of_cons in Hside as [->|Hside]; [by left|].
    apply list_elem_of_singleton in Hside as ->. by right.
Qed.

Lemma TradeData_new_invariant_witness :
  valid_decimal Sample.d100.
Proof.
  destruct (TradeData_new_invariant Sample.no_parse Sample.now Sample.trade_raw
              (Obj "TradeData" Sample.trade_raw) ltac:(vm_compute; reflexivity))
    as (tid & cid & s & side & q & p & t & ven & H).
  destruct H as (_ & _ & _ & _ & _ & _ & _ & Hq & _ & _ & _ & _ & _ & _ & Hvq & _).
  by rewrite <- (Hq Sample.d100 eq_refl).
Defined.

Lemma check_required_ext names data1 data2 :
  Forall (λ n, is_None (getattr_or_None data1 n) = is_None (getattr_or_None data2 n))
         names →
  ContractValidator.check_required names data1
  = ContractValidator.check_required names data2.
Proof.
  intros H. unfold ContractValidator.check_required.
  assert (Hacc : ∀ acc,
    foldl (λ errors field,
             if is_None (getattr_or_None data1 field)
             then errors ++ [Msg REQUIRED_FIELDS (MissingRequiredField field)]
             else errors) acc names
    = foldl (λ errors field,
               if is_None (getattr_or_None data2 field)
               then errors ++ [Msg REQUIRED_FIELDS (MissingRequiredField field)]
               else errors) acc names); [|apply Hacc].
  induction H as [|n names Hn _ IH]; intros acc; simpl; [done|].
  rewrite Hn. apply IH.
Qed.

Lemma getattr_or_None_insert_ne cls d n k v :
  n ≠ k → getattr_or_None (Obj cls (<[k := v]> d)) n = getattr_or_None (Obj cls d) n.
Proof. intros H. unfold getattr_or_None. simpl. by rewrite lookup_insert_ne. Qed.

Lemma getattr_insert_ne cls d n k v :
  n ≠ k → getattr (Obj cls (<[k := v]> d)) n = getattr (Obj cls d) n.
Proof. intros H. unfold getattr. simpl. by rewrite lookup_insert_ne. Qed.

Lemma is_None_overwrite cls d k v v0 n :
  d !! k = Some v0 → v0 ≠ VNone → v ≠ VNone →
  is_None (getattr_or_None (Obj cls (<[k := v]> d)) n)
  = is_None (getattr_or_None (Obj cls d) n).
Proof.
  intros Hk H0 Hv. destruct (decide (n = k)) as [->|Hn].
  - unfold getattr_or_None. simpl. rewrite lookup_insert_eq, Hk. simpl.
    apply is_None_false in H0, Hv. congruence.
  - by rewrite getattr_or_None_insert_ne.
Qed.

(** X17.  The validator looks at a market record's volume and source, and
    at a trade's client_id, only to see that they are not [None]:
    overwriting one of them with any other value that is not [None] does
    not change what the validator returns.  It therefore passes records
    that construction rejects. *)
Theorem validator_ignores_volume_source_client (now : Z) (cls : string)
    (d : gmap string value) (field : string) (old new : value) :
  d !! field = Some old → old ≠ VNone → new ≠ VNone →
  (field = "volume"%string ∨ field = "source"%string →
   ContractValidator.validate_market_data now (Obj cls (<[field := new]> d))
   = ContractValidator.validate_market_data now (Obj cls d))
  ∧ (field = "client_id"%string →
     ContractValidator.validate_trade_data now (Obj cls (<[field := new]> d))
     = ContractValidator.validate_trade_data now (Obj cls d)).
Proof.
  intros Hold Ho Hn.
  assert (Hreq : ∀ names,
    ContractValidator.check_required names (Obj cls (<[field := new]> d))
    = ContractValidator.check_required names (Obj cls d)).
  { intros names. apply check_required_ext, Forall_forall. intros n _.
    by eapply is_None_overwrite. }
  assert (Hlog : ∀ names,
    ContractValidator.log_fields (Obj cls (<[field := new]> d)) names
    = ContractValidator.log_fields (Obj cls d) names).
  { induction names as [|n names IH]; simpl; [done|].
    unfold getattr. simpl. destruct (decide (n = field)) as [->|Hne].
    - rewrite lookup_insert_eq, Hold. simpl. apply IH.
    - rewrite lookup_insert_ne by done. destruct (d !! n); simpl; [apply IH | done]. }
  split.
  - intros Hf. unfold ContractValidator.validate_market_data,
      ContractValidator._check_required_fields_market.
    rewrite Hreq, Hlog, !getattr_insert_ne by (destruct Hf as [-> | ->]; done). done.
  - intros ->. unfold ContractValidator.validate_trade_data,
      ContractValidator._check_required_fields_trade,
      ContractValidator._check_trade_specific_rules.
    rewrite Hreq, Hlog, !getattr_insert_ne by done. done.
Qed.

Lemma validator_ignores_volume_source_client_witness :
  ContractValidator.validate_market_data Sample.now
    (Obj "MarketData" (<["volume" := VInt (-100)]> Sample.market_raw)) = Ok (true, [])
  ∧ ∀ o, MarketData.new Sample.no_parse Sample.now
           (<["volume" := VInt (-100)]> Sample.market_raw) ≠ Constructed o.
Proof.
  split.
  - rewrite (proj1 (validator_ignores_volume_source_client Sample.now "MarketData"
      Sample.market_raw "volume" (VInt 2500000) (VInt (-100))
      ltac:(reflexivity) ltac:(discriminate) ltac:(discriminate))) by (by left).
    vm_compute. reflexivity.
  - intros o H. vm_compute in H. discriminate.
Defined.

(** ** Messages, clock, sides and coercion *)

Lemma check_required_filter names data :
  ContractValidator.check_required names data
  = (λ field, Msg REQUIRED_FIELDS (MissingRequiredField field))
      <$> filter (λ field, ¬ present data field) names.
Proof.
  unfold ContractValidator.check_required.
  assert (Hacc : ∀ acc,
    foldl (λ errors field,
             if is_None (getattr_or_None data field)
             then errors ++ [Msg REQUIRED_FIELDS (MissingRequiredField field)]
             else errors) acc names
    = acc ++ ((λ field, Msg REQUIRED_FIELDS (MissingRequiredField field))
                <$> filter (λ field, ¬ present data field) names)).
  { induction names as [|n names IH]; intros acc; cbn [foldl].
    - by rewrite filter_nil, app_nil_r.
    - rewrite IH. destruct (is_None (getattr_or_None data n)) eqn:E.
      + rewrite filter_cons_True.
        2: { intros H. apply is_None_false in H. congruence. }
        by rewrite fmap_cons, <- app_assoc.
      + apply is_None_false in E. rewrite filter_cons_False by tauto. done. }
  by rewrite Hacc.
Qed.

(** X18.  The required-fields check reports, in declaration order, exactly
    the fields whose attribute is unset or [None] (one message each), for
    the market and the trade field lists alike. *)
Theorem check_required_fields_spec (data : pyobj) :
  ContractValidator._check_required_fields_market data
  = (λ field, Msg REQUIRED_FIELDS (MissingRequiredField field))
      <$> filter (λ field, ¬ present data field)
            ["symbol"; "price"; "timestamp"; "volume"; "source"]%string
  ∧ ContractValidator._check_required_fields_trade data
    = (λ field, Msg REQUIRED_FIELDS (MissingRequiredField field))
        <$> filter (λ field, ¬ present data field)
              ["trade_id"; "client_id"; "symbol"; "side"; "quantity"; "price";
               "timestamp"; "venue"]%string.
Proof. split; apply check_required_filter. Qed.

Lemma check_required_tagged names data :
  all_tagged REQUIRED_FIELDS (ContractValidator.check_required names data).
Proof.
  rewrite check_required_filter. unfold all_tagged. rewrite Forall_fmap.
  by apply Forall_forall.
Qed.

Lemma _check_price_validity_tagged v field_name errors :
  ContractValidator._check_price_validity v field_name = Ok errors →
  all_tagged PRICE_VALIDITY errors.
Proof.
  unfold ContractValidator._check_price_validity, all_tagged.
  destruct v as [| | | | d |]; try (intros [= <-]; by repeat constructor).
  destruct (Decimal_le_0 d) as [nonpos|]; [|discriminate]. cbn [mbind res_bind].
  repeat case_match; intros [= <-];
    repeat (apply Forall_app; split); repeat constructor.
Qed.

Lemma _check_timestamp_validity_tagged now v errors :
  ContractValidator._check_timestamp_validity now v = Ok errors →
  all_tagged TIMESTAMP_VALIDITY errors.
Proof.
  unfold ContractValidator._check_timestamp_validity, all_tagged.
  destruct v as [| | | | |t]; try discriminate.
  destruct (tzinfo t); [|intros [= <-]; by repeat constructor].
  destruct (later_than _ _) as [late|]; [|discriminate]. simpl. intros [= <-].
  repeat case_match; repeat (apply Forall_app; split); repeat constructor.
Qed.

Lemma _check_symbol_format_tagged v errors :
  ContractValidator._check_symbol_format v = Ok errors →
  all_tagged SYMBOL_FORMAT errors.
Proof.
  unfold ContractValidator._check_symbol_format, all_tagged.
  destruct (truthy v); simpl; [|intros [= <-]; by repeat constructor].
  destruct (bad_length v) as [bad|]; [|discriminate]. simpl.
  destruct (py_len v) as [n|]; [|discriminate]. simpl.
  destruct (differs_from_upper v) as [ne|]; [|discriminate]. simpl.
  destruct (py_match v) as [m|]; [|discriminate]. simpl. intros [= <-].
  repeat case_match; repeat (apply Forall_app; split); repeat constructor.
Qed.

Lemma _check_trade_specific_rules_tagged data errors :
  ContractValidator._check_trade_specific_rules data = Ok errors →
  all_tagged TRADE_SPECIFIC errors.
Proof.
  unfold ContractValidator._check_trade_specific_rules, all_tagged. cbv zeta.
  intros H.
  apply bind_Ok in H as (side & _ & H).
  apply bind_Ok in H as (quantity & _ & H).
  apply bind_Ok in H as (nonpos & _ & H).
  apply bind_Ok in H as (trade_id & _ & H).
  apply bind_Ok in H as (blank_id & _ & H).
  apply bind_Ok in H as (venue & _ & H).
  apply bind_Ok in H as (blank_venue & _ & H).
  injection H as <-.
  repeat case_match; repeat (apply Forall_app; split); repeat constructor.
Qed.

(** X19.  The violations a validator call returns come grouped by contract
    in a fixed order: required fields, price validity, timestamp validity,
    symbol format and, for trades, trade-specific rules.  No message is
    tagged QUANTITY_VALIDITY or VOLUME_VALIDITY, the tags construction
    uses for quantity and volume. *)
Theorem validator_messages_grouped (now : Z) (data : pyobj) (ok : bool)
    (errors : list message) :
  (ContractValidator.validate_market_data now data = Ok (ok, errors) →
   ∃ required price timestamp symbol,
     errors = required ++ price ++ timestamp ++ symbol
     ∧ all_tagged REQUIRED_FIELDS required ∧ all_tagged PRICE_VALIDITY price
     ∧ all_tagged TIMESTAMP_VALIDITY timestamp ∧ all_tagged SYMBOL_FORMAT symbol)
  ∧ (ContractValidator.validate_trade_data now data = Ok (ok, errors) →
     ∃ required price timestamp symbol trade,
       errors = required ++ price ++ timestamp ++ symbol ++ trade
       ∧ all_tagged REQUIRED_FIELDS required ∧ all_tagged PRICE_VALIDITY price
       ∧ all_tagged TIMESTAMP_VALIDITY timestamp ∧ all_tagged SYMBOL_FORMAT symbol
       ∧ all_tagged TRADE_SPECIFIC trade).
Proof.
  split; intros H.
  - unfold ContractValidator.validate_market_data in H. cbv zeta in H.
    apply bind_Ok in H as (price & _ & H).
    apply bind_Ok in H as (price_errors & Hpe & H).
    apply bind_Ok in H as (timestamp & _ & H).
    apply bind_Ok in H as (ts_errors & Hts & H).
    apply bind_Ok in H as (symbol & _ & H).
    apply bind_Ok in H as (sym_errors & Hsym & H).
    apply bind_Ok in H as ([] & _ & H). injection H as <- <-.
    exists (ContractValidator._check_required_fields_market data),
      price_errors, ts_errors, sym_errors.
    split; [by rewrite <- !app_assoc|]. split_and!.
    + apply check_required_tagged.
    + by eapply _check_price_validity_tagged.
    + by eapply _check_timestamp_validity_tagged.
    + by eapply _check_symbol_format_tagged.
  - unfold ContractValidator.validate_trade_data in H. cbv zeta in H.
    apply bind_Ok in H as (price & _ & H).
    apply bind_Ok in H as (price_errors & Hpe & H).
    apply bind_Ok in H as (quantity & _ & H).
    apply bind_Ok in H as (quantity_errors & Hqe & H).
    apply bind_Ok in H as (timestamp & _ & H).
    apply bind_Ok in H as (ts_errors & Hts & H).
    apply bind_Ok in H as (symbol & _ & H).
    apply bind_Ok in H as (sym_errors & Hsym & H).
    apply bind_Ok in H as (trade_errors & Htr & H).
    apply bind_Ok in H as ([] & _ & H). injection H as <- <-.
    exists (ContractValidator._check_required_fields_trade data),
      (price_errors ++ quantity_errors), ts_errors, sym_errors, trade_errors.
    split; [by rewrite <- !app_assoc|]. split_and!.
    + apply check_required_tagged.
    + apply Forall_app. split; by eapply _check_price_validity_tagged.
    + by eapply _check_timestamp_validity_tagged.
    + by eapply _check_symbol_format_tagged.
    + by eapply _check_trade_specific_rules_tagged.
Qed.

Lemma validator_messages_grouped_witness :
  ∃ required price timestamp symbol trade,
    [Msg PRICE_VALIDITY (MustBePositive "quantity" (VDecimal Sample.d_minus_5));
     Msg TRADE_SPECIFIC (MustBePositive "quantity" (VDecimal Sample.d_minus_5))]
    = required ++ price ++ timestamp ++ symbol ++ trade
    ∧ all_tagged REQUIRED_FIELDS required ∧ all_tagged PRICE_VALIDITY price
    ∧ all_tagged TIMESTAMP_VALIDITY timestamp ∧ all_tagged SYMBOL_FORMAT symbol
    ∧ all_tagged TRADE_SPECIFIC trade.
Proof.
  apply (proj2 (validator_messages_grouped Sample.now Sample.negative_quantity_trade
                  false _)).
  vm_compute. reflexivity.
Defined.

(** X20.  Timestamp violations can only go away as the clock advances: a
    timestamp checked at a later clock yields a sub-list of the violations
    it yielded before, and one that passed keeps passing. *)
Theorem _check_timestamp_validity_later (now1 now2 : Z) (ts : value)
    (errors : list message) :
  now1 ≤ now2 →
  ContractValidator._check_timestamp_validity now1 ts = Ok errors →
  ∃ errors',
    ContractValidator._check_timestamp_validity now2 ts = Ok errors'
    ∧ errors' `sublist_of` errors.
Proof.
  intros Hnow. unfold ContractValidator._check_timestamp_validity.
  destruct ts as [| | | | |t]; try discriminate.
  destruct (tzinfo t); [|intros [= <-]; by eexists].
  unfold later_than. destruct (utcoffset t) as [off|]; [|discriminate]. simpl.
  unfold ContractValidator.MAX_FUTURE_MINUTES.
  intros [= <-]. eexists. split; [done|].
  destruct (Z.ltb_spec (now2 + timedelta_minutes 5) (utc_us t off)) as [H2|H2].
  - rewrite (proj2 (Z.ltb_lt (now1 + timedelta_minutes 5) (utc_us t off))) by lia.
    done.
  - destruct (now1 + timedelta_minutes 5 <? utc_us t off); [|done].
    destruct (year t <? ContractValidator.MIN_VALID_YEAR).
    + apply sublist_app; [|done]. apply sublist_inserts_r. done.
    + apply sublist_inserts_r. done.
Qed.

Lemma _check_timestamp_validity_later_witness :
  ∃ errors',
    ContractValidator._check_timestamp_validity (Sample.now + 1) (VDatetime Sample.t0)
    = Ok errors' ∧ errors' `sublist_of` [].
Proof.
  apply (_check_timestamp_validity_later Sample.now (Sample.now + 1)); [lia|].
  vm_compute. reflexivity.
Defined.

Lemma in_VALID_SIDES_iff v :
  ContractValidator.in_VALID_SIDES v = true ↔ v = VStr "BUY" ∨ v = VStr "SELL".
Proof.
  unfold ContractValidator.in_VALID_SIDES. simpl.
  rewrite orb_false_r, !orb_true_iff, !bool_decide_eq_true.
  change (hkey_of (VStr "BUY")) with (KStr "BUY").
  change (hkey_of (VStr "SELL")) with (KStr "SELL").
  by rewrite !hkey_of_KStr.
Qed.

(** X21.  A side is accepted, by construction and by the validator alike,
    exactly when it is the string [BUY] or the string [SELL]: no other
    spelling, case or type passes. *)
Theorem side_accepted_iff (v : value) :
  (TradeData.validate_side v = Ok v ↔ v = VStr "BUY" ∨ v = VStr "SELL")
  ∧ (ContractValidator.in_VALID_SIDES v = true ↔ v = VStr "BUY" ∨ v = VStr "SELL")
  ∧ (v = VStr "BUY" ∨ v = VStr "SELL" →
     strict_Literal ["BUY"; "SELL"]%string v = None).
Proof.
  split_and!.
  - rewrite <- in_VALID_SIDES_iff. unfold TradeData.validate_side.
    change (TradeData.in_VALID_SIDES v) with (ContractValidator.in_VALID_SIDES v).
    destruct (ContractValidator.in_VALID_SIDES v); simpl; split; done.
  - apply in_VALID_SIDES_iff.
  - by intros [-> | ->].
Qed.

(** X22.  An [int] given as price or quantity is coerced exactly: a
    positive one is stored as the [Decimal] of the same value with exponent
    zero, any other is rejected as not positive; [None], a [bool] and a
    [datetime] are rejected as not a decimal number.  None of this depends
    on how strings are parsed. *)
Theorem validate_decimal_coerces (Decimal_of_string : string → option Decimal)
    (contract_tag : contract) (field_name : string) :
  (∀ z, 0 < z →
        MarketData.validate_decimal contract_tag field_name Decimal_of_string (VInt z)
        = Ok (VDecimal (Finite false (Z.to_N z) 0)))
  ∧ (∀ z, z ≤ 0 →
          MarketData.validate_decimal contract_tag field_name Decimal_of_string (VInt z)
          = Raise (ValueError (Msg contract_tag
              (MustBePositive field_name (VDecimal (Finite (z <? 0) (Z.abs_N z) 0))))))
  ∧ (∀ v, (v = VNone ∨ (∃ b, v = VBool b) ∨ ∃ t, v = VDatetime t) →
          MarketData.validate_decimal contract_tag field_name Decimal_of_string v
          = Raise (ValueError (Msg contract_tag (NotADecimalNumber field_name v)))).
Proof.
  split_and!.
  - intros z Hz. unfold MarketData.validate_decimal. simpl.
    rewrite (proj2 (Z.ltb_ge z 0)) by lia. simpl.
    destruct (N.eqb_spec (Z.abs_N z) 0) as [H0|_]; [lia|].
    by rewrite Zabs2N.abs_N_nonneg by lia.
  - intros z Hz. unfold MarketData.validate_decimal. simpl.
    destruct (Z.ltb_spec z 0); simpl; [done|].
    assert (z = 0) as -> by lia. done.
  - intros v [-> | [[b ->] | [t ->]]]; done.
Qed.

Lemma validate_decimal_coerces_witness :
  MarketData.validate_price Sample.no_parse (VInt 175) = Ok (VDecimal (Finite false 175 0)).
Proof.
  apply (proj1 (validate_decimal_coerces Sample.no_parse PRICE_VALIDITY "price") 175).
  lia.
Defined.

(** ** When the validator answers *)

Lemma getattr_Ok data n v : getattr data n = Ok v ↔ ob_dict data !! n = Some v.
Proof. unfold getattr. destruct (ob_dict data !! n); split; congruence. Qed.

Lemma _check_timestamp_validity_Ok_iff now v :
  (∃ errors, ContractValidator._check_timestamp_validity now v = Ok errors)
  ↔ ∃ t, v = VDatetime t ∧ comparable_datetime t.
Proof.
  split.
  - intros [errors H]. unfold ContractValidator._check_timestamp_validity in H.
    destruct v as [| | | | |t]; try discriminate. exists t. split; [done|].
    unfold comparable_datetime. destruct (tzinfo t) eqn:Etz; [|by left]. right.
    unfold later_than in H. destruct (utcoffset t); [by eexists | discriminate].
  - intros (t & -> & Hc). by apply _check_timestamp_validity_returns.
Qed.

Lemma _check_symbol_format_Ok_iff v :
  (∃ errors, ContractValidator._check_symbol_format v = Ok errors) ↔ falsy_or_str v.
Proof.
  unfold falsy_or_str. split.
  - intros [errors H]. unfold ContractValidator._check_symbol_format in H.
    destruct (truthy v) eqn:Et; [|by left]. right. simpl in H.
    destruct v as [| | |s| |]; try discriminate. by exists s.
  - intros [Hf | [s ->]]; [|apply _check_symbol_format_returns].
    unfold ContractValidator._check_symbol_format. rewrite Hf. simpl. by eexists.
Qed.

Lemma is_blank_Ok_iff v : (∃ b, is_blank v = Ok b) ↔ falsy_or_str v.
Proof.
  unfold falsy_or_str, is_blank. split.
  - intros [b H]. destruct (truthy v) eqn:Et; [|by left]. right. simpl in H.
    destruct v as [| | |s| |]; try discriminate. by exists s.
  - intros [Hf | [s ->]].
    + rewrite Hf. simpl. by eexists.
    + destruct (truthy (VStr s)); simpl; by eexists.
Qed.

Lemma _check_price_validity_Ok_iff v field_name :
  (∃ errors, ContractValidator._check_price_validity v field_name = Ok errors)
  ↔ is_nan v = false.
Proof.
  split; [|apply _check_price_validity_returns].
  intros [errors H]. destruct (is_nan v) eqn:E; [|done].
  by rewrite _check_price_validity_nan in H.
Qed.

Lemma as_number_not_nan v : is_Some (as_number v) → is_nan v = false.
Proof. destruct v as [| | | |[]|]; simpl; try done; by intros [? [=]]. Qed.

Lemma py_le_Ok_iff v : (∃ b, py_le v (VInt 0) = Ok b) ↔ is_Some (as_number v).
Proof.
  unfold py_le, py_compare. change (as_number (VInt 0)) with (Some (NFin false 0 0)).
  destruct (as_number v) eqn:E.
  - split; intros _; [by eexists | simpl; by eexists].
  - split; [|by intros [? [=]]]. intros [b H]. exfalso.
    destruct v as [| | | |[]|]; simpl in *; discriminate.
Qed.

Lemma check_required_nil_present names data :
  ContractValidator.check_required names data = [] →
  Forall (present data) names.
Proof.
  rewrite check_required_filter. intros H. apply fmap_nil_inv in H.
  apply Forall_forall. intros n Hn.
  destruct (decide (present data n)) as [|Hp]; [done|]. exfalso.
  assert (Hin : n ∈ filter (λ field, ¬ present data field) names)
    by by apply list_elem_of_filter.
  rewrite H in Hin. by apply elem_of_nil in Hin.
Qed.

Lemma present_is_Some data n : present data n → is_Some (ob_dict data !! n).
Proof.
  unfold present, getattr_or_None. destruct (ob_dict data !! n); [by eexists | done].
Qed.

Lemma log_fields_Ok data names :
  ContractValidator.log_fields data names = Ok () →
  Forall (λ n, is_Some (ob_dict data !! n)) names.
Proof.
  induction names as [|n names IH]; simpl; [constructor|].
  unfold getattr. destruct (ob_dict data !! n) eqn:E; [|discriminate]. simpl.
  intros H. constructor; [by eexists | by apply IH].
Qed.

Lemma app_nil_l_inv {A} (l1 l2 : list A) : l1 ++ l2 = [] → l1 = [].
Proof. by intros [? _]%app_nil. Qed.

Lemma length_eqb_0_true {A} (l : list A) : (length l =? 0)%nat = true → l = [].
Proof. by destruct l. Qed.

(** X23.  The validators return (rather than raise) exactly on the records
    described by [answerable_market] and [answerable_trade]: the attributes
    they read are set, the price is not a NaN, the timestamp is a datetime
    that can be compared with the clock, the quantity is a number (which a
    NaN is not), and symbol, trade_id and venue are strings or falsy.  An
    unset volume is tolerated, an unset source or client_id is not. *)
Theorem validator_returns_iff (now : Z) (data : pyobj) :
  ((∃ r, ContractValidator.validate_market_data now data = Ok r)
   ↔ answerable_market data)
  ∧ ((∃ r, ContractValidator.validate_trade_data now data = Ok r)
     ↔ answerable_trade data).
Proof.
  split; split.
  - intros [[ok errors] H]. unfold ContractValidator.validate_market_data in H.
    cbv zeta in H.
    apply bind_Ok in H as (price & Hp & H).
    apply bind_Ok in H as (price_errors & Hpe & H).
    apply bind_Ok in H as (timestamp & Ht & H).
    apply bind_Ok in H as (ts_errors & Hts & H).
    apply bind_Ok in H as (symbol & Hs & H).
    apply bind_Ok in H as (sym_errors & Hsym & H).
    apply bind_Ok in H as ([] & Hlog & H).
    apply getattr_Ok in Hp, Ht, Hs.
    destruct (proj1 (_check_timestamp_validity_Ok_iff now timestamp))
      as (t & -> & Hc); [by eexists|].
    pose proof (proj1 (_check_symbol_format_Ok_iff symbol) (ex_intro _ _ Hsym)) as Hfs.
    pose proof (proj1 (_check_price_validity_Ok_iff price "price")
                  (ex_intro _ _ Hpe)) as Hnn.
    split_and!; [by exists price | by exists t | by exists symbol |].
    destruct (length _ =? 0)%nat eqn:El.
    + apply length_eqb_0_true in El. do 3 apply app_nil_l_inv in El.
      apply check_required_nil_present in El.
      apply present_is_Some. rewrite Forall_forall in El. apply El. set_solver.
    + apply log_fields_Ok in Hlog. rewrite Forall_forall in Hlog.
      apply Hlog. set_solver.
  - intros ((p & Hp & Hnn) & (t & Ht & Hc) & (s & Hs & Hfs) & Hsrc).
    unfold ContractValidator.validate_market_data, getattr.
    rewrite Hp, Ht, Hs. cbn [mbind res_bind].
    destruct (_check_price_validity_returns p "price" Hnn) as [pe ->].
    cbn [mbind res_bind].
    destruct (_check_timestamp_validity_returns now t Hc) as [tse ->].
    destruct (proj2 (_check_symbol_format_Ok_iff s) Hfs) as [se ->].
    cbn [mbind res_bind].
    rewrite (log_fields_returns data ["symbol"; "source"]%string).
    2: { repeat constructor; [by eexists | done]. }
    destruct (length _ =? 0)%nat; cbn [mbind res_bind]; eauto.
  - intros [[ok errors] H]. unfold ContractValidator.validate_trade_data in H.
    cbv zeta in H.
    apply bind_Ok in H as (price & Hp & H).
    apply bind_Ok in H as (price_errors & Hpe & H).
    apply bind_Ok in H as (quantity & Hq & H).
    apply bind_Ok in H as (quantity_errors & Hqe & H).
    apply bind_Ok in H as (timestamp & Ht & H).
    apply bind_Ok in H as (ts_errors & Hts & H).
    apply bind_Ok in H as (symbol & Hs & H).
    apply bind_Ok in H as (sym_errors & Hsym & H).
    apply bind_Ok in H as (trade_errors & Htr & H).
    apply bind_Ok in H as ([] & Hlog & H).
    pose proof (proj1 (_check_price_validity_Ok_iff price "price")
                  (ex_intro _ _ Hpe)) as Hnn.
    unfold ContractValidator._check_trade_specific_rules in Htr. cbv zeta in Htr.
    apply bind_Ok in Htr as (side & Hside & Htr).
    apply bind_Ok in Htr as (quantity' & Hq' & Htr).
    apply bind_Ok in Htr as (nonpos & Hle & Htr).
    apply bind_Ok in Htr as (trade_id & Htid & Htr).
    apply bind_Ok in Htr as (blank_id & Hbid & Htr).
    apply bind_Ok in Htr as (venue & Hven & Htr).
    apply bind_Ok in Htr as (blank_venue & Hbven & Htr).
    rewrite Hq in Hq'. injection Hq' as <-.
    apply getattr_Ok in Hp, Hq, Ht, Hs, Hside, Htid, Hven.
    destruct (proj1 (_check_timestamp_validity_Ok_iff now timestamp))
      as (t & -> & Hc); [by eexists|].
    pose proof (proj1 (_check_symbol_format_Ok_iff symbol) (ex_intro _ _ Hsym)) as Hfs.
    pose proof (proj1 (py_le_Ok_iff quantity) (ex_intro _ _ Hle)) as Hnum.
    pose proof (proj1 (is_blank_Ok_iff trade_id) (ex_intro _ _ Hbid)) as Hft.
    pose proof (proj1 (is_blank_Ok_iff venue) (ex_intro _ _ Hbven)) as Hfv.
    split_and!; [by exists price | by exists quantity | by exists t | by exists symbol
                | by eexists | by exists trade_id | by exists venue |].
    destruct (length _ =? 0)%nat eqn:El.
    + apply length_eqb_0_true in El. do 5 apply app_nil_l_inv in El.
      apply check_required_nil_present in El.
      apply present_is_Some. rewrite Forall_forall in El. apply El. set_solver.
    + apply log_fields_Ok in Hlog. rewrite Forall_forall in Hlog.
      apply Hlog. set_solver.
  - intros ((p & Hp & Hnn) & (q & Hq & Hnum) & (t & Ht & Hc) & (s & Hs & Hfs)
            & [side Hside] & (tid & Htid & Hft) & (ven & Hven & Hfv) & Hcid).
    unfold ContractValidator.validate_trade_data,
      ContractValidator._check_trade_specific_rules, getattr.
    rewrite Hp, Hq, Ht, Hs, Hside, Htid, Hven. cbn [mbind res_bind].
    destruct (_check_price_validity_returns p "price" Hnn) as [pe ->].
    cbn [mbind res_bind].
    destruct (_check_price_validity_returns q "quantity" (as_number_not_nan q Hnum))
      as [qe ->].
    cbn [mbind res_bind].
    destruct (_check_timestamp_validity_returns now t Hc) as [tse ->].
    destruct (proj2 (_check_symbol_format_Ok_iff s) Hfs) as [se ->].
    destruct (proj2 (py_le_Ok_iff q) Hnum) as [b ->].
    destruct (proj2 (is_blank_Ok_iff tid) Hft) as [b1 ->].
    destruct (proj2 (is_blank_Ok_iff ven) Hfv) as [b2 ->].
    cbn [mbind res_bind].
    rewrite (log_fields_returns data ["trade_id"; "client_id"; "symbol"]%string).
    2: { repeat constructor; [by eexists | done | by eexists]. }
    destruct (length _ =? 0)%nat; cbn [mbind res_bind]; eauto.
Qed.

Lemma validator_returns_iff_witness :
  ¬ ∃ r, ContractValidator.validate_market_data Sample.now
           (Obj "MarketData" (delete "source"%string Sample.market_raw)) = Ok r.
Proof.
  intros H.
  apply (proj1 (proj1 (validator_returns_iff Sample.now _))) in H.
  destruct H as (_ & _ & _ & [v Hv]). vm_compute in Hv. discriminate.
Defined.

(** ** Escaping exceptions, error lists and configuration *)

Lemma validate_decimal_raises contract_tag field_name parse v e :
  run_validator (MarketData.validate_decimal contract_tag field_name parse) v = FRaise e
  ↔ ∃ d, as_Decimal parse v = Some d
         ∧ ((e = TypeError ∧ d = Infinity false)
            ∨ (e = InvalidOperation ∧ is_nan (VDecimal d) = true)).
Proof.
  unfold run_validator, MarketData.validate_decimal.
  assert (Hconv : match v with
                  | VDecimal d => Ok d
                  | _ => match Decimal_of_str parse v with
                         | Some d => Ok d
                         | None => Raise (ValueError
                             (Msg contract_tag (NotADecimalNumber field_name v)))
                         end
                  end
                  = match as_Decimal parse v with
                    | Some d => Ok d
                    | None => Raise (ValueError
                        (Msg contract_tag (NotADecimalNumber field_name v)))
                    end).
  { by destruct v. }
  rewrite Hconv. destruct (as_Decimal parse v) as [d|]; cbn [mbind res_bind].
  2: { simpl. split; [done | by intros (d & [=] & _)]. }
  destruct d as [sg c e0|[]|sg pl i]; simpl.
  - destruct (sg || (c =? 0)%N); simpl;
      [|destruct (_ && _)];
      (split; [done | by intros (d & [= <-] & [[_ [=]]|[_ [=]]])]).
  - split; [done | by intros (d & [= <-] & [[_ [=]]|[_ [=]]])].
  - split.
    + intros [= <-]. eexists. split; [done | by left].
    + by intros (d & [= <-] & [[-> _]|[_ [=]]]).
  - split.
    + intros [= <-]. eexists. split; [done | by right].
    + by intros (d & [= <-] & [[_ [=]]|[-> _]]).
Qed.

Lemma plain_field_no_raise n core after raw e :
  (∀ v, core v = None → ∀ x, after v = Raise x → ∃ m, x = ValueError m) →
  validate_field (Field n no_validator core after) raw ≠ FRaise e.
Proof.
  intros Hafter. unfold validate_field. simpl. destruct (raw !! n) as [v|]; [|done].
  destruct (core v) eqn:Ec; [done|]. unfold run_validator.
  specialize (Hafter v Ec).
  destruct (after v) as [w|x]; [done|].
  by destruct (Hafter x eq_refl) as [m ->].
Qed.

Lemma symbol_field_no_raise raw e :
  validate_field (Field "symbol" no_validator strict_str MarketData.validate_symbol) raw
  ≠ FRaise e.
Proof.
  apply plain_field_no_raise. intros v [s ->]%strict_str_None x.
  rewrite validate_symbol_str.
  destruct (first_violated s) as [[]|]; intros [= <-]; by eexists.
Qed.

Lemma timestamp_field_no_raise now raw e :
  validate_field
    (Field "timestamp" no_validator strict_datetime (MarketData.validate_timestamp now)) raw
  ≠ FRaise e.
Proof.
  apply plain_field_no_raise. intros v [t ->]%strict_datetime_None x.
  unfold MarketData.validate_timestamp, later_than.
  destruct (tzinfo t); [|intros [= <-]; by eexists].
  destruct (utcoffset t); simpl; [|intros [= <-]; by eexists].
  repeat case_match; intros [= <-]; by eexists.
Qed.

Lemma volume_field_no_raise raw e :
  validate_field (Field "volume" no_validator strict_int MarketData.validate_volume) raw
  ≠ FRaise e.
Proof.
  apply plain_field_no_raise. intros v [z ->]%strict_int_None x.
  unfold MarketData.validate_volume. rewrite py_compare_int_0. simpl.
  destruct (z ?= 0); intros [= <-]; by eexists.
Qed.

Lemma source_field_no_raise raw e :
  validate_field (Field "source" no_validator strict_str MarketData.validate_source) raw
  ≠ FRaise e.
Proof.
  apply plain_field_no_raise. intros v [s ->]%strict_str_None x.
  unfold MarketData.validate_source. rewrite is_blank_all_space. simpl.
  destruct (all_space s); intros [= <-]; by eexists.
Qed.

(** X24.  Construction of market data lets an exception other than the
    validation error escape in two cases only, whatever the other fields
    hold: it raises [TypeError] exactly when the price given is, or
    converts to, the positive infinity, and [InvalidOperation] exactly when
    it is, or converts to, a NaN. *)
Theorem MarketData_new_propagates (Decimal_of_string : string → option Decimal)
    (now : Z) (raw : gmap string value) (e : exn) :
  MarketData.new Decimal_of_string now raw = Propagated e
  ↔ ∃ v d, raw !! "price"%string = Some v
           ∧ as_Decimal Decimal_of_string v = Some d
           ∧ ((e = TypeError ∧ d = Infinity false)
              ∨ (e = InvalidOperation ∧ is_nan (VDecimal d) = true)).
Proof.
  unfold MarketData.new, model_new, MarketData.fields.
  cbn [validate_fields].
  pose proof (symbol_field_no_raise raw) as Hs.
  assert (Hprice : ∀ e',
    validate_field (Field "price" (MarketData.validate_price Decimal_of_string)
                      strict_Decimal no_validator) raw = FRaise e'
    ↔ ∃ v d, raw !! "price"%string = Some v
             ∧ as_Decimal Decimal_of_string v = Some d
             ∧ ((e' = TypeError ∧ d = Infinity false)
                ∨ (e' = InvalidOperation ∧ is_nan (VDecimal d) = true))).
  { intros e'. unfold validate_field. simpl. destruct (raw !! "price"%string) as [v|].
    - transitivity (run_validator
        (MarketData.validate_decimal PRICE_VALIDITY "price" Decimal_of_string) v
        = FRaise e').
      + unfold MarketData.validate_price.
        destruct (run_validator _ v) as [w|err|e'']; [|done..].
        destruct (strict_Decimal w); split; done.
      + rewrite validate_decimal_raises. split.
        * intros (d & Hd & He). by exists v, d.
        * intros (v' & d & [= <-] & Hd & He). by exists d.
    - split; [done|]. by intros (v & d & [=] & _). }
  destruct (validate_field (Field "symbol" _ _ _) raw) as [v1|e1|x1] eqn:E1;
    [| |by destruct (Hs x1)].
  all: destruct (validate_field (Field "price" _ _ _) raw) as [v2|e2|x2] eqn:E2.
  all: try (split; [intros [= <-]; by apply Hprice
                   | intros H; apply Hprice in H; congruence]).
  all: split; [|intros H; apply Hprice in H; discriminate].
  all: pose proof (timestamp_field_no_raise now raw) as Ht;
       pose proof (volume_field_no_raise raw) as Hv;
       pose proof (source_field_no_raise raw) as Hsrc.
  all: destruct (validate_field (Field "timestamp" _ _ _) raw) as [v3|e3|x3];
         [| |by destruct (Ht x3)].
  all: destruct (validate_field (Field "volume" _ _ _) raw) as [v4|e4|x4];
         [| |by destruct (Hv x4)].
  all: destruct (validate_field (Field "source" _ _ _) raw) as [v5|e5|x5];
         [| |by destruct (Hsrc x5)].
  all: discriminate.
Qed.

Lemma MarketData_new_propagates_witness :
  MarketData.new Sample.no_parse Sample.now
    (<["price" := VDecimal (Infinity false)]> Sample.market_raw) = Propagated TypeError
  ∧ MarketData.new Sample.no_parse Sample.now
      (<["price" := VDecimal Sample.nan]> Sample.market_raw)
    = Propagated InvalidOperation.
Proof.
  split.
  - apply (proj2 (MarketData_new_propagates Sample.no_parse Sample.now
                    (<["price" := VDecimal (Infinity false)]> Sample.market_raw)
                    TypeError)).
    exists (VDecimal (Infinity false)), (Infinity false).
    split_and!; [done | done | by left].
  - apply (proj2 (MarketData_new_propagates Sample.no_parse Sample.now
                    (<["price" := VDecimal Sample.nan]> Sample.market_raw)
                    InvalidOperation)).
    exists (VDecimal Sample.nan), Sample.nan.
    split_and!; [done | done | by right].
Defined.

Lemma field_errors_loc raw f : Forall (λ d, loc d = name f) (field_errors raw f).
Proof. unfold field_errors. destruct (validate_field f raw); by repeat constructor. Qed.

Lemma bind_field_errors_locs raw flds :
  loc <$> (flds ≫= field_errors raw)
  = name <$> filter (λ f, ∃ e, validate_field f raw = FError e) flds.
Proof.
  induction flds as [|f flds IH]; [done|].
  cbn [mbind list_bind]. rewrite fmap_app, IH. unfold field_errors at 1.
  destruct (validate_field f raw) as [v|e|x] eqn:E.
  - rewrite filter_cons_False; [done|]. rewrite E. by intros [? [=]].
  - rewrite filter_cons_True; [done|]. rewrite E. by exists e.
  - rewrite filter_cons_False; [done|]. rewrite E. by intros [? [=]].
Qed.


(** X25.  A [ValidationError] of either model lists each field whose own
    validation fails exactly once, in declaration order, and no other
    field. *)
Theorem validation_error_lists_failing_fields
    (Decimal_of_string : string → option Decimal) (now : Z) (raw : gmap string value)
    (errors : list error_detail) :
  (MarketData.new Decimal_of_string now raw = ValidationError errors →
   errors ≠ []
   ∧ loc <$> errors
     = name <$> filter (λ f, ∃ e, validate_field f raw = FError e)
                  (MarketData.fields Decimal_of_string now))
  ∧ (TradeData.new Decimal_of_string now raw = ValidationError errors →
     errors ≠ []
     ∧ loc <$> errors
       = name <$> filter (λ f, ∃ e, validate_field f raw = FError e)
                    (TradeData.fields Decimal_of_string now)).
Proof.
  assert (Hne : ∀ cls flds values errs,
    validate_fields cls flds raw values errs = ValidationError errors → errors ≠ []).
  { intros cls flds. induction flds as [|f flds IH]; intros values errs; simpl.
    - destruct errs; [discriminate|]. by intros [= <-].
    - destruct (validate_field f raw); [apply IH | apply IH | discriminate]. }
  split; intros H.
  - split; [by eapply Hne|]. apply validate_fields_ValidationError in H as ->.
    apply bind_field_errors_locs.
  - split; [by eapply Hne|]. apply validate_fields_ValidationError in H as ->.
    apply bind_field_errors_locs.
Qed.

Lemma validation_error_lists_failing_fields_witness :
  ∃ errors,
    MarketData.new Sample.no_parse Sample.now
      (<["symbol" := VStr Sample.long_lower]>
         (<["price" := VDecimal Sample.d_minus_5]> Sample.market_raw))
    = ValidationError errors
    ∧ loc <$> errors = ["symbol"; "price"]%string.
Proof.
  eexists. split; [vm_compute; reflexivity|].
  match goal with |- loc <$> ?es = _ =>
    pose proof (proj1 (validation_error_lists_failing_fields
      Sample.no_parse Sample.now
      (<["symbol" := VStr Sample.long_lower]>
         (<["price" := VDecimal Sample.d_minus_5]> Sample.market_raw)) es)) as H;
    assert (H1 : MarketData.new Sample.no_parse Sample.now
      (<["symbol" := VStr Sample.long_lower]>
         (<["price" := VDecimal Sample.d_minus_5]> Sample.market_raw))
      = ValidationError es) by (vm_compute; reflexivity)
  end.
  apply H in H1 as [_ H1]. rewrite H1. vm_compute. reflexivity.
Defined.

Lemma truthy_getenv environ var :
  truthy (Config.getenv environ var) = false ↔ unset_or_empty environ var.
Proof.
  unfold Config.getenv, unset_or_empty. destruct (environ !! var) as [s|]; simpl.
  - rewrite negb_false_iff, bool_decide_eq_true. split; [intros ->; by right|].
    by intros [|[= ->]].
  - split; [by left | done].
Qed.

Lemma getenv_set environ var :
  ¬ unset_or_empty environ var →
  ∃ s, environ !! var = Some s ∧ s ≠ EmptyString ∧ Config.getenv environ var = VStr s.
Proof.
  unfold unset_or_empty, Config.getenv. destruct (environ !! var) as [s|].
  - intros H. exists s. split_and!; [done | | done]. intros ->. apply H. by right.
  - intros H. destruct H. by left.
Qed.

(** X26.  [load_config] exits with status 1 exactly when one of the five
    required variables is unset or empty, naming all of them in
    declaration order.  Otherwise the port is the integer spelled by
    [DB_PORT] itself (the fallback [5432] is never used), [ValueError]
    when it spells none; the database settings are the non-empty strings
    of the environment, and [log_level] and [app_env] fall back to [INFO]
    and [development]. *)
Theorem load_config_spec (int_of_string : string → option Z)
    (environ : gmap string string) :
  let missing := filter (unset_or_empty environ) Config.required_vars in
  (missing ≠ [] → Config.load_config int_of_string environ = Config.Exit 1 missing)
  ∧ (missing = [] →
     ∃ host port name user pass,
       environ !! "DB_HOST"%string = Some host ∧ host ≠ EmptyString
       ∧ environ !! "DB_PORT"%string = Some port ∧ port ≠ EmptyString
       ∧ environ !! "DB_NAME"%string = Some name ∧ name ≠ EmptyString
       ∧ environ !! "DB_USER"%string = Some user ∧ user ≠ EmptyString
       ∧ environ !! "DB_PASS"%string = Some pass ∧ pass ≠ EmptyString
       ∧ Config.load_config int_of_string environ
         = match int_of_string port with
           | None => Config.IntValueError
           | Some p =>
               Config.Loaded
                 (<["db_host" := VStr host]> (<["db_port" := VInt p]>
                 (<["db_name" := VStr name]> (<["db_user" := VStr user]>
                 (<["db_pass" := VStr pass]>
                 (<["log_level" :=
                      VStr (default "INFO"%string (environ !! "LOG_LEVEL"%string))]>
                 (<["app_env" :=
                      VStr (default "development"%string
                              (environ !! "APP_ENV"%string))]> ∅)))))))
           end).
Proof.
  intros missing.
  assert (Hm : filter (λ var, truthy (Config.getenv environ var) = false)
                 Config.required_vars = missing).
  { apply list_filter_iff. intros var. apply truthy_getenv. }
  unfold Config.load_config. cbv zeta. rewrite Hm. split.
  - intros Hne. by destruct missing.
  - intros Hnil. rewrite Hnil.
    assert (Hall : Forall (λ var, ¬ unset_or_empty environ var) Config.required_vars).
    { apply Forall_forall. intros var Hin Hu.
      assert (Hf : var ∈ missing) by by apply list_elem_of_filter.
      rewrite Hnil in Hf. by apply elem_of_nil in Hf. }
    unfold Config.required_vars in Hall.
    repeat (apply Forall_cons in Hall as [?%getenv_set Hall]).
    destruct H as (host & Hh & ? & Gh). destruct H0 as (port & Hp & ? & Gp).
    destruct H1 as (name & Hn & ? & Gn). destruct H2 as (user & Hu & ? & Gu).
    destruct H3 as (pass & Hpw & ? & Gpw).
    exists host, port, name, user, pass. split_and!; try done.
    unfold Config.getenv_default. rewrite Gh, Gn, Gu, Gpw, Hp. done.
Qed.

Lemma load_config_spec_witness :
  Config.load_config (λ _, None)
    (<["DB_HOST" := "db"]> (<["DB_PORT" := "5432"]> (<["DB_NAME" := "spine"]>
    (<["DB_USER" := "app"]> (<["DB_PASS" := ""]> ∅)))))%string
  = Config.Exit 1 ["DB_PASS"%string].
Proof.
  refine (eq_trans (proj1 (load_config_spec (λ _, None)
    (<["DB_HOST" := "db"]> (<["DB_PORT" := "5432"]> (<["DB_NAME" := "spine"]>
    (<["DB_USER" := "app"]> (<["DB_PASS" := ""]> ∅)))))%string) _) _).
  - vm_compute. discriminate.
  - vm_compute. reflexivity.
Defined.
